(** * Browser stress-test runner: event dispatch, critical-endpoint
      monitoring, session orchestration and the session launcher.

    Shallow embedding of
      - src/EventHandler.ts        (class EventHandler),
      - src/CustomEventHandler.ts  (class CustomEventHandler),
      - src/Runner.ts              (class Runner),
      - src/index.ts               (the launcher),
      - src/logger.ts              (the log files and the line format),
      - src/Scenario.ts            (class Scenario),
    followed by the properties proved about them.

    Modelling conventions.
      - JavaScript numbers that hold HTTP statuses and counters are [Z].
      - The two winston loggers are append-only lists of (level, message).
      - Mutable object state is threaded through a small state monad;
        code that can throw runs in a state-and-exception monad.
      - [async] code is split at its [await]s: what runs before the first
        [await] runs inside the caller's step, the rest is a continuation
        that the scheduler resumes later, possibly after other events.
      - Everything the browser decides (outcomes of Playwright calls, the
        events it delivers, the wall clock) is an explicit input. *)

From Stdlib Require Import ZArith List String Ascii Bool Lia DecimalString.
From Stdlib Require Import RelationClasses.
From Stdlib Require DecimalPos DecimalZ.
Import ListNotations.
Open Scope string_scope.
Open Scope Z_scope.


Set Warnings "-register-all".

(* ================================================================= *)
(** ** JavaScript built-ins used by the sources *)

Module Js.

(** [String.prototype.endsWith] (no position argument). *)
Definition endsWith (s suffix : string) : bool :=
  let n := String.length s in
  let m := String.length suffix in
  if (m <=? n)%nat then String.eqb (substring (n - m) m s) suffix else false.

(** [String.prototype.includes] (no position argument). *)
Fixpoint includes (s pat : string) : bool :=
  if prefix pat s then true
  else match s with
       | EmptyString => false
       | String _ s' => includes s' pat
       end.

Definition upper_ascii (c : ascii) : ascii :=
  let n := nat_of_ascii c in
  if ((97 <=? n) && (n <=? 122))%nat then ascii_of_nat (n - 32) else c.

(** [String.prototype.toUpperCase], on ASCII text. *)
Fixpoint toUpperCase (s : string) : string :=
  match s with
  | EmptyString => EmptyString
  | String c s' => String (upper_ascii c) (toUpperCase s')
  end.

(** Template-literal rendering of an integral number. *)
Definition show (n : Z) : string := NilZero.string_of_int (Z.to_int n).

(** [Array.prototype.some]. *)
Definition some {A} (p : A -> bool) (l : list A) : bool := existsb p l.

(** A parsed JSON value, as [response.json()] resolves to. Numbers are
    kept as integers: the sources never compute with a body's number. *)
Inductive json : Type :=
| JNull
| JBool (b : bool)
| JNumber (n : Z)
| JString (s : string)
| JArray (items : list json)
| JObject (fields : list (string * json)).

(** Own-property lookup in a parsed object. *)
Fixpoint assoc (k : string) (fields : list (string * json)) : option json :=
  match fields with
  | [] => None
  | (k', v) :: rest => if String.eqb k' k then Some v else assoc k rest
  end.

(** Result of evaluating [v.k]: reading a property of [null] throws a
    TypeError, a missing property reads as [undefined]. *)
Inductive access : Type :=
| Throws
| Undefined
| Value (v : json).

Definition getProperty (v : json) (k : string) : access :=
  match v with
  | JNull => Throws
  | JObject fields =>
      match assoc k fields with
      | Some x => Value x
      | None => Undefined
      end
  | _ => Undefined
  end.

(** [a === true], for [a] the value a property access produced. *)
Definition strictly_true (a : access) : bool :=
  match a with
  | Value (JBool true) => true
  | _ => false
  end.

(** What the JavaScript engine supplies and the sources only call. *)
Class Runtime : Type := {
  JSON_stringify : json -> string;
  (** Text of the TypeError raised by reading a property of [null],
      as a template literal renders it. *)
  null_property_error : string
}.

End Js.

(* ================================================================= *)
(** ** Insertion-ordered string-keyed maps

    A JavaScript [Map<string, V>], and equally a plain object used as a
    [Record<string, V>]: iteration follows first insertion, and setting
    an existing key replaces its value in place. *)

Module JsMap.

Definition t (V : Type) : Type := list (string * V).

Definition empty {V} : t V := [].

Fixpoint set {V} (k : string) (v : V) (m : t V) : t V :=
  match m with
  | [] => [(k, v)]
  | (k', v') :: rest =>
      if String.eqb k' k then (k', v) :: rest else (k', v') :: set k v rest
  end.

Fixpoint get {V} (k : string) (m : t V) : option V :=
  match m with
  | [] => None
  | (k', v) :: rest => if String.eqb k' k then Some v else get k rest
  end.

Definition has {V} (k : string) (m : t V) : bool :=
  match get k m with Some _ => true | None => false end.

Definition size {V} (m : t V) : Z := Z.of_nat (List.length m).

Definition keys {V} (m : t V) : list string := List.map fst m.

(** [m.forEach((value, key) => f(value, key))] threading an accumulator. *)
Definition forEach {V A} (f : V -> string -> A -> A) (m : t V) (acc : A) : A :=
  fold_left (fun a kv => f (snd kv) (fst kv) a) m acc.

End JsMap.

(* ================================================================= *)
(** ** A small state monad *)

Definition M (S A : Type) : Type := S -> A * S.

Definition ret {S A} (a : A) : M S A := fun s => (a, s).

Definition bind {S A B} (m : M S A) (k : A -> M S B) : M S B :=
  fun s => let (a, s') := m s in k a s'.

Definition gets {S A} (f : S -> A) : M S A := fun s => (f s, s).

Definition modify {S} (f : S -> S) : M S unit := fun s => (tt, f s).

Definition exec {S A} (m : M S A) (s : S) : S := snd (m s).

Definition eval {S A} (m : M S A) (s : S) : A := fst (m s).

Definition when {S} (c : bool) (m : M S unit) : M S unit :=
  if c then m else ret tt.

Declare Scope monad_scope.
Delimit Scope monad_scope with monad.
Notation "x <- m ;; k" := (bind m (fun x => k))
  (at level 61, m at next level, right associativity) : monad_scope.
Notation "m ;; k" := (bind m (fun _ => k))
  (at level 61, right associativity) : monad_scope.
Open Scope monad_scope.

(* ================================================================= *)
(** ** Browser events (Playwright's ConsoleMessage, Request, Response) *)

Record ConsoleMessage : Type := {
  msg_type : string;
  msg_text : string
}.

Record Request : Type := {
  req_method : string;
  req_url : string;
  req_resourceType : string
}.

(** How [response.json()] settles: with the parsed body, or rejected
    with an error whose rendering is [reason]. *)
Inductive json_outcome : Type :=
| Parsed (body : Js.json)
| Rejected (reason : string).

Record Response : Type := {
  resp_status : Z;
  resp_url : string;
  resp_request : Request;
  resp_json : json_outcome
}.

(* ================================================================= *)
(** ** Loggers *)

Inductive level : Type := Info | Warn | Error.

Definition log : Type := list (level * string).

(* ================================================================= *)
(** ** src/EventHandler.ts *)

(** The protected fields of [EventHandler]: its two loggers. *)
Class Loggers (S : Type) : Type := {
  consoleLogger : level -> string -> M S unit;
  networkLogger : level -> string -> M S unit
}.

(** The overridable hooks of [EventHandler]. *)
Class Hooks (S : Type) : Type := {
  onConsoleError : string -> M S unit;
  onConsoleWarning : string -> M S unit;
  onConsoleLog : string -> M S unit;
  onRequest : Request -> M S unit;
  onSuccess : Response -> M S unit;
  onClientError : Response -> M S unit;
  onServerError : Response -> M S unit
}.

Section EventHandler.

Context {S : Type} {L : Loggers S}.

(** The hook bodies of the base class. *)
Definition EventHandler_hooks : Hooks S := {|
  onConsoleError := fun _ => ret tt;
  onConsoleWarning := fun _ => ret tt;
  onConsoleLog := fun _ => ret tt;
  onRequest := fun _ => ret tt;
  onSuccess := fun _ => ret tt;
  onClientError := fun response =>
    networkLogger Warn
      ("Client error: " ++ Js.show (resp_status response) ++ " "
         ++ resp_url response);
  onServerError := fun response =>
    networkLogger Error
      ("Server error: " ++ Js.show (resp_status response) ++ " "
         ++ resp_url response)
|}.

Context {H : Hooks S}.

Definition handleConsole (msg : ConsoleMessage) : M S unit :=
  let type := msg_type msg in
  let text := msg_text msg in
  consoleLogger Info ("[Browser " ++ Js.toUpperCase type ++ "] " ++ text) ;;
  if String.eqb type "error" then onConsoleError text
  else if String.eqb type "warning" then onConsoleWarning text
  else if String.eqb type "log" then onConsoleLog text
  else ret tt.

Definition handleRequest (request : Request) : M S unit :=
  let method := req_method request in
  let url := req_url request in
  let resourceType := req_resourceType request in
  when (String.eqb resourceType "xhr" || String.eqb resourceType "fetch")
    (networkLogger Info ("[Network] → " ++ method ++ " " ++ url)) ;;
  onRequest request.

Definition handleResponse (response : Response) : M S unit :=
  let status := resp_status response in
  let url := resp_url response in
  let request := resp_request response in
  let resourceType := req_resourceType request in
  when (String.eqb resourceType "xhr" || String.eqb resourceType "fetch")
    (networkLogger Info ("[Network] ← " ++ Js.show status ++ " " ++ url)) ;;
  if status >=? 500 then onServerError response
  else if status >=? 400 then onClientError response
  else if (status >=? 200) && (status <? 300) then onSuccess response
  else ret tt.

End EventHandler.

(* ================================================================= *)
(** ** src/CustomEventHandler.ts *)

(** What the handler stores for one critical endpoint: the object
    literals [{url, timestamp, status, body}] and
    [{url, timestamp, status, error}]. An absent field is [None]. *)
Record observation : Type := {
  obs_url : string;
  obs_timestamp : string;
  obs_status : Z;
  obs_body : option Js.json;
  obs_error : option string
}.

(** A call of [checkCriticalEndpoint] suspended at
    [await response.json()], with the locals it captured. *)
Record pending_check : Type := {
  pc_endpointName : string;
  pc_url : string;
  pc_response : Response
}.

(** The fields of a [CustomEventHandler] instance (the loggers are the
    ones inherited from [EventHandler]), the clock it reads and the
    calls of [checkCriticalEndpoint] that are suspended. *)
Record CustomEventHandler : Type := {
  consoleLog : log;
  networkLog : log;
  errorCount : Z;
  requestCount : Z;
  serverErrorCount : Z;
  criticalEndpointFailed : bool;
  criticalEndpointResponses : JsMap.t observation;
  healthCheckPassed : bool;
  clock : string;
  awaiting : list pending_check
}.

Definition criticalEndpoints : list string :=
  ["/getStore"; "/getToken"; "/getOrderTypeData"; "/getDataAuthStore"; "/health"].

(** [new CustomEventHandler(consoleLogger, networkLogger)] at time [t0]. *)
Definition new_CustomEventHandler (t0 : string) : CustomEventHandler := {|
  consoleLog := [];
  networkLog := [];
  errorCount := 0;
  requestCount := 0;
  serverErrorCount := 0;
  criticalEndpointFailed := false;
  criticalEndpointResponses := JsMap.empty;
  healthCheckPassed := false;
  clock := t0;
  awaiting := []
|}.

Definition with_consoleLog (f : log -> log) (h : CustomEventHandler) :=
  {| consoleLog := f (consoleLog h); networkLog := networkLog h;
     errorCount := errorCount h; requestCount := requestCount h;
     serverErrorCount := serverErrorCount h;
     criticalEndpointFailed := criticalEndpointFailed h;
     criticalEndpointResponses := criticalEndpointResponses h;
     healthCheckPassed := healthCheckPassed h;
     clock := clock h; awaiting := awaiting h |}.

Definition with_networkLog (f : log -> log) (h : CustomEventHandler) :=
  {| consoleLog := consoleLog h; networkLog := f (networkLog h);
     errorCount := errorCount h; requestCount := requestCount h;
     serverErrorCount := serverErrorCount h;
     criticalEndpointFailed := criticalEndpointFailed h;
     criticalEndpointResponses := criticalEndpointResponses h;
     healthCheckPassed := healthCheckPassed h;
     clock := clock h; awaiting := awaiting h |}.

Definition with_errorCount (f : Z -> Z) (h : CustomEventHandler) :=
  {| consoleLog := consoleLog h; networkLog := networkLog h;
     errorCount := f (errorCount h); requestCount := requestCount h;
     serverErrorCount := serverErrorCount h;
     criticalEndpointFailed := criticalEndpointFailed h;
     criticalEndpointResponses := criticalEndpointResponses h;
     healthCheckPassed := healthCheckPassed h;
     clock := clock h; awaiting := awaiting h |}.

Definition with_requestCount (f : Z -> Z) (h : CustomEventHandler) :=
  {| consoleLog := consoleLog h; networkLog := networkLog h;
     errorCount := errorCount h; requestCount := f (requestCount h);
     serverErrorCount := serverErrorCount h;
     criticalEndpointFailed := criticalEndpointFailed h;
     criticalEndpointResponses := criticalEndpointResponses h;
     healthCheckPassed := healthCheckPassed h;
     clock := clock h; awaiting := awaiting h |}.

Definition with_serverErrorCount (f : Z -> Z) (h : CustomEventHandler) :=
  {| consoleLog := consoleLog h; networkLog := networkLog h;
     errorCount := errorCount h; requestCount := requestCount h;
     serverErrorCount := f (serverErrorCount h);
     criticalEndpointFailed := criticalEndpointFailed h;
     criticalEndpointResponses := criticalEndpointResponses h;
     healthCheckPassed := healthCheckPassed h;
     clock := clock h; awaiting := awaiting h |}.

Definition with_criticalEndpointFailed (b : bool) (h : CustomEventHandler) :=
  {| consoleLog := consoleLog h; networkLog := networkLog h;
     errorCount := errorCount h; requestCount := requestCount h;
     serverErrorCount := serverErrorCount h;
     criticalEndpointFailed := b;
     criticalEndpointResponses := criticalEndpointResponses h;
     healthCheckPassed := healthCheckPassed h;
     clock := clock h; awaiting := awaiting h |}.

Definition with_criticalEndpointResponses
    (f : JsMap.t observation -> JsMap.t observation) (h : CustomEventHandler) :=
  {| consoleLog := consoleLog h; networkLog := networkLog h;
     errorCount := errorCount h; requestCount := requestCount h;
     serverErrorCount := serverErrorCount h;
     criticalEndpointFailed := criticalEndpointFailed h;
     criticalEndpointResponses := f (criticalEndpointResponses h);
     healthCheckPassed := healthCheckPassed h;
     clock := clock h; awaiting := awaiting h |}.

Definition with_healthCheckPassed (b : bool) (h : CustomEventHandler) :=
  {| consoleLog := consoleLog h; networkLog := networkLog h;
     errorCount := errorCount h; requestCount := requestCount h;
     serverErrorCount := serverErrorCount h;
     criticalEndpointFailed := criticalEndpointFailed h;
     criticalEndpointResponses := criticalEndpointResponses h;
     healthCheckPassed := b;
     clock := clock h; awaiting := awaiting h |}.

Definition with_clock (t : string) (h : CustomEventHandler) :=
  {| consoleLog := consoleLog h; networkLog := networkLog h;
     errorCount := errorCount h; requestCount := requestCount h;
     serverErrorCount := serverErrorCount h;
     criticalEndpointFailed := criticalEndpointFailed h;
     criticalEndpointResponses := criticalEndpointResponses h;
     healthCheckPassed := healthCheckPassed h;
     clock := t; awaiting := awaiting h |}.

Definition with_awaiting
    (f : list pending_check -> list pending_check) (h : CustomEventHandler) :=
  {| consoleLog := consoleLog h; networkLog := networkLog h;
     errorCount := errorCount h; requestCount := requestCount h;
     serverErrorCount := serverErrorCount h;
     criticalEndpointFailed := criticalEndpointFailed h;
     criticalEndpointResponses := criticalEndpointResponses h;
     healthCheckPassed := healthCheckPassed h;
     clock := clock h; awaiting := f (awaiting h) |}.

#[export] Instance CustomEventHandler_loggers : Loggers CustomEventHandler := {|
  consoleLogger := fun lvl message =>
    modify (with_consoleLog (fun l => (l ++ [(lvl, message)])%list));
  networkLogger := fun lvl message =>
    modify (with_networkLog (fun l => (l ++ [(lvl, message)])%list))
|}.

(** [new Date().toISOString()]. *)
Definition toISOString_now : M CustomEventHandler string := gets clock.

(** [this.criticalEndpointResponses.set(name, value)]. *)
Definition responses_set (name : string) (value : observation)
  : M CustomEventHandler unit :=
  modify (with_criticalEndpointResponses (JsMap.set name value)).

Section CustomEventHandler.

Context {RT : Js.Runtime}.

Definition Custom_onConsoleError (message : string) : M CustomEventHandler unit :=
  modify (with_errorCount (fun n => n + 1)) ;;
  n <- gets errorCount ;;
  when (n >? 10)
    (consoleLogger Error ("âš ï¸ High console error count: " ++ Js.show n)) ;;
  when (Js.includes message "Failed to load resource")
    (consoleLogger Warn ("Resource loading failed: " ++ message)).

Definition Custom_onRequest (request : Request) : M CustomEventHandler unit :=
  modify (with_requestCount (fun n => n + 1)) ;;
  let url := req_url request in
  when (Js.includes url "/api/")
    (networkLogger Info ("API call: " ++ req_method request ++ " " ++ url)) ;;
  when (Js.includes url "analytics" || Js.includes url "tracking")
    (networkLogger Info ("Blocking tracking request: " ++ url)).

Definition Custom_onServerError (response : Response) : M CustomEventHandler unit :=
  modify (with_serverErrorCount (fun n => n + 1)) ;;
  let url := resp_url response in
  let status := resp_status response in
  networkLogger Error ("ðŸš¨ Server error " ++ Js.show status ++ ": " ++ url) ;;
  when (Js.includes url "getbyalias")
    (networkLogger Error ("Critical: Short URL service failed - " ++ url)) ;;
  n <- gets serverErrorCount ;;
  when (n >? 5)
    (networkLogger Error ("âš ï¸ High server error count: " ++ Js.show n)).

Definition Custom_onClientError (response : Response) : M CustomEventHandler unit :=
  let status := resp_status response in
  let url := resp_url response in
  when (status =? 404)
    (networkLogger Warn ("Resource not found: " ++ url)) ;;
  when ((status =? 401) || (status =? 403))
    (networkLogger Error
       ("Authentication/Authorization failed: " ++ Js.show status ++ " " ++ url)).

(** [checkCriticalEndpoint] up to its first [await]: the whole body for
    [/health], which never awaits; for the other endpoints the call is
    suspended at [await response.json()]. *)
Definition checkCriticalEndpoint (response : Response) : M CustomEventHandler unit :=
  let url := resp_url response in
  match find (fun e => Js.endsWith url e) criticalEndpoints with
  | None => ret tt
  | Some endpointName =>
      if String.eqb endpointName "/health" then
        if resp_status response =? 200 then
          modify (with_healthCheckPassed true) ;;
          timestamp <- toISOString_now ;;
          responses_set endpointName
            {| obs_url := url; obs_timestamp := timestamp;
               obs_status := resp_status response;
               obs_body := Some (Js.JString "OK (200)"); obs_error := None |} ;;
          networkLogger Info
            ("[Critical Endpoint] " ++ endpointName ++ ": SUCCESS (HTTP 200)")
        else
          networkLogger Error
            ("ðŸš¨ Critical endpoint " ++ endpointName ++ " returned status "
               ++ Js.show (resp_status response)) ;;
          modify (with_criticalEndpointFailed true) ;;
          timestamp <- toISOString_now ;;
          responses_set endpointName
            {| obs_url := url; obs_timestamp := timestamp;
               obs_status := resp_status response;
               obs_body := None;
               obs_error := Some ("HTTP " ++ Js.show (resp_status response)) |}
      else
        modify (with_awaiting (fun l => (l ++
          [{| pc_endpointName := endpointName; pc_url := url;
              pc_response := response |}])%list))
  end.

(** The [catch (error)] block of [checkCriticalEndpoint]; [error] is
    the caught value as a template literal renders it. *)
Definition checkCriticalEndpoint_catch (p : pending_check) (error : string)
  : M CustomEventHandler unit :=
  let endpointName := pc_endpointName p in
  let response := pc_response p in
  networkLogger Error
    ("ðŸš¨ Critical endpoint " ++ endpointName
       ++ " did not return valid JSON: " ++ error) ;;
  modify (with_criticalEndpointFailed true) ;;
  timestamp <- toISOString_now ;;
  responses_set endpointName
    {| obs_url := pc_url p; obs_timestamp := timestamp;
       obs_status := resp_status response;
       obs_body := None;
       obs_error := Some ("Failed to parse JSON response: " ++ error) |}.

(** [checkCriticalEndpoint] from the point where [response.json()]
    settles: the [try] block, and the [catch] block when the promise
    rejected or [responseBody.error] threw. *)
Definition checkCriticalEndpoint_resume (p : pending_check)
  : M CustomEventHandler unit :=
  let endpointName := pc_endpointName p in
  let response := pc_response p in
  match resp_json response with
  | Rejected reason => checkCriticalEndpoint_catch p reason
  | Parsed responseBody =>
      timestamp <- toISOString_now ;;
      responses_set endpointName
        {| obs_url := pc_url p; obs_timestamp := timestamp;
           obs_status := resp_status response;
           obs_body := Some responseBody; obs_error := None |} ;;
      match Js.getProperty responseBody "error" with
      | Js.Throws => checkCriticalEndpoint_catch p Js.null_property_error
      | error_field =>
          if Js.strictly_true error_field then
            networkLogger Error
              ("ðŸš¨ Critical endpoint failed: " ++ endpointName
                 ++ " returned error:true") ;;
            networkLogger Error
              ("Response: " ++ Js.JSON_stringify responseBody) ;;
            modify (with_criticalEndpointFailed true)
          else
            networkLogger Info
              ("[Critical Endpoint] " ++ endpointName ++ ": SUCCESS")
      end
  end.

Definition Custom_onSuccess (response : Response) : M CustomEventHandler unit :=
  let url := resp_url response in
  let isCriticalEndpoint :=
    Js.some (fun endpoint => Js.endsWith url endpoint) criticalEndpoints in
  when isCriticalEndpoint (checkCriticalEndpoint response).

(** [CustomEventHandler extends EventHandler]: five hooks overridden,
    [onConsoleWarning] and [onConsoleLog] inherited. *)
#[export] Instance CustomEventHandler_hooks : Hooks CustomEventHandler := {|
  onConsoleError := Custom_onConsoleError;
  onConsoleWarning := onConsoleWarning (Hooks := EventHandler_hooks);
  onConsoleLog := onConsoleLog (Hooks := EventHandler_hooks);
  onRequest := Custom_onRequest;
  onSuccess := Custom_onSuccess;
  onClientError := Custom_onClientError;
  onServerError := Custom_onServerError
|}.

Definition hasCriticalFailure : M CustomEventHandler bool :=
  gets criticalEndpointFailed.

Definition hasHealthCheckPassed : M CustomEventHandler bool :=
  gets healthCheckPassed.

Definition getCriticalEndpointResponses
  : M CustomEventHandler (JsMap.t observation) :=
  gets criticalEndpointResponses.

Definition getEndpointResponse (endpointName : string)
  : M CustomEventHandler (option observation) :=
  gets (fun h => JsMap.get endpointName (criticalEndpointResponses h)).

(** [getAllResponsesAsObject()]. The plain object it builds is held as
    the list of the properties it has of its own, in the order they
    were created: what [Object.keys] and [Object.entries] enumerate
    (the keys are endpoint names, which start with a slash, so none is
    an array index or [__proto__]). What the object inherits from
    [Object.prototype] is not in this list, so [obj[name]] for an
    arbitrary name is not what [JsMap.get] on it computes. *)
Definition getAllResponsesAsObject : M CustomEventHandler (JsMap.t observation) :=
  responses <- gets criticalEndpointResponses ;;
  ret (JsMap.forEach (fun value key obj => JsMap.set key value obj)
         responses JsMap.empty).

Record Stats : Type := {
  totalRequests : Z;
  consoleErrors : Z;
  serverErrors : Z;
  criticalEndpointsTracked : Z;
  criticalEndpointsFailed : bool
}.

Definition getStats : M CustomEventHandler Stats :=
  h <- gets (fun h => h) ;;
  ret {| totalRequests := requestCount h;
         consoleErrors := errorCount h;
         serverErrors := serverErrorCount h;
         criticalEndpointsTracked := JsMap.size (criticalEndpointResponses h);
         criticalEndpointsFailed := criticalEndpointFailed h |}.

(* ----------------------------------------------------------------- *)
(** *** Events delivered to one handler

    The page delivers console, request and response events to the
    handler's three entry points; independently, a suspended
    [checkCriticalEndpoint] is resumed when its [response.json()]
    settles. [JsonSettled k] resumes the [k]-th suspended call (there is
    nothing to resume when [k] is out of range). Each event comes with
    the wall-clock time at which it is handled. *)

Inductive event : Type :=
| ConsoleEvent (msg : ConsoleMessage)
| RequestEvent (request : Request)
| ResponseEvent (response : Response)
| JsonSettled (k : nat).

Fixpoint remove_nth {A} (k : nat) (l : list A) : list A :=
  match l, k with
  | [], _ => []
  | _ :: rest, O => rest
  | x :: rest, S k' => x :: remove_nth k' rest
  end.

Definition dispatch (e : event) : M CustomEventHandler unit :=
  match e with
  | ConsoleEvent msg => handleConsole msg
  | RequestEvent request => handleRequest request
  | ResponseEvent response => handleResponse response
  | JsonSettled k =>
      suspended <- gets awaiting ;;
      match nth_error suspended k with
      | None => ret tt
      | Some p =>
          modify (with_awaiting (remove_nth k)) ;;
          checkCriticalEndpoint_resume p
      end
  end.

Definition deliver (te : string * event) : M CustomEventHandler unit :=
  modify (with_clock (fst te)) ;;
  dispatch (snd te).

Fixpoint deliver_all (tes : list (string * event)) : M CustomEventHandler unit :=
  match tes with
  | [] => ret tt
  | te :: rest => deliver te ;; deliver_all rest
  end.

End CustomEventHandler.

(* ================================================================= *)
(** ** State, exceptions and awaits

    Code that can throw runs in [MX S]: a state monad whose result is
    either a value or a thrown error (kept as the text a template
    literal renders it to). *)

Inductive outcome (A : Type) : Type :=
| Fulfilled (a : A)
| Thrown (error : string).

Arguments Fulfilled {A} a.
Arguments Thrown {A} error.

Definition MX (S A : Type) : Type := S -> outcome A * S.

Definition retX {S A} (a : A) : MX S A := fun s => (Fulfilled a, s).

Definition throwX {S A} (error : string) : MX S A := fun s => (Thrown error, s).

Definition bindX {S A B} (m : MX S A) (k : A -> MX S B) : MX S B :=
  fun s =>
    match m s with
    | (Fulfilled a, s') => k a s'
    | (Thrown error, s') => (Thrown error, s')
    end.

(** [try { body } catch (error) { handler }]. *)
Definition try_catch {S A} (body : MX S A) (handler : string -> MX S A) : MX S A :=
  fun s =>
    match body s with
    | (Fulfilled a, s') => (Fulfilled a, s')
    | (Thrown error, s') => handler error s'
    end.

(** [try { body } finally { cleanup }]: [cleanup] always runs; the
    result is the body's unless [cleanup] itself throws. *)
Definition try_finally {S A} (body : MX S A) (cleanup : MX S unit) : MX S A :=
  fun s =>
    let (result, s') := body s in
    match cleanup s' with
    | (Fulfilled _, s'') => (result, s'')
    | (Thrown error, s'') => (Thrown error, s'')
    end.

Definition whenX {S} (c : bool) (m : MX S unit) : MX S unit :=
  if c then m else retX tt.

Definition execX {S A} (m : MX S A) (s : S) : S := snd (m s).

Definition resultX {S A} (m : MX S A) (s : S) : outcome A := fst (m s).

Declare Scope mx_scope.
Delimit Scope mx_scope with mx.
Notation "x <- m ;; k" := (bindX m (fun x => k))
  (at level 61, m at next level, right associativity) : mx_scope.
Notation "m ;; k" := (bindX m (fun _ => k))
  (at level 61, right associativity) : mx_scope.

(* ================================================================= *)
(** ** The browser as seen by one session *)

(** Calls made on the Playwright objects, in the order they are made. *)
Inductive call : Type :=
| BrowserNewContext
| ContextNewPage
| PageOn (kind : string)
| PageGoto (url : string)
| PageWaitForSelector (selector : string) (timeout : Z)
| PageQuery (selector : string)
| ElementContentFrame
| FrameWaitForLoadState (state : string)
| PageWaitForResponse (timeout : Z)
| SetTimeout (ms : Z)
| ElementScreenshot (filename : string)
| ScenarioExecute
| ContextClose
| BrowserClose.

(** An awaited call as the browser answers it: the events the page
    delivers to the registered listeners while the caller is suspended,
    and how the promise settles. *)
Record awaited (A : Type) : Type := {
  during : list (string * event);
  settles : outcome A
}.

Arguments during {A} a.
Arguments settles {A} a.

(** One [captureScreenshot] call: the time it reads, the element query
    and the capture. *)
Record capture : Type := {
  shot_now : string;
  shot_query : awaited bool;
  shot_capture : awaited unit
}.

(** [new Scenario(...).execute()], a collaborator: what the page
    delivers while it runs, the lines it writes to the shared console
    logger, and how it settles. *)
Record scenario_run : Type := {
  scenario_during : list (string * event);
  scenario_lines : log;
  scenario_settles : outcome unit
}.

(** Everything the browser decides during one [Runner.run()]. *)
Record environment : Type := {
  env_newContext : outcome unit;
  env_newPage : outcome unit;
  env_goto : awaited unit;
  env_frame_waitForSelector : awaited unit;
  env_frame_query : awaited bool;
  env_frame_contentFrame : awaited (option string);
  env_frame_waitForLoadState : awaited unit;
  env_waitForResponse : awaited unit;
  env_settle_delay : list (string * event);
  env_shot_failure : capture;
  env_shot_before : capture;
  env_shot_after : capture;
  env_scenario : scenario_run;
  env_close : awaited unit
}.

(* ================================================================= *)
(** ** src/Runner.ts *)

Inductive handle : Type := Handle.

(** The fields of a [Runner]. Its two loggers are the very objects it
    passes to its [CustomEventHandler], so the log lines live there;
    [calls] records the Playwright calls made so far. *)
Record Runner : Type := {
  url : string;
  id : Z;
  context : option handle;
  page : option handle;
  eventHandler : CustomEventHandler;
  calls : list call
}.

(** [new Runner(url, browser, id)] at time [t0]. *)
Definition new_Runner (t0 url : string) (id : Z) : Runner := {|
  url := url;
  id := id;
  context := None;
  page := None;
  eventHandler := new_CustomEventHandler t0;
  calls := []
|}.

Definition with_context (c : option handle) (r : Runner) : Runner :=
  {| url := url r; id := id r; context := c; page := page r;
     eventHandler := eventHandler r; calls := calls r |}.

Definition with_page (p : option handle) (r : Runner) : Runner :=
  {| url := url r; id := id r; context := context r; page := p;
     eventHandler := eventHandler r; calls := calls r |}.

Definition with_eventHandler (f : CustomEventHandler -> CustomEventHandler)
    (r : Runner) : Runner :=
  {| url := url r; id := id r; context := context r; page := page r;
     eventHandler := f (eventHandler r); calls := calls r |}.

Definition with_calls (f : list call -> list call) (r : Runner) : Runner :=
  {| url := url r; id := id r; context := context r; page := page r;
     eventHandler := eventHandler r; calls := f (calls r) |}.

Section Runner.

Context {RT : Js.Runtime}.

Open Scope mx_scope.

Definition getsX {A} (f : Runner -> A) : MX Runner A :=
  fun r => (Fulfilled (f r), r).

Definition modifyX (f : Runner -> Runner) : MX Runner unit :=
  fun r => (Fulfilled tt, f r).

(** A method call on [this.eventHandler] (none of them throws). *)
Definition on_eventHandler {A} (m : M CustomEventHandler A) : MX Runner A :=
  fun r =>
    let (a, h) := m (eventHandler r) in
    (Fulfilled a, with_eventHandler (fun _ => h) r).

Definition Runner_consoleLogger (lvl : level) (message : string) : MX Runner unit :=
  on_eventHandler (consoleLogger lvl message).

Definition perform (c : call) : MX Runner unit :=
  modifyX (with_calls (fun l => (l ++ [c])%list)).

(** The page's listeners forward each event to the handler. *)
Definition listen (events : list (string * event)) : MX Runner unit :=
  on_eventHandler (deliver_all events).

(** [await c] before any listener is registered. *)
Definition await_quiet {A} (c : call) (o : outcome A) : MX Runner A :=
  perform c ;;
  fun r => (o, r).

(** [await c] with the listeners registered. *)
Definition await {A} (c : call) (w : awaited A) : MX Runner A :=
  perform c ;;
  listen (during w) ;;
  fun r => (settles w, r).

(** [s.replace(/[:.]/g, "-")]. *)
Fixpoint replace_colon_dot (s : string) : string :=
  match s with
  | EmptyString => EmptyString
  | String c s' =>
      String (if (Ascii.eqb c ":" || Ascii.eqb c ".")%bool then "-"%char else c)
             (replace_colon_dot s')
  end.

(** [captureScreenshot(label?)]. The screenshot is written under the
    [screenshots] directory of the working directory; the call records
    its file name. *)
Definition captureScreenshot (label : option string) (shot : capture)
  : MX Runner unit :=
  p <- getsX page ;;
  match p with
  | None => retX tt
  | Some _ =>
      try_catch
        (let timestamp := replace_colon_dot (shot_now shot) in
         let labelPart :=
           match label with
           | None => ""
           | Some l => if String.eqb l "" then "" else "-" ++ l
           end in
         this_id <- getsX id ;;
         let filename :=
           "runner-" ++ Js.show this_id ++ labelPart ++ "-" ++ timestamp ++ ".png" in
         iframeElement <- await (PageQuery "iframe#iframeFE") (shot_query shot) ;;
         if negb iframeElement then
           Runner_consoleLogger Error "iframe#iframeFE not found for screenshot"
         else
           await (ElementScreenshot filename) (shot_capture shot) ;;
           Runner_consoleLogger Info ("Screenshot saved: " ++ filename))
        (fun error => Runner_consoleLogger Error ("Screenshot failed: " ++ error))
  end.

(** [monitorIframe()]. *)
Definition monitorIframe (env : environment) : MX Runner unit :=
  p <- getsX page ;;
  match p with
  | None => retX tt
  | Some _ =>
      try_catch
        (Runner_consoleLogger Info "Waiting for iframe#iframeFE..." ;;
         await (PageWaitForSelector "iframe#iframeFE" 10000)
               (env_frame_waitForSelector env) ;;
         Runner_consoleLogger Info "iframe#iframeFE found" ;;
         iframeElement <- await (PageQuery "iframe#iframeFE") (env_frame_query env) ;;
         if negb iframeElement then
           Runner_consoleLogger Error "iframe#iframeFE not found after wait"
         else
           iframeContent <- await ElementContentFrame (env_frame_contentFrame env) ;;
           match iframeContent with
           | None =>
               Runner_consoleLogger Error "Could not access iframe#iframeFE content"
           | Some iframeUrl =>
               Runner_consoleLogger Info ("iframe#iframeFE URL: " ++ iframeUrl) ;;
               try_catch
                 (await (FrameWaitForLoadState "networkidle")
                        (env_frame_waitForLoadState env))
                 (fun _ =>
                    Runner_consoleLogger Warn
                      "iframe#iframeFE did not reach networkidle state") ;;
               Runner_consoleLogger Info "iframe#iframeFE loaded and monitored"
           end)
        (fun error =>
           Runner_consoleLogger Error ("Iframe monitoring failed: " ++ error))
  end.

(** [waitForAppReady()]. *)
Definition waitForAppReady (env : environment) : MX Runner unit :=
  p <- getsX page ;;
  match p with
  | None => retX tt
  | Some _ =>
      try_catch
        (Runner_consoleLogger Info "Waiting for /health endpoint..." ;;
         await (PageWaitForResponse 30000) (env_waitForResponse env) ;;
         await (SetTimeout 100)
               {| during := env_settle_delay env; settles := Fulfilled tt |} ;;
         passed <- on_eventHandler hasHealthCheckPassed ;;
         if passed then
           Runner_consoleLogger Info "App is ready: Health check passed"
         else
           Runner_consoleLogger Warn
             "Health endpoint called but did not return OK status")
        (fun error =>
           Runner_consoleLogger Error ("Health check timeout: " ++ error))
  end.

(** [executeScenario()]. *)
Definition executeScenario (env : environment) : MX Runner unit :=
  p <- getsX page ;;
  match p with
  | None => retX tt
  | Some _ =>
      try_catch
        (let scenario := env_scenario env in
         perform ScenarioExecute ;;
         listen (scenario_during scenario) ;;
         on_eventHandler
           (modify (with_consoleLog (fun l => (l ++ scenario_lines scenario)%list))) ;;
         fun r => (scenario_settles scenario, r))
        (fun error =>
           Runner_consoleLogger Error ("Scenario execution error: " ++ error) ;;
           throwX error)
  end.

(** [data.error ? "FAILED" : "SUCCESS"]. *)
Definition verdict (data : observation) : string :=
  match obs_error data with
  | Some e => if String.eqb e "" then "SUCCESS" else "FAILED"
  | None => "SUCCESS"
  end.

Fixpoint forEachX {A} (f : A -> MX Runner unit) (l : list A) : MX Runner unit :=
  match l with
  | [] => retX tt
  | x :: rest => f x ;; forEachX f rest
  end.

(** [logResponseSummary()]. *)
Definition logResponseSummary : MX Runner unit :=
  responses <- on_eventHandler getAllResponsesAsObject ;;
  stats <- on_eventHandler getStats ;;
  Runner_consoleLogger Info "=== Runner Summary ===" ;;
  Runner_consoleLogger Info ("Total Requests: " ++ Js.show (totalRequests stats)) ;;
  Runner_consoleLogger Info ("Console Errors: " ++ Js.show (consoleErrors stats)) ;;
  Runner_consoleLogger Info ("Server Errors: " ++ Js.show (serverErrors stats)) ;;
  Runner_consoleLogger Info
    ("Critical Endpoints Tracked: " ++ Js.show (criticalEndpointsTracked stats)) ;;
  forEachX
    (fun entry : string * observation =>
       let (endpoint, data) := entry in
       Runner_consoleLogger Info (endpoint ++ ": " ++ verdict data))
    responses.

(** [run()], lines 41-69: from the creation of the context to the end
    of the health gate. *)
Definition run_setup (env : environment) : MX Runner unit :=
  await_quiet BrowserNewContext (env_newContext env) ;;
  modifyX (with_context (Some Handle)) ;;
  await_quiet ContextNewPage (env_newPage env) ;;
  modifyX (with_page (Some Handle)) ;;
  perform (PageOn "console") ;;
  perform (PageOn "request") ;;
  perform (PageOn "response") ;;
  this_url <- getsX url ;;
  Runner_consoleLogger Info ("Opening: " ++ this_url) ;;
  await (PageGoto this_url) (env_goto env) ;;
  Runner_consoleLogger Info ("Loaded: " ++ this_url) ;;
  monitorIframe env ;;
  waitForAppReady env.

(** [run()], lines 71-90: the critical check and what follows it. *)
Definition run_gated (env : environment) : MX Runner unit :=
  failed <- on_eventHandler hasCriticalFailure ;;
  if failed then
    Runner_consoleLogger Error
      "Critical endpoint failure detected - stopping runner and taking screenshot" ;;
    captureScreenshot None (env_shot_failure env)
  else
    captureScreenshot (Some "before-scenario") (env_shot_before env) ;;
    executeScenario env ;;
    captureScreenshot (Some "after-scenario") (env_shot_after env) ;;
    logResponseSummary.

(** The [finally] block of [run()]. When [context.close()] rejects, the
    rejection leaves the block and becomes the outcome of [run()]. *)
Definition run_cleanup (env : environment) : MX Runner unit :=
  c <- getsX context ;;
  match c with
  | None => retX tt
  | Some _ => await ContextClose (env_close env)
  end.

(** [run()]. *)
Definition run (env : environment) : MX Runner unit :=
  try_finally
    (try_catch
       (run_setup env ;; run_gated env)
       (fun error => Runner_consoleLogger Error ("Error: " ++ error)))
    (run_cleanup env).

End Runner.

(* ================================================================= *)
(** ** src/index.ts: the launcher *)

Definition RUNNER_COUNT : nat := 1.

(** What is decided outside the program for one element of
    [runnerPromises]: the index [Math.floor(Math.random() * URLS.length)],
    the time the runner is created, and the browser's behaviour. *)
Record session_input : Type := {
  pick : nat;
  created : string;
  env : environment
}.

Section Launcher.

Context {RT : Js.Runtime}.

(** The body of the [async (_, i) => ...] callback: how the promise
    settles and the Playwright calls the session made. An absent or
    empty URL is falsy and ends the callback at once. *)
Definition runner_promise (URLS : list string) (i : nat) (input : session_input)
  : outcome unit * list call :=
  match nth_error URLS (pick input) with
  | None => (Fulfilled tt, [])
  | Some randomUrl =>
      if String.eqb randomUrl "" then (Fulfilled tt, [])
      else
        let runner := new_Runner (created input) randomUrl (Z.of_nat i) in
        let (result, runner') := run (env input) runner in
        (result, calls runner')
  end.

(** [Array.from({ length: count }, async (_, i) => ...)]; [input_of i]
    is what is decided outside the program for the [i]-th runner. *)
Definition runnerPromises (count : nat) (URLS : list string)
    (input_of : nat -> session_input) : list (outcome unit * list call) :=
  map (fun i => runner_promise URLS i (input_of i)) (seq 0 count).

(** The promises of the program as written. *)
Definition main_runnerPromises (URLS : list string)
    (input_of : nat -> session_input) : list (outcome unit * list call) :=
  runnerPromises RUNNER_COUNT URLS input_of.

End Launcher.

(** Who makes a call: the launcher itself or the session with index [i]. *)
Inductive actor : Type :=
| Launcher
| Session (i : nat).

Definition actor_eqb (a b : actor) : bool :=
  match a, b with
  | Launcher, Launcher => true
  | Session i, Session j => Nat.eqb i j
  | _, _ => false
  end.

(** The calls that session [i] still has to make. *)
Definition remaining : Type := nat -> list call.

Definition advance (f : remaining) (i : nat) (rest : list call) : remaining :=
  fun j => if Nat.eqb j i then rest else f j.

(** Concurrent sessions share no state: any merge of their call
    sequences that keeps each session's own order is a possible run. *)
Inductive interleaving : remaining -> list (actor * call) -> Prop :=
| interleaving_done (f : remaining) :
    (forall i, f i = []) -> interleaving f []
| interleaving_step (f : remaining) (i : nat) (c : call) (rest : list call)
    (merged : list (actor * call)) :
    f i = c :: rest ->
    interleaving (advance f i rest) merged ->
    interleaving f ((Session i, c) :: merged).

Definition calls_of (promises : list (outcome unit * list call)) : remaining :=
  fun i => match nth_error promises i with
           | Some p => snd p
           | None => []
           end.

(** The [try { await Promise.all(runnerPromises) } finally
    { await browser.close() }] of the launcher. [Promise.all] is
    fulfilled once every promise is; it rejects as soon as one of them
    rejects, and the [finally] block then closes the browser while the
    other sessions may still be running. The launcher itself then
    rejects, nothing handles that, and the program may end before the
    other sessions are done: [cut] is what they did not get to do. *)
Inductive launch (promises : list (outcome unit * list call))
  : list (actor * call) -> Prop :=
| launch_fulfilled (merged : list (actor * call)) :
    Forall (fun p => fst p = Fulfilled tt) promises ->
    interleaving (calls_of promises) merged ->
    launch promises (merged ++ [(Launcher, BrowserClose)])
| launch_rejected (k : nat) (error : string) (made : list call)
    (before after cut : list (actor * call)) :
    nth_error promises k = Some (Thrown error, made) ->
    interleaving (calls_of promises) (before ++ after ++ cut) ->
    Forall (fun c => actor_eqb (fst c) (Session k) = false) (after ++ cut) ->
    launch promises (before ++ (Launcher, BrowserClose) :: after).


(* ================================================================= *)
(** ** src/Runner.ts: the accessors *)

(** [getEventHandler()]. *)
Definition getEventHandler : MX Runner CustomEventHandler := getsX eventHandler.

(** [getCriticalEndpointResponses()] of the runner. *)
Definition Runner_getCriticalEndpointResponses : MX Runner (JsMap.t observation) :=
  on_eventHandler getAllResponsesAsObject.

(* ================================================================= *)
(** ** src/logger.ts *)

(** [createRunnerLogger(runnerId)]: the names of the two log files,
    which are created in the [logs] directory of the working directory. *)
Definition consoleLogFile (runnerId : Z) : string :=
  "runner-" ++ Js.show runnerId ++ "-console.log".

Definition networkLogFile (runnerId : Z) : string :=
  "runner-" ++ Js.show runnerId ++ "-network.log".

(** The [printf] template of [logFormat]. *)
Definition logFormat (runnerId : Z) (timestamp level message : string) : string :=
  "[" ++ timestamp ++ "] [Runner " ++ Js.show runnerId ++ "] ["
    ++ Js.toUpperCase level ++ "] " ++ message.

(** winston's names of the levels the sources log at. *)
Definition level_name (lvl : level) : string :=
  match lvl with
  | Info => "info"
  | Warn => "warn"
  | Error => "error"
  end.

(* ================================================================= *)
(** ** src/Scenario.ts *)

Module Scenario.

(** Calls made on the page, on the iframe element and on its frame. *)
Inductive call : Type :=
| PageQuery (selector : string)
| ElementContentFrame
| FrameWaitForSelector (selector : string) (timeout : Z) (state : string)
| FrameClick (selector : string)
| PageWaitForTimeout (ms : Z)
| ElementScreenshot (filename : string).

(** What a scenario does, in the order it happens: a line written to
    the console logger, a call, or an event that the page delivers to
    its listeners while the scenario is suspended in a call. *)
Inductive action : Type :=
| Logged (lvl : level) (message : string)
| Called (c : call)
| Delivered (te : string * event).

Definition trace : Type := list action.

(** What the browser decides during one step: the two calls of
    [getIframeContent] (whether the element was found, whether it has a
    frame), the wait for the target, the click and the pause. *)
Record step_input : Type := {
  frame_query : awaited bool;
  frame_content : awaited bool;
  target_visible : awaited unit;
  target_clicked : awaited unit;
  paused : awaited unit
}.

(** Everything the browser decides during one [execute()]. *)
Record input : Type := {
  in_step1 : step_input;
  in_shot1 : capture;
  in_step2 : step_input;
  in_shot2 : capture;
  in_step3 : step_input;
  in_shot3 : capture;
  in_step4 : step_input;
  in_shot4 : capture
}.

(** The double quote character. *)
Definition dquote : string := String (ascii_of_nat 34) EmptyString.

Section Scenario.

(** The [runnerId] field. *)
Variable runnerId : Z.

Open Scope mx_scope.

Definition consoleLogger (lvl : level) (message : string) : MX trace unit :=
  fun tr => (Fulfilled tt, (tr ++ [Logged lvl message])%list).

Definition await {A} (c : call) (w : awaited A) : MX trace A :=
  fun tr => (settles w, (tr ++ Called c :: map Delivered (during w))%list).

(** [getIframeContent()]; the frame it returns is the one the step
    goes on to use. *)
Definition getIframeContent (s : step_input) : MX trace unit :=
  iframeElement <- await (PageQuery "iframe#iframeFE") (frame_query s) ;;
  if negb iframeElement then throwX "Error: iframe#iframeFE not found"
  else
    iframeContent <- await ElementContentFrame (frame_content s) ;;
    if negb iframeContent then throwX "Error: Could not access iframe#iframeFE content"
    else retX tt.

(** [takeScreenshot(stepName)]. *)
Definition takeScreenshot (stepName : string) (shot : capture) : MX trace unit :=
  try_catch
    (let timestamp := replace_colon_dot (shot_now shot) in
     let filename :=
       "runner-" ++ Js.show runnerId ++ "-" ++ stepName ++ "-" ++ timestamp ++ ".png" in
     iframeElement <- await (PageQuery "iframe#iframeFE") (shot_query shot) ;;
     if negb iframeElement then
       consoleLogger Error "iframe#iframeFE not found for screenshot"
     else
       await (ElementScreenshot filename) (shot_capture shot) ;;
       consoleLogger Info ("Screenshot saved: " ++ filename))
    (fun error =>
       consoleLogger Error ("Screenshot failed for " ++ stepName ++ ": " ++ error)).

(** The body shared by [step1] to [step4], which differ in their
    texts, in the XPath of their target and in the length of the pause. *)
Definition step (looking found done failed : string) (targetXpath : string) (ms : Z)
    (s : step_input) : MX trace unit :=
  consoleLogger Info looking ;;
  try_catch
    (getIframeContent s ;;
     await (FrameWaitForSelector ("xpath=" ++ targetXpath) 10000 "visible")
           (target_visible s) ;;
     consoleLogger Info found ;;
     await (FrameClick ("xpath=" ++ targetXpath)) (target_clicked s) ;;
     consoleLogger Info done ;;
     await (PageWaitForTimeout ms) (paused s))
    (fun error =>
       consoleLogger Error (failed ++ error) ;;
       throwX error).

Definition step1 : step_input -> MX trace unit :=
  step "Step 1: Looking for button inside iframe..."
       "Step 1: Button found, clicking..."
       "Step 1: Button clicked successfully"
       "Step 1 failed: "
       ("//*[@id=" ++ dquote ++ "root" ++ dquote
          ++ "]/div/div/div[1]/div[1]/div[1]/div/div[4]/button")
       1000.

Definition step2 : step_input -> MX trace unit :=
  step "Step 2: Looking for button inside iframe..."
       "Step 2: Button found, clicking..."
       "Step 2: Button clicked successfully"
       "Step 2 failed: "
       ("//*[@id=" ++ dquote ++ "root" ++ dquote
          ++ "]/div/div/div[1]/div[1]/div[3]/div/div[2]/div/div/div/div/button")
       2000.

Definition step3 : step_input -> MX trace unit :=
  step "Step 3: Looking for radio input inside iframe..."
       "Step 3: Radio input found, selecting..."
       "Step 3: Radio input selected successfully"
       "Step 3 failed: "
       ("//*[@id=" ++ dquote ++ "input" ++ dquote ++ "]/span/input")
       1000.

Definition step4 : step_input -> MX trace unit :=
  step "Step 4: Looking for add to cart button inside iframe..."
       "Step 4: Add to cart button found, clicking..."
       "Step 4: Add to cart button clicked successfully"
       "Step 4 failed: "
       ("//*[@id=" ++ dquote ++ "addToCartModal" ++ dquote ++ "]/button")
       1000.

(** [execute()]. *)
Definition execute (inp : input) : MX trace unit :=
  consoleLogger Info "Starting scenario execution..." ;;
  try_catch
    (step1 (in_step1 inp) ;;
     takeScreenshot "step1" (in_shot1 inp) ;;
     step2 (in_step2 inp) ;;
     takeScreenshot "step2" (in_shot2 inp) ;;
     step3 (in_step3 inp) ;;
     takeScreenshot "step3" (in_shot3 inp) ;;
     step4 (in_step4 inp) ;;
     takeScreenshot "step4" (in_shot4 inp) ;;
     consoleLogger Info "Scenario execution completed successfully")
    (fun error =>
       consoleLogger Error ("Scenario execution failed: " ++ error) ;;
       throwX error).

End Scenario.

End Scenario.

(* ================================================================= *)
(** ** Vocabulary of the properties *)

(** [stable R m]: running [m] moves the state along the preorder [R].
    With [R s s' := I s -> I s'] this is preservation of the invariant
    [I]; with an order on the fields it is monotonicity. *)
Definition stable {S A} (R : S -> S -> Prop) (m : M S A) : Prop :=
  forall s, R s (exec m s).

(** The same for code that may throw: whatever the outcome. *)
Definition stableX {S A} (R : S -> S -> Prop) (m : MX S A) : Prop :=
  forall s, R s (execX m s).

(** Invariant preservation as a preorder. *)
Definition keeps {S} (I : S -> Prop) (s s' : S) : Prop := I s -> I s'.

(** The order in which a handler's flags and counters can only move. *)
Definition advances (h h' : CustomEventHandler) : Prop :=
  (criticalEndpointFailed h = true -> criticalEndpointFailed h' = true) /\
  (healthCheckPassed h = true -> healthCheckPassed h' = true) /\
  requestCount h <= requestCount h' /\
  errorCount h <= errorCount h' /\
  serverErrorCount h <= serverErrorCount h'.

(** The endpoint state of a handler: what endpoint evaluation reads
    and writes. *)
Definition same_endpoint_state (h h' : CustomEventHandler) : Prop :=
  criticalEndpointResponses h' = criticalEndpointResponses h /\
  healthCheckPassed h' = healthCheckPassed h /\
  criticalEndpointFailed h' = criticalEndpointFailed h /\
  awaiting h' = awaiting h.

(** The observation map has distinct keys, all of them critical
    endpoint names, and so has every suspended check. *)
Definition well_formed (h : CustomEventHandler) : Prop :=
  incl (JsMap.keys (criticalEndpointResponses h)) criticalEndpoints /\
  NoDup (JsMap.keys (criticalEndpointResponses h)) /\
  Forall (fun p => In (pc_endpointName p) criticalEndpoints) (awaiting h).

(** Nothing is stored for [name] and no suspended check will store it. *)
Definition unobserved (name : string) (h : CustomEventHandler) : Prop :=
  JsMap.get name (criticalEndpointResponses h) = None /\
  Forall (fun p => pc_endpointName p <> name) (awaiting h).

(** The first critical endpoint name that ends [url], as
    [checkCriticalEndpoint] resolves it. *)
Definition endpoint_of (url : string) : option string :=
  find (fun e => Js.endsWith url e) criticalEndpoints.

(** What a [/health] response stores when it reaches
    [checkCriticalEndpoint] at time [t]. *)
Definition health_observation (t : string) (response : Response) : observation :=
  if resp_status response =? 200 then
    {| obs_url := resp_url response; obs_timestamp := t;
       obs_status := resp_status response;
       obs_body := Some (Js.JString "OK (200)"); obs_error := None |}
  else
    {| obs_url := resp_url response; obs_timestamp := t;
       obs_status := resp_status response;
       obs_body := None;
       obs_error := Some ("HTTP " ++ Js.show (resp_status response)) |}.

(** What a check resumed at time [t] has stored when it completes. *)
Definition settled_observation {RT : Js.Runtime} (t : string) (p : pending_check)
  : observation :=
  let failure := fun error =>
    {| obs_url := pc_url p; obs_timestamp := t;
       obs_status := resp_status (pc_response p);
       obs_body := None;
       obs_error := Some ("Failed to parse JSON response: " ++ error) |} in
  match resp_json (pc_response p) with
  | Rejected reason => failure reason
  | Parsed Js.JNull => failure Js.null_property_error
  | Parsed body =>
      {| obs_url := pc_url p; obs_timestamp := t;
         obs_status := resp_status (pc_response p);
         obs_body := Some body; obs_error := None |}
  end.

(** Whether a resumed check finds its endpoint failed. *)
Definition check_fails (p : pending_check) : bool :=
  match resp_json (pc_response p) with
  | Rejected _ => true
  | Parsed body =>
      match Js.getProperty body "error" with
      | Js.Throws => true
      | a => Js.strictly_true a
      end
  end.

(** The classification hooks of [handleResponse]. *)
Inductive classification : Type :=
| SuccessHook
| ClientErrorHook
| ServerErrorHook.

(** A handler that only records which classification hook is called. *)
#[export] Instance probe_loggers : Loggers (list classification) := {|
  consoleLogger := fun _ _ => ret tt;
  networkLogger := fun _ _ => ret tt
|}.

#[export] Instance probe_hooks : Hooks (list classification) := {|
  onConsoleError := fun _ => ret tt;
  onConsoleWarning := fun _ => ret tt;
  onConsoleLog := fun _ => ret tt;
  onRequest := fun _ => ret tt;
  onSuccess := fun _ => modify (fun l => (l ++ [SuccessHook])%list);
  onClientError := fun _ => modify (fun l => (l ++ [ClientErrorHook])%list);
  onServerError := fun _ => modify (fun l => (l ++ [ServerErrorHook])%list)
|}.

(** The classification hooks [handleResponse] calls for [response]. *)
Definition hooks_fired (response : Response) : list classification :=
  exec (handleResponse (H := probe_hooks) response) [].

(** A sample engine, used to run the code on concrete inputs. *)
Definition sample_runtime : Js.Runtime := {|
  Js.JSON_stringify := fun _ => "{}";
  Js.null_property_error :=
    "TypeError: null is not an object (evaluating 'responseBody.error')"
|}.

Definition xhr (method url : string) : Request :=
  {| req_method := method; req_url := url; req_resourceType := "xhr" |}.

(** A response to an XHR [GET] of [url]. *)
Definition response_to (url : string) (status : Z) (body : json_outcome) : Response :=
  {| resp_status := status; resp_url := url;
     resp_request := xhr "GET" url; resp_json := body |}.

(** The parsed body [{error: b}]. *)
Definition error_body (b : bool) : Js.json := Js.JObject [("error", Js.JBool b)].

(** The response events of a run, in the order they were handled. *)
Fixpoint responses_in (events : list (string * event)) : list Response :=
  match events with
  | [] => []
  | (_, ResponseEvent response) :: rest => response :: responses_in rest
  | _ :: rest => responses_in rest
  end.

(** The check that [response] suspends for the endpoint [name]. *)
Definition check_of (name : string) (response : Response) : pending_check :=
  {| pc_endpointName := name; pc_url := resp_url response; pc_response := response |}.

(** The synthetic success record stored for [/health]. *)
Definition health_ok_record (url t : string) : observation :=
  {| obs_url := url; obs_timestamp := t; obs_status := 200;
     obs_body := Some (Js.JString "OK (200)"); obs_error := None |}.

(** A stored observation that carries a parsed body. *)
Definition body_record (url t : string) (status : Z) (body : Js.json) : observation :=
  {| obs_url := url; obs_timestamp := t; obs_status := status;
     obs_body := Some body; obs_error := None |}.

(** The runner makes further calls, each satisfying [P], and keeps its
    identity. *)
Definition extends_with (P : call -> Prop) (r r' : Runner) : Prop :=
  url r' = url r /\ id r' = id r /\
  exists made, calls r' = (calls r ++ made)%list /\ Forall P made.

(** The runner keeps the context and the page it holds. *)
Definition same_handles (r r' : Runner) : Prop :=
  context r' = context r /\ page r' = page r.

(** A relation on handlers, read on the handler of a runner. *)
Definition on_handler (R : CustomEventHandler -> CustomEventHandler -> Prop)
    (r r' : Runner) : Prop :=
  R (eventHandler r) (eventHandler r').

(** The console log only gets longer. *)
Definition console_log_grows (h h' : CustomEventHandler) : Prop :=
  exists lines, consoleLog h' = (consoleLog h ++ lines)%list.

(** The runner keeps the context it holds. *)
Definition same_context (r r' : Runner) : Prop := context r' = context r.

(** Calls that release nothing. *)
Definition own_call (c : call) : Prop :=
  c <> ContextClose /\ c <> BrowserClose.

(** Calls made before the critical check. *)
Definition setup_call (c : call) : Prop :=
  own_call c /\ c <> ScenarioExecute.

(** No call at all. *)
Definition no_call (c : call) : Prop := False.

(** Calls that capture nothing. *)
Definition no_capture (c : call) : Prop :=
  forall filename, c <> ElementScreenshot filename.

(** [m] settles without throwing, whatever the state. *)
Definition never_throws {S A} (m : MX S A) : Prop :=
  forall s, exists a, resultX m s = Fulfilled a.

(** The calls one [captureScreenshot(label)] makes for the runner
    [this_id]: the element query and, when the element is there, the
    capture. *)
Definition capture_calls (this_id : Z) (label : option string) (shot : capture)
  : list call :=
  PageQuery "iframe#iframeFE" ::
  match settles (shot_query shot) with
  | Fulfilled true =>
      [ElementScreenshot
         ("runner-" ++ Js.show this_id
            ++ match label with
               | None => ""
               | Some l => if String.eqb l "" then "" else "-" ++ l
               end
            ++ "-" ++ replace_colon_dot (shot_now shot) ++ ".png")]
  | _ => []
  end.

Definition call_eq_dec (a b : call) : {a = b} + {a <> b}.
Proof.
  decide equality; first [apply string_dec | apply Z.eq_dec].
Defined.

(** How often [c] occurs in a list of calls. *)
Definition occurrences (c : call) (l : list call) : nat :=
  count_occ call_eq_dec l c.


(** [run_setup] from the point where the runner holds its context. *)
Definition setup_with_context {RT : Js.Runtime} (env : environment) : MX Runner unit :=
  (await_quiet ContextNewPage (env_newPage env) ;;
   modifyX (with_page (Some Handle)) ;;
   perform (PageOn "console") ;;
   perform (PageOn "request") ;;
   perform (PageOn "response") ;;
   this_url <- getsX url ;;
   Runner_consoleLogger Info ("Opening: " ++ this_url) ;;
   await (PageGoto this_url) (env_goto env) ;;
   Runner_consoleLogger Info ("Loaded: " ++ this_url) ;;
   monitorIframe env ;;
   waitForAppReady env)%mx.

(** [run_setup] from the point where the runner holds its page. *)
Definition setup_with_page {RT : Js.Runtime} (env : environment) : MX Runner unit :=
  (perform (PageOn "console") ;;
   perform (PageOn "request") ;;
   perform (PageOn "response") ;;
   this_url <- getsX url ;;
   Runner_consoleLogger Info ("Opening: " ++ this_url) ;;
   await (PageGoto this_url) (env_goto env) ;;
   Runner_consoleLogger Info ("Loaded: " ++ this_url) ;;
   monitorIframe env ;;
   waitForAppReady env)%mx.

(** The [catch] block of [run()]. *)
Definition run_catch {RT : Js.Runtime} (error : string) : MX Runner unit :=
  Runner_consoleLogger Error ("Error: " ++ error).

(** The [try ... catch] of [run()], without its [finally]. *)
Definition run_body {RT : Js.Runtime} (env : environment) : MX Runner unit :=
  try_catch (run_setup env ;; run_gated env)%mx run_catch.

(** Whether the session came to own a browsing context. *)
Definition owns_context (env : environment) : bool :=
  match env_newContext env with
  | Fulfilled _ => true
  | Thrown _ => false
  end.

(** Whether the session of [input] came to own a browsing context: it
    got a URL and [browser.newContext()] was fulfilled. *)
Definition session_owns_context (URLS : list string) (input : session_input) : bool :=
  match nth_error URLS (pick input) with
  | Some randomUrl => negb (String.eqb randomUrl "") && owns_context (env input)
  | None => false
  end.

(** The calls of session [i], marked as its own. *)
Definition tagged (i : nat) (made : list call) : list (actor * call) :=
  map (fun c => (Session i, c)) made.

(** The merge in which the sessions run one after the other. *)
Fixpoint sequential_from (i : nat) (promises : list (outcome unit * list call))
  : list (actor * call) :=
  match promises with
  | [] => []
  | p :: rest => (tagged i (snd p) ++ sequential_from (S i) rest)%list
  end.

(** The state of Scenario A after [n] of its four responses, whose
    URLs are [u_store], [u_token], [u_health] and [u_order]: the checks
    still suspended are among the scenario's three; from the third
    response on, the health record is stored; after the fourth, the
    check of [/getOrderTypeData] is suspended or has stored its body
    and raised the failure flag. *)
Definition scenario_A_progress (u_store u_token u_health u_order : string)
    (n : nat) (h : CustomEventHandler) : Prop :=
  Forall (fun p =>
            p = check_of "/getStore"
                  (response_to u_store 200 (Parsed (error_body false))) \/
            p = check_of "/getToken"
                  (response_to u_token 200 (Parsed (error_body false))) \/
            p = check_of "/getOrderTypeData"
                  (response_to u_order 200 (Parsed (error_body true))))
         (awaiting h) /\
  ((3 <= n)%nat ->
   exists t, JsMap.get "/health" (criticalEndpointResponses h)
             = Some (health_ok_record u_health t)) /\
  (n = 4%nat ->
   In (check_of "/getOrderTypeData"
         (response_to u_order 200 (Parsed (error_body true))))
      (awaiting h) \/
   (criticalEndpointFailed h = true /\
    exists t, JsMap.get "/getOrderTypeData" (criticalEndpointResponses h)
              = Some (body_record u_order t 200 (error_body true)))).

(* ----------------------------------------------------------------- *)
(** *** Sample inputs *)

(** A page load in which [/getStore] answers [{error: flag}] and
    [/health] answers 200. *)
Definition sample_load (flag : bool) : list (string * event) :=
  [("2025-01-01T00:00:01.000Z",
    ResponseEvent (response_to "https://app.example/getStore" 200
                     (Parsed (error_body flag))));
   ("2025-01-01T00:00:02.000Z", JsonSettled 0);
   ("2025-01-01T00:00:03.000Z",
    ResponseEvent (response_to "https://app.example/health" 200
                     (Rejected "SyntaxError: Unexpected token")))].

(** Events that raise no flag. *)
Definition healthy_events : list (string * event) :=
  [("2025-01-01T00:00:04.000Z",
    ResponseEvent (response_to "https://app.example/getStore" 200
                     (Parsed (error_body false))));
   ("2025-01-01T00:00:05.000Z", JsonSettled 0);
   ("2025-01-01T00:00:06.000Z",
    ConsoleEvent {| msg_type := "error"; msg_text := "boom" |});
   ("2025-01-01T00:00:07.000Z",
    RequestEvent (xhr "GET" "https://app.example/api/items"))].

(** Scenario A, with the bodies settling out of order. *)
Definition scenario_A_events : list (string * event) :=
  [("2025-01-01T00:00:01.000Z",
    ResponseEvent (response_to "https://app.example/getStore" 200
                     (Parsed (error_body false))));
   ("2025-01-01T00:00:02.000Z",
    ResponseEvent (response_to "https://app.example/getToken" 200
                     (Parsed (error_body false))));
   ("2025-01-01T00:00:03.000Z", JsonSettled 1);
   ("2025-01-01T00:00:04.000Z",
    ResponseEvent (response_to "https://app.example/health" 200
                     (Rejected "SyntaxError: Unexpected token")));
   ("2025-01-01T00:00:05.000Z",
    ResponseEvent (response_to "https://app.example/getOrderTypeData" 200
                     (Parsed (error_body true))));
   ("2025-01-01T00:00:06.000Z", JsonSettled 1);
   ("2025-01-01T00:00:07.000Z", JsonSettled 0)].

(** A handler that has seen [/getStore] answer [{error: true}] and
    [/health] answer 200. *)
Definition failed_handler : CustomEventHandler :=
  exec (deliver_all (RT := sample_runtime) (sample_load true))
       (new_CustomEventHandler "2025-01-01T00:00:00.000Z").

(** An awaited call during which nothing happens and that is fulfilled. *)
Definition uneventful {A} (a : A) : awaited A :=
  {| during := []; settles := Fulfilled a |}.

Definition sample_capture (t : string) : capture :=
  {| shot_now := t; shot_query := uneventful true; shot_capture := uneventful tt |}.

(** A browser in which every call succeeds; the page loads with the
    events [loading] and the scenario settles as [scenario]. *)
Definition sample_environment (loading : list (string * event))
    (scenario : outcome unit) : environment :=
  {| env_newContext := Fulfilled tt;
     env_newPage := Fulfilled tt;
     env_goto := {| during := loading; settles := Fulfilled tt |};
     env_frame_waitForSelector := uneventful tt;
     env_frame_query := uneventful true;
     env_frame_contentFrame := uneventful (Some "https://app.example/frame");
     env_frame_waitForLoadState := uneventful tt;
     env_waitForResponse := uneventful tt;
     env_settle_delay := [];
     env_shot_failure := sample_capture "2025-01-01T00:00:10.000Z";
     env_shot_before := sample_capture "2025-01-01T00:00:11.000Z";
     env_shot_after := sample_capture "2025-01-01T00:00:12.000Z";
     env_scenario := {| scenario_during := []; scenario_lines := [];
                        scenario_settles := scenario |};
     env_close := uneventful tt |}.

(** Scenario C: three sessions, the scenario of the second one throws. *)
Definition scenario_C_input (i : nat) : session_input :=
  {| pick := 0;
     created := "2025-01-01T00:00:00.000Z";
     env := sample_environment (sample_load false)
              (if Nat.eqb i 1 then Thrown "Error: step 1 failed" else Fulfilled tt) |}.


(* ================================================================= *)
(** ** Further vocabulary: events, logs and records *)

Definition is_console (e : event) : bool :=
  match e with
  | ConsoleEvent _ => true
  | _ => false
  end.

(** A console message of type [error]. *)
Definition is_console_error (e : event) : bool :=
  match e with
  | ConsoleEvent msg => String.eqb (msg_type msg) "error"
  | _ => false
  end.

Definition is_request (e : event) : bool :=
  match e with
  | RequestEvent _ => true
  | _ => false
  end.

(** A response with a status of 500 or more. *)
Definition is_server_error (e : event) : bool :=
  match e with
  | ResponseEvent response => resp_status response >=? 500
  | _ => false
  end.

(** A response with status 200 whose URL ends with [/health]. *)
Definition is_health_200 (e : event) : bool :=
  match e with
  | ResponseEvent response =>
      (resp_status response =? 200) && Js.endsWith (resp_url response) "/health"
  | _ => false
  end.

(** How many of the events satisfy [p]. *)
Definition count_events (p : event -> bool) (events : list (string * event)) : Z :=
  Z.of_nat (List.length (filter (fun te => p (snd te)) events)).

(** The console events of a run, and all its other events. *)
Definition console_events (events : list (string * event)) : list (string * event) :=
  filter (fun te => is_console (snd te)) events.

Definition network_events (events : list (string * event)) : list (string * event) :=
  filter (fun te => negb (is_console (snd te))) events.

(** What console events read and write, and what the other events do. *)
Definition console_view (h h' : CustomEventHandler) : Prop :=
  consoleLog h' = consoleLog h /\ errorCount h' = errorCount h.

Definition network_view (h h' : CustomEventHandler) : Prop :=
  networkLog h' = networkLog h /\
  requestCount h' = requestCount h /\
  serverErrorCount h' = serverErrorCount h /\
  criticalEndpointFailed h' = criticalEndpointFailed h /\
  criticalEndpointResponses h' = criticalEndpointResponses h /\
  healthCheckPassed h' = healthCheckPassed h /\
  awaiting h' = awaiting h.

(** The lines of a log whose text starts with [marker]. *)
Definition lines_starting (marker : string) (l : log) : Z :=
  Z.of_nat (List.length (filter (fun line => String.prefix marker (snd line)) l)).

(** How the two alerts of the handler start. *)
Definition console_alert : string := "âš ï¸ High console error count: ".

Definition server_alert : string := "âš ï¸ High server error count: ".

(** One alert per error past the threshold. *)
Definition alerts_match (h : CustomEventHandler) : Prop :=
  lines_starting console_alert (consoleLog h) = Z.max 0 (errorCount h - 10) /\
  lines_starting server_alert (networkLog h) = Z.max 0 (serverErrorCount h - 5).

(** The last line of a log. *)
Definition last_line (l : log) : option (level * string) :=
  match rev l with
  | [] => None
  | line :: _ => Some line
  end.

(** The two forms of a stored [/health] record and the two forms of a
    stored record of another endpoint. *)
Definition record_shape (name : string) (o : observation) : Prop :=
  (name = "/health" /\ obs_status o = 200 /\
   obs_body o = Some (Js.JString "OK (200)") /\ obs_error o = None) \/
  (name = "/health" /\ obs_status o <> 200 /\
   obs_body o = None /\ obs_error o = Some ("HTTP " ++ Js.show (obs_status o))) \/
  (name <> "/health" /\ obs_body o <> None /\ obs_error o = None) \/
  (name <> "/health" /\ obs_body o = None /\
   exists error, obs_error o = Some ("Failed to parse JSON response: " ++ error)).

(** A stored record is filed under a critical endpoint that ends its
    URL, and comes from a response with a status in [200, 300). *)
Definition record_ok (name : string) (o : observation) : Prop :=
  In name criticalEndpoints /\
  Js.endsWith (obs_url o) name = true /\
  200 <= obs_status o < 300 /\
  record_shape name o.

(** A suspended check belongs to a response with a status in [200, 300)
    for a critical endpoint other than [/health]. *)
Definition pending_ok (p : pending_check) : Prop :=
  endpoint_of (resp_url (pc_response p)) = Some (pc_endpointName p) /\
  pc_endpointName p <> "/health" /\
  pc_url p = resp_url (pc_response p) /\
  200 <= resp_status (pc_response p) < 300.

(** Records, flags and suspended checks agree with each other. *)
Definition consistent (h : CustomEventHandler) : Prop :=
  (forall name o,
      JsMap.get name (criticalEndpointResponses h) = Some o ->
      record_ok name o /\
      (obs_error o <> None -> criticalEndpointFailed h = true) /\
      (name = "/health" -> obs_status o = 200 -> healthCheckPassed h = true)) /\
  (healthCheckPassed h = true ->
   JsMap.get "/health" (criticalEndpointResponses h) <> None) /\
  Forall pending_ok (awaiting h).

(** Whether a settled [response.json()] makes its endpoint fail: the
    promise rejected, the body is [null], or the body is an object whose
    [error] property is the boolean [true]. *)
Definition body_fails (o : json_outcome) : bool :=
  match o with
  | Rejected _ => true
  | Parsed Js.JNull => true
  | Parsed (Js.JObject fields) =>
      match Js.assoc "error" fields with
      | Some (Js.JBool true) => true
      | _ => false
      end
  | Parsed _ => false
  end.

(** Whether a response makes its endpoint fail once it is evaluated: it
    has a status in [200, 300) and is for [/health] with a status other
    than 200, or for another critical endpoint with a failing body. *)
Definition response_fails (response : Response) : bool :=
  (200 <=? resp_status response) && (resp_status response <? 300) &&
  match endpoint_of (resp_url response) with
  | Some name =>
      if String.eqb name "/health" then negb (resp_status response =? 200)
      else body_fails (resp_json response)
  | None => false
  end.

(** Some suspended check will fail when it is resumed. *)
Definition failure_pending (h : CustomEventHandler) : bool :=
  existsb (fun p => body_fails (resp_json (pc_response p))) (awaiting h).

(** A property of handlers that does not read the console log. *)
Definition ignores_console_log (I : CustomEventHandler -> Prop) : Prop :=
  forall f h, I h -> I (with_consoleLog f h).

(* ----------------------------------------------------------------- *)
(** *** The runner *)

(** Any call at all. *)
Definition any_call (c : call) : Prop := True.

(** The calls one [monitorIframe()] makes: each step is made when the
    one before it succeeded. *)
Definition monitor_calls (env : environment) : list call :=
  PageWaitForSelector "iframe#iframeFE" 10000 ::
  match settles (env_frame_waitForSelector env) with
  | Thrown _ => []
  | Fulfilled _ =>
      PageQuery "iframe#iframeFE" ::
      match settles (env_frame_query env) with
      | Fulfilled true =>
          ElementContentFrame ::
          match settles (env_frame_contentFrame env) with
          | Fulfilled (Some _) => [FrameWaitForLoadState "networkidle"]
          | _ => []
          end
      | _ => []
      end
  end.

(** The line of the summary for one tracked endpoint. *)
Definition summary_line (entry : string * observation) : level * string :=
  (Info,
   fst entry ++ ": "
     ++ match obs_error (snd entry) with
        | Some _ => "FAILED"
        | None => "SUCCESS"
        end).

(* ----------------------------------------------------------------- *)
(** *** Texts *)

(** Whether the character [c] occurs in [s]. *)
Fixpoint has_char (c : ascii) (s : string) : bool :=
  match s with
  | EmptyString => false
  | String d s' => Ascii.eqb c d || has_char c s'
  end.

Fixpoint all_chars (p : ascii -> bool) (s : string) : bool :=
  match s with
  | EmptyString => true
  | String c s' => p c && all_chars p s'
  end.

Definition is_digit_or_minus (c : ascii) : bool :=
  let n := nat_of_ascii c in
  ((48 <=? n) && (n <=? 57))%nat || Ascii.eqb c "-".

(** A text without colon and without dot. *)
Definition plain (s : string) : bool :=
  negb (has_char ":" s) && negb (has_char "." s).

(** A logged line as [logFormat] renders it. *)
Definition render (runnerId : Z) (timestamp : string) (line : level * string) : string :=
  logFormat runnerId timestamp (level_name (fst line)) (snd line).

(* ----------------------------------------------------------------- *)
(** *** The scenario *)

(** The calls of a trace, in order. *)
Definition scenario_calls (tr : Scenario.trace) : list Scenario.call :=
  flat_map (fun a => match a with Scenario.Called c => [c] | _ => [] end) tr.

(** The lines a trace writes to the console logger, in order. *)
Definition scenario_log (tr : Scenario.trace) : log :=
  flat_map (fun a => match a with Scenario.Logged lvl m => [(lvl, m)] | _ => [] end) tr.

(** The events delivered during a trace, in order. *)
Definition scenario_events (tr : Scenario.trace) : list (string * event) :=
  flat_map (fun a => match a with Scenario.Delivered te => [te] | _ => [] end) tr.

(** The last action of a trace. *)
Definition last_action (tr : Scenario.trace) : option Scenario.action :=
  match rev tr with
  | [] => None
  | a :: _ => Some a
  end.

(** How a step settles: the first of its five calls that fails decides. *)
Definition step_result (s : Scenario.step_input) : outcome unit :=
  match settles (Scenario.frame_query s) with
  | Thrown error => Thrown error
  | Fulfilled false => Thrown "Error: iframe#iframeFE not found"
  | Fulfilled true =>
      match settles (Scenario.frame_content s) with
      | Thrown error => Thrown error
      | Fulfilled false => Thrown "Error: Could not access iframe#iframeFE content"
      | Fulfilled true =>
          match settles (Scenario.target_visible s) with
          | Thrown error => Thrown error
          | Fulfilled _ =>
              match settles (Scenario.target_clicked s) with
              | Thrown error => Thrown error
              | Fulfilled _ => settles (Scenario.paused s)
              end
          end
      end
  end.

(** The first rejection of a sequence of results, if any. *)
Fixpoint first_failure (results : list (outcome unit)) : outcome unit :=
  match results with
  | [] => Fulfilled tt
  | Fulfilled _ :: rest => first_failure rest
  | Thrown error :: _ => Thrown error
  end.

(** The number of the first step that rejects, the steps being numbered
    from [n]. *)
Fixpoint failing_step (n : nat) (results : list (outcome unit)) : option nat :=
  match results with
  | [] => None
  | Fulfilled _ :: rest => failing_step (S n) rest
  | Thrown _ :: _ => Some n
  end.

(** The line a step writes when it fails. *)
Definition step_failed_line (n : nat) (error : string) : Scenario.action :=
  Scenario.Logged Error (("Step " ++ Js.show (Z.of_nat n) ++ " failed: ") ++ error).

(** Running [m] appends to the trace, and what it appends and how it
    settles do not depend on the trace so far. *)
Definition appends {A} (m : MX Scenario.trace A) : Prop :=
  forall tr, m tr = (fst (m []), (tr ++ snd (m []))%list).

(** The selectors clicked, in order. *)
Definition clicks (l : list Scenario.call) : list string :=
  flat_map (fun c => match c with Scenario.FrameClick sel => [sel] | _ => [] end) l.

(** Every click comes directly after the wait for the element it
    clicks to be visible; [prev] is the call made before [l]. *)
Fixpoint clicks_guarded (prev : option Scenario.call) (l : list Scenario.call) : bool :=
  match l with
  | [] => true
  | c :: rest =>
      match c with
      | Scenario.FrameClick sel =>
          match prev with
          | Some (Scenario.FrameWaitForSelector sel' timeout state) =>
              String.eqb sel sel' && (timeout =? 10000) && String.eqb state "visible"
          | _ => false
          end
      | _ => true
      end && clicks_guarded (Some c) rest
  end.

(** The four elements the scenario clicks, in order. *)
Definition targets : list string :=
  ["xpath=//*[@id=" ++ Scenario.dquote ++ "root" ++ Scenario.dquote
     ++ "]/div/div/div[1]/div[1]/div[1]/div/div[4]/button";
   "xpath=//*[@id=" ++ Scenario.dquote ++ "root" ++ Scenario.dquote
     ++ "]/div/div/div[1]/div[1]/div[3]/div/div[2]/div/div/div/div/button";
   "xpath=//*[@id=" ++ Scenario.dquote ++ "input" ++ Scenario.dquote ++ "]/span/input";
   "xpath=//*[@id=" ++ Scenario.dquote ++ "addToCartModal" ++ Scenario.dquote
     ++ "]/button"].

(** The state of the scenario between two steps: [k] targets clicked,
    every click guarded. *)
Definition progress (k : nat) (tr : Scenario.trace) : Prop :=
  clicks (scenario_calls tr) = firstn k targets /\
  clicks_guarded None (scenario_calls tr) = true.

(** What holds of the rest of [execute()] from a point where [k]
    targets have been clicked: it settles as the first failing step
    among the remaining ones does, clicks further targets in order, all
    four if it is fulfilled, and ends with the line of the failing step,
    the next step being step [k + 1]. *)
Definition chain_ok (k : nat) (results : list (outcome unit))
    (m : MX Scenario.trace unit) : Prop :=
  forall tr,
    progress k tr ->
    exists final k',
      m tr = (first_failure results, final) /\
      progress k' final /\
      (first_failure results = Fulfilled tt ->
       k' = 4%nat /\
       last_action final
       = Some (Scenario.Logged Info "Scenario execution completed successfully")) /\
      (forall e, first_failure results = Thrown e ->
                 exists n, failing_step (S k) results = Some n /\
                           last_action final = Some (step_failed_line n e)).

(** [new Scenario(page, consoleLogger, networkLogger, runnerId).execute()]
    as the runner that starts it sees it. *)
Definition Scenario_as_collaborator (runnerId : Z) (inp : Scenario.input)
  : scenario_run :=
  {| scenario_during := scenario_events (execX (Scenario.execute runnerId inp) []);
     scenario_lines := scenario_log (execX (Scenario.execute runnerId inp) []);
     scenario_settles := resultX (Scenario.execute runnerId inp) [] |}.

(* ----------------------------------------------------------------- *)
(** *** The launcher *)

(** The session of [input] gets no URL to open: the list has no entry
    at the index drawn, or the entry is the empty string. *)
Definition no_url (URLS : list string) (input : session_input) : Prop :=
  match nth_error URLS (pick input) with
  | Some randomUrl => randomUrl = ""
  | None => True
  end.


(* ----------------------------------------------------------------- *)
(** *** More sample inputs *)

(** A session that has been set up in a browser in which every call
    succeeds. *)
Definition sample_session : Runner :=
  execX (run_setup (RT := sample_runtime)
           (sample_environment (sample_load false) (Fulfilled tt)))
        (new_Runner "2025-01-01T00:00:00.000Z" "https://app.example/" 0).

(** The lines the runner has written when [sample_session] is set up;
    its page load has no console event. *)
Definition sample_session_lines (l : log) : log :=
  ((Info, "Opening: https://app.example/") :: l
     ++ [(Info, "Loaded: https://app.example/");
         (Info, "Waiting for iframe#iframeFE...");
         (Info, "iframe#iframeFE found");
         (Info, "iframe#iframeFE URL: https://app.example/frame");
         (Info, "iframe#iframeFE loaded and monitored");
         (Info, "Waiting for /health endpoint...");
         (Info, "App is ready: Health check passed")])%list.

(** A step in which every call succeeds. *)
Definition step_done : Scenario.step_input :=
  {| Scenario.frame_query := uneventful true;
     Scenario.frame_content := uneventful true;
     Scenario.target_visible := uneventful tt;
     Scenario.target_clicked := uneventful tt;
     Scenario.paused := uneventful tt |}.

(** A step whose target never becomes visible. *)
Definition step_timing_out : Scenario.step_input :=
  {| Scenario.frame_query := uneventful true;
     Scenario.frame_content := uneventful true;
     Scenario.target_visible :=
       {| during := []; settles := Thrown "TimeoutError: Timeout 10000ms exceeded." |};
     Scenario.target_clicked := uneventful tt;
     Scenario.paused := uneventful tt |}.

(** A scenario whose second step times out. *)
Definition sample_scenario : Scenario.input :=
  {| Scenario.in_step1 := step_done;
     Scenario.in_shot1 := sample_capture "2025-01-01T00:00:21.000Z";
     Scenario.in_step2 := step_timing_out;
     Scenario.in_shot2 := sample_capture "2025-01-01T00:00:22.000Z";
     Scenario.in_step3 := step_done;
     Scenario.in_shot3 := sample_capture "2025-01-01T00:00:23.000Z";
     Scenario.in_step4 := step_done;
     Scenario.in_shot4 := sample_capture "2025-01-01T00:00:24.000Z" |}.

(** The browser of [sample_environment], its scenario being the
    [Scenario] class run on [inp] by runner [runnerId]. *)
Definition scenario_environment (loading : list (string * event))
    (runnerId : Z) (inp : Scenario.input) : environment :=
  {| env_newContext := Fulfilled tt;
     env_newPage := Fulfilled tt;
     env_goto := {| during := loading; settles := Fulfilled tt |};
     env_frame_waitForSelector := uneventful tt;
     env_frame_query := uneventful true;
     env_frame_contentFrame := uneventful (Some "https://app.example/frame");
     env_frame_waitForLoadState := uneventful tt;
     env_waitForResponse := uneventful tt;
     env_settle_delay := [];
     env_shot_failure := sample_capture "2025-01-01T00:00:10.000Z";
     env_shot_before := sample_capture "2025-01-01T00:00:11.000Z";
     env_shot_after := sample_capture "2025-01-01T00:00:12.000Z";
     env_scenario := Scenario_as_collaborator runnerId inp;
     env_close := uneventful tt |}.

(** A browser in which the calls of the setup and the release of the
    context settle as given. *)
Definition broken_environment (newContext newPage goto close : outcome unit)
  : environment :=
  {| env_newContext := newContext;
     env_newPage := newPage;
     env_goto := {| during := []; settles := goto |};
     env_frame_waitForSelector := uneventful tt;
     env_frame_query := uneventful true;
     env_frame_contentFrame := uneventful (Some "https://app.example/frame");
     env_frame_waitForLoadState := uneventful tt;
     env_waitForResponse := uneventful tt;
     env_settle_delay := [];
     env_shot_failure := sample_capture "2025-01-01T00:00:10.000Z";
     env_shot_before := sample_capture "2025-01-01T00:00:11.000Z";
     env_shot_after := sample_capture "2025-01-01T00:00:12.000Z";
     env_scenario := {| scenario_during := []; scenario_lines := [];
                        scenario_settles := Fulfilled tt |};
     env_close := {| during := []; settles := close |} |}.

(** A capture at time [t] that finds no iframe element. *)
Definition capture_without_iframe (t : string) : capture :=
  {| shot_now := t; shot_query := uneventful false; shot_capture := uneventful tt |}.

(** A browser whose page never shows the iframe: waiting for it times
    out and querying it finds nothing. The page loads with the events
    [loading]. *)
Definition environment_without_iframe (loading : list (string * event)) : environment :=
  {| env_newContext := Fulfilled tt;
     env_newPage := Fulfilled tt;
     env_goto := {| during := loading; settles := Fulfilled tt |};
     env_frame_waitForSelector :=
       {| during := []; settles := Thrown "TimeoutError: Timeout 10000ms exceeded." |};
     env_frame_query := uneventful false;
     env_frame_contentFrame := uneventful None;
     env_frame_waitForLoadState := uneventful tt;
     env_waitForResponse := uneventful tt;
     env_settle_delay := [];
     env_shot_failure := capture_without_iframe "2025-01-01T00:00:10.000Z";
     env_shot_before := capture_without_iframe "2025-01-01T00:00:11.000Z";
     env_shot_after := capture_without_iframe "2025-01-01T00:00:12.000Z";
     env_scenario := {| scenario_during := []; scenario_lines := [];
                        scenario_settles := Fulfilled tt |};
     env_close := uneventful tt |}.



(** One session, drawing the first URL. *)
Definition single_input (i : nat) : session_input :=
  {| pick := 0;
     created := "2025-01-01T00:00:00.000Z";
     env := sample_environment (sample_load false) (Fulfilled tt) |}.

(* ================================================================= *)
(** ** Reasoning about monadic code *)

Section Stable.

Context {S : Type} (R : S -> S -> Prop) {PO : PreOrder R}.

Lemma stable_ret {A} (a : A) : stable R (ret a).
Proof. intros s. unfold exec, ret. simpl. reflexivity. Qed.

Lemma stable_gets {A} (f : S -> A) : stable R (gets f).
Proof. intros s. unfold exec, gets. simpl. reflexivity. Qed.

Lemma stable_modify (f : S -> S) : (forall s, R s (f s)) -> stable R (modify f).
Proof. intros Hf s. unfold exec, modify. simpl. apply Hf. Qed.

Lemma stable_bind {A B} (m : M S A) (k : A -> M S B) :
  stable R m -> (forall a, stable R (k a)) -> stable R (bind m k).
Proof.
  intros Hm Hk s. unfold exec, bind.
  specialize (Hm s). unfold exec in Hm.
  destruct (m s) as [a s'] eqn:E. simpl in Hm.
  specialize (Hk a s'). unfold exec in Hk.
  etransitivity; eassumption.
Qed.

Lemma stable_when (c : bool) (m : M S unit) : stable R m -> stable R (when c m).
Proof. intros Hm. destruct c; simpl; [assumption | apply stable_ret]. Qed.

End Stable.

#[export] Instance keeps_PreOrder {S} (I : S -> Prop) : PreOrder (keeps I).
Proof. split; unfold keeps; [intros s; auto | intros a b c; auto]. Qed.

Lemma exec_bind {S A B} (m : M S A) (k : A -> M S B) (s : S) :
  exec (bind m k) s = exec (k (eval m s)) (exec m s).
Proof. unfold exec, eval, bind. destruct (m s); reflexivity. Qed.

Lemma exec_modify {S} (f : S -> S) (s : S) : exec (modify f) s = f s.
Proof. reflexivity. Qed.

(** Breaks a [stable] goal down along the structure of the code, leaving
    one goal per state update. *)
Ltac stable_step :=
  lazymatch goal with
  | |- stable _ (bind _ _) => apply stable_bind; [ exact _ | | intros ]
  | |- stable _ (ret _) => apply stable_ret; exact _
  | |- stable _ (gets _) => apply stable_gets; exact _
  | |- stable _ (when _ _) => apply stable_when; [ exact _ | ]
  | |- stable _ (modify _) => apply stable_modify; intros
  | |- stable _ (if ?c then _ else _) => destruct c eqn:?
  | |- stable _ (match ?x with _ => _ end) => destruct x eqn:?
  end.

Ltac stable_steps := cbv zeta; repeat (stable_step; cbv zeta).

(** Unfolds the entry points of the handler down to its state updates. *)
Ltac hooks_unfold :=
  unfold deliver, dispatch, handleConsole, handleRequest, handleResponse;
  cbn [onConsoleError onConsoleWarning onConsoleLog onRequest onSuccess
       onClientError onServerError CustomEventHandler_hooks EventHandler_hooks
       consoleLogger networkLogger CustomEventHandler_loggers];
  unfold Custom_onConsoleError, Custom_onRequest, Custom_onServerError,
    Custom_onClientError, Custom_onSuccess, checkCriticalEndpoint,
    checkCriticalEndpoint_resume, checkCriticalEndpoint_catch,
    responses_set, toISOString_now;
  cbn [consoleLogger networkLogger CustomEventHandler_loggers].

(** Reduces field reads of updated handlers. *)
Ltac fields :=
  cbn [fst snd
       consoleLog networkLog errorCount requestCount serverErrorCount
       criticalEndpointFailed criticalEndpointResponses healthCheckPassed
       clock awaiting
       with_consoleLog with_networkLog with_errorCount with_requestCount
       with_serverErrorCount with_criticalEndpointFailed
       with_criticalEndpointResponses with_healthCheckPassed with_clock
       with_awaiting] in *.

(** Runs straight-line monadic code. *)
Ltac run_monad :=
  unfold exec, eval, bind, modify, gets, when, ret; fields; cbn [fst snd].

(** Case analysis on every test the code under evaluation makes. *)
Ltac split_tests :=
  repeat match goal with
         | |- context [if ?c then _ else _] => destruct c eqn:?
         | |- context [match ?x with _ => _ end] => destruct x eqn:?
         end.

(* ================================================================= *)
(** ** Facts about JavaScript maps and lists *)

Lemma get_set_same {V} (k : string) (v : V) (m : JsMap.t V) :
  JsMap.get k (JsMap.set k v m) = Some v.
Proof.
  induction m as [| [k' v'] m IH]; simpl.
  - rewrite String.eqb_refl. reflexivity.
  - destruct (String.eqb k' k) eqn:E; simpl; rewrite E; [reflexivity | exact IH].
Qed.

Lemma get_set_other {V} (k k0 : string) (v : V) (m : JsMap.t V) :
  k0 <> k -> JsMap.get k (JsMap.set k0 v m) = JsMap.get k m.
Proof.
  intros Hne. induction m as [| [k' v'] m IH]; simpl.
  - destruct (String.eqb_spec k0 k); [contradiction | reflexivity].
  - destruct (String.eqb_spec k' k0) as [-> | Hk]; simpl.
    + destruct (String.eqb_spec k0 k); [contradiction | reflexivity].
    + destruct (String.eqb k' k); [reflexivity | exact IH].
Qed.

Lemma keys_set_incl {V} (k : string) (v : V) (m : JsMap.t V) (allowed : list string) :
  In k allowed -> incl (JsMap.keys m) allowed ->
  incl (JsMap.keys (JsMap.set k v m)) allowed.
Proof.
  intros Hk. induction m as [| [k' v'] m IH]; simpl; intros Hm.
  - intros x [<- | []]. exact Hk.
  - destruct (String.eqb k' k); simpl.
    + exact Hm.
    + intros x [<- | Hx].
      * apply Hm. left. reflexivity.
      * apply IH; [ | exact Hx ]. intros y Hy. apply Hm. right. exact Hy.
Qed.

Lemma keys_set_In {V} (k x : string) (v : V) (m : JsMap.t V) :
  In x (JsMap.keys (JsMap.set k v m)) -> x = k \/ In x (JsMap.keys m).
Proof.
  induction m as [| [k' v'] m IH]; simpl.
  - intros [<- | []]. left. reflexivity.
  - destruct (String.eqb k' k); simpl.
    + intros [<- | Hx]; right; [left; reflexivity | right; exact Hx].
    + intros [<- | Hx].
      * right. left. reflexivity.
      * destruct (IH Hx) as [-> | Hin]; [left; reflexivity | right; right; exact Hin].
Qed.

Lemma keys_set_NoDup {V} (k : string) (v : V) (m : JsMap.t V) :
  NoDup (JsMap.keys m) -> NoDup (JsMap.keys (JsMap.set k v m)).
Proof.
  induction m as [| [k' v'] m IH]; simpl; intros Hnd.
  - constructor; [intros [] | constructor].
  - destruct (String.eqb_spec k' k) as [-> | Hne]; simpl.
    + exact Hnd.
    + inversion Hnd as [| ? ? Hnotin Hnd']; subst.
      constructor; [ | apply IH; exact Hnd' ].
      intros Hin. destruct (@keys_set_In _ _ _ _ _ Hin) as [-> | Hin'];
        [apply Hne; reflexivity | apply Hnotin; exact Hin'].
Qed.

Lemma get_None_not_key {V} (k : string) (m : JsMap.t V) :
  JsMap.get k m = None <-> ~ In k (JsMap.keys m).
Proof.
  induction m as [| [k' v'] m IH]; simpl.
  - split; [intros _ [] | reflexivity].
  - destruct (String.eqb_spec k' k) as [-> | Hne].
    + split; [discriminate | intros Hc; exfalso; apply Hc; left; reflexivity].
    + rewrite IH. split.
      * intros Hn [Hc | Hc]; [apply Hne; exact Hc | apply Hn; exact Hc].
      * intros Hn Hc. apply Hn. right. exact Hc.
Qed.

(** Copying a map into an object entry by entry introduces no key. *)
Lemma forEach_set_keys {V} (m acc : JsMap.t V) (x : string) :
  In x (JsMap.keys
          (JsMap.forEach (fun value key obj => JsMap.set key value obj) m acc)) ->
  In x (JsMap.keys acc) \/ In x (JsMap.keys m).
Proof.
  revert acc. induction m as [| [k v] m IH]; intros acc; simpl.
  - intros Hx. left. exact Hx.
  - unfold JsMap.forEach in *. simpl. intros Hx.
    destruct (IH _ Hx) as [Hacc | Hm].
    + destruct (@keys_set_In _ _ _ _ _ Hacc) as [-> | Hin].
      * right. left. reflexivity.
      * left. exact Hin.
    + right. right. exact Hm.
Qed.

Lemma remove_nth_Forall {A} (P : A -> Prop) (k : nat) (l : list A) :
  Forall P l -> Forall P (remove_nth k l).
Proof.
  intros H. revert k. induction H as [| x l Hx Hl IH]; intros k.
  - destruct k; constructor.
  - destruct k; simpl; [exact Hl | constructor; [exact Hx | apply IH]].
Qed.

(** The first critical endpoint that ends [url], when there is one, is
    one of the five names and does end [url]. *)
Lemma endpoint_of_In (url name : string) :
  endpoint_of url = Some name ->
  In name criticalEndpoints /\ Js.endsWith url name = true.
Proof. intros Hf. apply find_some in Hf. exact Hf. Qed.

Lemma endpoint_of_some (url name : string) :
  endpoint_of url = Some name ->
  Js.some (fun e => Js.endsWith url e) criticalEndpoints = true.
Proof.
  intros Hf. apply find_some in Hf. unfold Js.some. apply existsb_exists.
  exists name. exact Hf.
Qed.

Lemma endpoint_of_none (url : string) :
  endpoint_of url = None ->
  Js.some (fun e => Js.endsWith url e) criticalEndpoints = false.
Proof.
  intros Hf. unfold Js.some.
  destruct (existsb (fun e => Js.endsWith url e) criticalEndpoints) eqn:E;
    [ | reflexivity ].
  apply existsb_exists in E. destruct E as (x & Hx & Hend).
  pose proof (find_none _ _ Hf x Hx) as Hn. cbv beta in Hn. congruence.
Qed.

(* ================================================================= *)
(** ** Properties of CustomEventHandler *)

#[export] Instance advances_PreOrder : PreOrder advances.
Proof.
  split.
  - intros h. unfold advances. repeat split; auto; lia.
  - intros a b c (A1 & A2 & A3 & A4 & A5) (B1 & B2 & B3 & B4 & B5).
    unfold advances. repeat split; auto; lia.
Qed.

#[export] Instance same_endpoint_state_PreOrder : PreOrder same_endpoint_state.
Proof.
  split.
  - intros h. unfold same_endpoint_state. auto.
  - intros a b c (A1 & A2 & A3 & A4) (B1 & B2 & B3 & B4).
    unfold same_endpoint_state. repeat split; congruence.
Qed.

Section HandlerProperties.

Context {RT : Js.Runtime}.

Lemma deliver_all_stable (R : CustomEventHandler -> CustomEventHandler -> Prop)
    {PO : PreOrder R} (events : list (string * event)) :
  (forall te, In te events -> stable R (deliver te)) ->
  stable R (deliver_all events).
Proof.
  induction events as [| te events IH]; simpl; intros Hall.
  - apply stable_ret. exact _.
  - apply stable_bind; [exact _ | apply Hall; left; reflexivity | intros _ ].
    apply IH. intros te' Hin. apply Hall. right. exact Hin.
Qed.

Lemma exec_deliver_all_cons (te : string * event) (events : list (string * event))
    (h : CustomEventHandler) :
  exec (deliver_all (te :: events)) h = exec (deliver_all events) (exec (deliver te) h).
Proof. simpl. rewrite exec_bind. reflexivity. Qed.

(** Resuming the [k]-th suspended check. *)
Lemma exec_deliver_settled (t : string) (k : nat) (h : CustomEventHandler) :
  exec (deliver (t, JsonSettled k)) h =
  match nth_error (awaiting h) k with
  | None => with_clock t h
  | Some p =>
      exec (checkCriticalEndpoint_resume p)
           (with_awaiting (remove_nth k) (with_clock t h))
  end.
Proof.
  unfold deliver, dispatch. cbn [fst snd].
  rewrite exec_bind, exec_modify. rewrite exec_bind.
  unfold eval, gets at 1. cbn [fst]. unfold exec at 2. unfold gets at 1. cbn [snd].
  cbn [awaiting with_clock].
  destruct (nth_error (awaiting h) k) as [p |].
  - rewrite exec_bind, exec_modify. reflexivity.
  - reflexivity.
Qed.

(* ----------------------------------------------------------------- *)
(** *** Flags and counters *)

Lemma deliver_advances (te : string * event) : stable advances (deliver te).
Proof.
  destruct te as [t e]. destruct e; hooks_unfold; cbn [fst snd].
  all: stable_steps.
  all: unfold advances; fields; repeat split; auto; lia.
Qed.

Lemma deliver_all_advances (events : list (string * event)) :
  stable advances (deliver_all events).
Proof. apply deliver_all_stable; [exact _ | intros te _; apply deliver_advances]. Qed.

Lemma handleConsole_counters (msg : ConsoleMessage) (h : CustomEventHandler) :
  let h' := exec (handleConsole msg) h in
  requestCount h' = requestCount h /\
  serverErrorCount h' = serverErrorCount h /\
  (errorCount h' = errorCount h \/ errorCount h' = errorCount h + 1).
Proof.
  hooks_unfold. run_monad. split_tests; fields; cbn [snd]; auto.
Qed.

Lemma handleRequest_counters (request : Request) (h : CustomEventHandler) :
  let h' := exec (handleRequest request) h in
  requestCount h' = requestCount h + 1 /\
  serverErrorCount h' = serverErrorCount h /\
  errorCount h' = errorCount h.
Proof.
  hooks_unfold. run_monad. split_tests; fields; cbn [snd]; auto.
Qed.

(** Flags, observations and suspended checks are touched by response
    events and resumed checks only. *)
Lemma console_request_frame (t : string) (e : event) :
  (forall r, e <> ResponseEvent r) -> (forall k, e <> JsonSettled k) ->
  stable same_endpoint_state (deliver (t, e)).
Proof.
  intros Hr Hk. destruct e; try (exfalso; eapply Hr; reflexivity);
    try (exfalso; eapply Hk; reflexivity).
  all: hooks_unfold; cbn [fst snd]; stable_steps.
  all: unfold same_endpoint_state; fields; auto.
Qed.

(* ----------------------------------------------------------------- *)
(** *** What a response event does *)

(** Outside [200, 300) only the logs and the server-error counter move. *)
Lemma response_outside_2xx (response : Response) (h : CustomEventHandler) :
  resp_status response < 200 \/ 300 <= resp_status response ->
  let h' := exec (handleResponse response) h in
  same_endpoint_state h h' /\
  requestCount h' = requestCount h /\
  errorCount h' = errorCount h /\
  consoleLog h' = consoleLog h /\
  clock h' = clock h /\
  serverErrorCount h' =
    serverErrorCount h + (if resp_status response >=? 500 then 1 else 0).
Proof.
  intros Hs. hooks_unfold. unfold same_endpoint_state.
  destruct (resp_status response >=? 500) eqn:E1.
  - run_monad. split_tests; fields; cbn [snd]; repeat split; reflexivity.
  - destruct (resp_status response >=? 400) eqn:E2.
    + run_monad. split_tests; fields; cbn [snd]; repeat split; auto using Z.add_0_r.
    + destruct (resp_status response >=? 200) eqn:E3;
        destruct (resp_status response <? 300) eqn:E4; try lia; cbn [andb];
        run_monad; split_tests; fields; cbn [snd]; repeat split; auto using Z.add_0_r.
Qed.

Lemma handleResponse_counters (response : Response) (h : CustomEventHandler) :
  let h' := exec (handleResponse response) h in
  requestCount h' = requestCount h /\
  errorCount h' = errorCount h /\
  serverErrorCount h' =
    serverErrorCount h + (if resp_status response >=? 500 then 1 else 0).
Proof.
  hooks_unfold. run_monad. split_tests; fields; cbn [snd]; auto using Z.add_0_r.
Qed.

(** A 2xx response that is not for a critical endpoint is only logged. *)
Lemma response_not_critical (t : string) (response : Response) (h : CustomEventHandler) :
  endpoint_of (resp_url response) = None ->
  same_endpoint_state h (exec (deliver (t, ResponseEvent response)) h).
Proof.
  intros Hf. pose proof (@endpoint_of_none _ Hf) as He.
  hooks_unfold. cbn [fst snd]. rewrite He. unfold same_endpoint_state.
  run_monad. split_tests; fields; cbn [snd]; auto.
Qed.

(** A 2xx response for [/health] is evaluated at once. *)
Lemma health_response_effect (t : string) (response : Response) (h : CustomEventHandler) :
  200 <= resp_status response < 300 ->
  endpoint_of (resp_url response) = Some "/health" ->
  let h' := exec (deliver (t, ResponseEvent response)) h in
  criticalEndpointResponses h' =
    JsMap.set "/health" (health_observation t response) (criticalEndpointResponses h) /\
  healthCheckPassed h' = (healthCheckPassed h || (resp_status response =? 200)) /\
  criticalEndpointFailed h' =
    (criticalEndpointFailed h || negb (resp_status response =? 200)) /\
  awaiting h' = awaiting h.
Proof.
  intros Hs Hf. pose proof (@endpoint_of_some _ _ Hf) as He.
  unfold endpoint_of in Hf.
  hooks_unfold. cbn [fst snd]. rewrite He, Hf. cbn [String.eqb Ascii.eqb Bool.eqb].
  unfold health_observation.
  destruct (resp_status response >=? 500) eqn:E1; [lia | ].
  destruct (resp_status response >=? 400) eqn:E2; [lia | ].
  destruct (resp_status response >=? 200) eqn:E3; [ | lia ].
  destruct (resp_status response <? 300) eqn:E4; [ | lia ].
  cbn [andb].
  destruct (resp_status response =? 200) eqn:E5;
    destruct ((req_resourceType (resp_request response) =? "xhr")%string
              || (req_resourceType (resp_request response) =? "fetch")%string);
    run_monad; rewrite ?orb_true_r, ?orb_false_r; auto.
Qed.

(** A 2xx response for another critical endpoint suspends a check. *)
Lemma critical_response_effect (t : string) (response : Response) (name : string)
    (h : CustomEventHandler) :
  200 <= resp_status response < 300 ->
  endpoint_of (resp_url response) = Some name ->
  name <> "/health" ->
  let h' := exec (deliver (t, ResponseEvent response)) h in
  criticalEndpointResponses h' = criticalEndpointResponses h /\
  healthCheckPassed h' = healthCheckPassed h /\
  criticalEndpointFailed h' = criticalEndpointFailed h /\
  awaiting h' =
    (awaiting h ++ [{| pc_endpointName := name; pc_url := resp_url response;
                       pc_response := response |}])%list.
Proof.
  intros Hs Hf Hne. pose proof (@endpoint_of_some _ _ Hf) as He.
  unfold endpoint_of in Hf. apply String.eqb_neq in Hne.
  hooks_unfold. cbn [fst snd]. rewrite He, Hf, Hne.
  destruct (resp_status response >=? 500) eqn:E1; [lia | ].
  destruct (resp_status response >=? 400) eqn:E2; [lia | ].
  destruct (resp_status response >=? 200) eqn:E3; [ | lia ].
  destruct (resp_status response <? 300) eqn:E4; [ | lia ].
  cbn [andb].
  destruct ((req_resourceType (resp_request response) =? "xhr")%string
            || (req_resourceType (resp_request response) =? "fetch")%string);
    run_monad; auto.
Qed.

(** A resumed check stores its observation and may raise the failure
    flag; a [null] body is stored first and then replaced by the error
    observation. *)
Lemma settled_effect (t : string) (k : nat) (p : pending_check) (h : CustomEventHandler) :
  nth_error (awaiting h) k = Some p ->
  let h' := exec (deliver (t, JsonSettled k)) h in
  criticalEndpointResponses h' =
    JsMap.set (pc_endpointName p) (settled_observation t p)
      (match resp_json (pc_response p) with
       | Parsed Js.JNull =>
           JsMap.set (pc_endpointName p)
             {| obs_url := pc_url p; obs_timestamp := t;
                obs_status := resp_status (pc_response p);
                obs_body := Some Js.JNull; obs_error := None |}
             (criticalEndpointResponses h)
       | _ => criticalEndpointResponses h
       end) /\
  healthCheckPassed h' = healthCheckPassed h /\
  criticalEndpointFailed h' = (criticalEndpointFailed h || check_fails p) /\
  awaiting h' = remove_nth k (awaiting h).
Proof.
  intros Hk. cbv zeta. rewrite exec_deliver_settled, Hk.
  hooks_unfold. unfold settled_observation, check_fails.
  destruct (resp_json (pc_response p)) as [body | reason].
  2: { run_monad. rewrite orb_true_r. auto. }
  destruct body; cbn [Js.getProperty Js.strictly_true].
  all: try (run_monad; rewrite ?orb_true_r, ?orb_false_r; auto; fail).
  destruct (Js.assoc "error" fields) as [v |]; cbn [Js.strictly_true].
  - destruct v as [| b | | | | ]; try destruct b; run_monad;
      rewrite ?orb_true_r, ?orb_false_r; auto.
  - run_monad; rewrite ?orb_true_r, ?orb_false_r; auto.
Qed.

Lemma settled_nothing (t : string) (k : nat) (h : CustomEventHandler) :
  nth_error (awaiting h) k = None ->
  same_endpoint_state h (exec (deliver (t, JsonSettled k)) h).
Proof.
  intros Hk. rewrite exec_deliver_settled, Hk. unfold same_endpoint_state.
  fields. auto.
Qed.

(** C9. A response whose URL ends with a critical-endpoint suffix and
    whose status is outside [200, 300) leaves the observation map, both
    flags and the suspended checks as they were; of the counters only
    the server-error counter moves, by one, when the status is at least
    500; the console log is untouched (the network log grows). *)
Theorem non_2xx_leaves_endpoint_state (response : Response) (h : CustomEventHandler) :
  (exists name, In name criticalEndpoints /\
                Js.endsWith (resp_url response) name = true) ->
  resp_status response < 200 \/ 300 <= resp_status response ->
  let h' := exec (handleResponse response) h in
  criticalEndpointResponses h' = criticalEndpointResponses h /\
  healthCheckPassed h' = healthCheckPassed h /\
  criticalEndpointFailed h' = criticalEndpointFailed h /\
  awaiting h' = awaiting h /\
  requestCount h' = requestCount h /\
  errorCount h' = errorCount h /\
  serverErrorCount h' =
    serverErrorCount h + (if resp_status response >=? 500 then 1 else 0) /\
  consoleLog h' = consoleLog h /\
  (exists lines, networkLog h' = (networkLog h ++ lines)%list).
Proof.
  intros _ Hs.
  destruct (response_outside_2xx response h Hs)
    as ((A & B & C & D) & E & F & G & _ & I).
  cbv zeta. repeat split; try assumption.
  clear. hooks_unfold. run_monad.
  split_tests; fields; rewrite <- ?app_assoc;
    first [ eexists; reflexivity | exists []; rewrite app_nil_r; reflexivity ].
Qed.

(* ----------------------------------------------------------------- *)
(** *** The observation map *)

Lemma exec_deliver (t : string) (e : event) (h : CustomEventHandler) :
  exec (deliver (t, e)) h = exec (dispatch e) (with_clock t h).
Proof. unfold deliver. cbn [fst snd]. rewrite exec_bind, exec_modify. reflexivity. Qed.

Lemma resume_well_formed (p : pending_check) :
  In (pc_endpointName p) criticalEndpoints ->
  stable (keeps well_formed) (checkCriticalEndpoint_resume p).
Proof.
  intros Hin. hooks_unfold. stable_steps.
  all: unfold keeps, well_formed; fields; intros (A & B & C); repeat split;
    auto using keys_set_incl, keys_set_NoDup.
Qed.

Lemma deliver_well_formed (te : string * event) :
  stable (keeps well_formed) (deliver te).
Proof.
  destruct te as [t e]. destruct e.
  4: { intros h. rewrite exec_deliver_settled. unfold keeps. intros (A & B & C).
       destruct (nth_error (awaiting h) k) as [p |] eqn:E.
       - apply resume_well_formed.
         + apply nth_error_In in E. rewrite Forall_forall in C. apply C, E.
         + repeat split; fields; auto using remove_nth_Forall.
       - repeat split; fields; auto. }
  all: hooks_unfold; cbn [fst snd]; stable_steps.
  all: unfold keeps, well_formed; fields; intros (A & B & C); repeat split;
    try assumption.
  all: try (apply keys_set_incl; [ | assumption ]).
  all: try (apply keys_set_NoDup; assumption).
  all: try (apply Forall_app; split; [assumption | ];
            constructor; [ | constructor ]; cbn [pc_endpointName]).
  all: match goal with
       | Hf : find _ criticalEndpoints = Some _ |- _ =>
           apply find_some in Hf; apply Hf
       end.
Qed.

Lemma new_well_formed (t0 : string) : well_formed (new_CustomEventHandler t0).
Proof.
  unfold well_formed. cbn. repeat split; [intros x [] | constructor | constructor].
Qed.

Lemma reachable_well_formed (t0 : string) (events : list (string * event)) :
  well_formed (exec (deliver_all events) (new_CustomEventHandler t0)).
Proof.
  apply (@deliver_all_stable (keeps well_formed) _ events);
    [intros te _; apply deliver_well_formed | apply new_well_formed].
Qed.

Lemma well_formed_size (h : CustomEventHandler) :
  well_formed h -> JsMap.size (criticalEndpointResponses h) <= 5.
Proof.
  intros (A & B & _). unfold JsMap.size.
  pose proof (NoDup_incl_length B A) as Hlen.
  unfold JsMap.keys in Hlen. rewrite length_map in Hlen.
  change (List.length criticalEndpoints) with 5%nat in Hlen. lia.
Qed.

(** C6. After any sequence of events the observation map has at most
    five entries ([getStats()] reports as much), its keys are distinct
    and are critical-endpoint names; and a new observation replaces
    whatever was stored under its name: a [/health] response that
    reaches endpoint evaluation, and a resumed check of another
    endpoint, each leave exactly their own observation under the name. *)
Theorem observations_bounded_last_write_wins (t0 : string)
    (events : list (string * event)) :
  let h := exec (deliver_all events) (new_CustomEventHandler t0) in
  (JsMap.size (criticalEndpointResponses h) <= 5 /\
   criticalEndpointsTracked (eval getStats h) <= 5 /\
   NoDup (JsMap.keys (criticalEndpointResponses h)) /\
   (forall name, In name (JsMap.keys (criticalEndpointResponses h)) ->
                 In name criticalEndpoints)) /\
  (forall t response,
      200 <= resp_status response < 300 ->
      endpoint_of (resp_url response) = Some "/health" ->
      eval (getEndpointResponse "/health")
           (exec (deliver (t, ResponseEvent response)) h)
      = Some (health_observation t response)) /\
  (forall t k p,
      nth_error (awaiting h) k = Some p ->
      eval (getEndpointResponse (pc_endpointName p))
           (exec (deliver (t, JsonSettled k)) h)
      = Some (settled_observation t p)).
Proof.
  cbv zeta. pose proof (reachable_well_formed t0 events) as Hwf.
  set (h := exec (deliver_all events) (new_CustomEventHandler t0)) in *.
  split; [ | split ].
  - pose proof (well_formed_size _ Hwf) as Hsize.
    destruct Hwf as (A & B & _). repeat split; auto.
  - intros t response Hs Hf.
    destruct (health_response_effect t response h Hs Hf) as (Hm & _).
    unfold getEndpointResponse, eval, gets. cbn [fst].
    rewrite Hm. apply get_set_same.
  - intros t k p Hk.
    destruct (settled_effect t k p h Hk) as (Hm & _).
    unfold getEndpointResponse, eval, gets. cbn [fst].
    rewrite Hm. apply get_set_same.
Qed.

(* ----------------------------------------------------------------- *)
(** *** Endpoints that were never observed *)

Lemma deliver_unobserved (name : string) (te : string * event) (h : CustomEventHandler) :
  (forall response, snd te = ResponseEvent response ->
                    200 <= resp_status response < 300 ->
                    Js.endsWith (resp_url response) name = false) ->
  unobserved name h -> unobserved name (exec (deliver te) h).
Proof.
  destruct te as [t e]. cbn [snd]. intros Hev (Hget & Haw).
  destruct e as [msg | request | response | k].
  - destruct (@console_request_frame t (ConsoleEvent msg)) with (s := h)
      as (A & _ & _ & D); try discriminate.
    unfold unobserved. rewrite A, D. auto.
  - destruct (@console_request_frame t (RequestEvent request)) with (s := h)
      as (A & _ & _ & D); try discriminate.
    unfold unobserved. rewrite A, D. auto.
  - assert (Hcases : resp_status response < 200 \/ 300 <= resp_status response \/
                     200 <= resp_status response < 300) by lia.
    destruct Hcases as [Hs | [Hs | Hs]].
    1,2: rewrite exec_deliver; cbn [dispatch];
      destruct (@response_outside_2xx response (with_clock t h)) as ((A & _ & _ & D) & _);
      [lia | unfold unobserved; rewrite A, D; fields; auto].
    specialize (Hev response eq_refl Hs).
    destruct (endpoint_of (resp_url response)) as [n |] eqn:Hf.
    + destruct (endpoint_of_In _ _ Hf) as (_ & Hend).
      assert (Hne : n <> name) by congruence.
      destruct (String.eqb_spec n "/health") as [-> | Hh].
      * destruct (health_response_effect t response h Hs Hf) as (A & _ & _ & D).
        unfold unobserved. rewrite A, D, get_set_other; auto.
      * destruct (critical_response_effect t response n h Hs Hf Hh) as (A & _ & _ & D).
        unfold unobserved. rewrite A, D. split; [exact Hget | ].
        apply Forall_app. split; [exact Haw | ].
        constructor; [exact Hne | constructor].
    + destruct (response_not_critical t response h Hf) as (A & _ & _ & D).
      unfold unobserved. rewrite A, D. auto.
  - destruct (nth_error (awaiting h) k) as [p |] eqn:Hk.
    + destruct (settled_effect t k p h Hk) as (A & _ & _ & D).
      assert (Hne : pc_endpointName p <> name).
      { apply nth_error_In in Hk. rewrite Forall_forall in Haw. apply Haw, Hk. }
      unfold unobserved. rewrite A, D. split.
      * rewrite get_set_other by exact Hne.
        destruct (resp_json (pc_response p)) as [[] |];
          rewrite ?get_set_other by exact Hne; exact Hget.
      * apply remove_nth_Forall. exact Haw.
    + destruct (settled_nothing t k h Hk) as (A & _ & _ & D).
      unfold unobserved. rewrite A, D. auto.
Qed.

Lemma deliver_all_unobserved (name : string) (events : list (string * event))
    (h : CustomEventHandler) :
  (forall t response, In (t, ResponseEvent response) events ->
                      200 <= resp_status response < 300 ->
                      Js.endsWith (resp_url response) name = false) ->
  unobserved name h -> unobserved name (exec (deliver_all events) h).
Proof.
  revert h. induction events as [| te events IH]; intros h Hev Hun.
  - exact Hun.
  - rewrite exec_deliver_all_cons. apply IH.
    + intros t response Hin. apply (Hev t response). right. exact Hin.
    + apply deliver_unobserved; [ | exact Hun ].
      destruct te as [t e]. cbn [snd]. intros response ->.
      apply (Hev t response). left. reflexivity.
Qed.

Lemma absent_from_object (name : string) (h : CustomEventHandler) :
  JsMap.get name (criticalEndpointResponses h) = None ->
  ~ In name (JsMap.keys (eval getAllResponsesAsObject h)).
Proof.
  intros Hget Hin. unfold getAllResponsesAsObject, eval, bind, gets, ret in Hin.
  cbn [fst] in Hin. apply forEach_set_keys in Hin.
  destruct Hin as [[] | Hin]. apply get_None_not_key in Hget. contradiction.
Qed.

(** C10. Take any run of a new handler and an endpoint name for which
    no observation is stored: a name outside the five critical names;
    or a name such that no response with a status in [200, 300) and a
    URL ending with it has been handled; or, in general, a name the
    map has no entry for at that point. Then
    [getEndpointResponse(name)] returns [undefined] and the object
    built by [getAllResponsesAsObject()] has no such key. *)
Theorem unobserved_endpoint_is_undefined (t0 : string)
    (events : list (string * event)) (name : string) :
  let h := exec (deliver_all events) (new_CustomEventHandler t0) in
  ~ In name criticalEndpoints \/
  (forall t response, In (t, ResponseEvent response) events ->
                      200 <= resp_status response < 300 ->
                      Js.endsWith (resp_url response) name = false) \/
  JsMap.get name (criticalEndpointResponses h) = None ->
  eval (getEndpointResponse name) h = None /\
  ~ In name (JsMap.keys (eval getAllResponsesAsObject h)).
Proof.
  cbv zeta. intros Hcase.
  assert (Hget : JsMap.get name
                   (criticalEndpointResponses
                      (exec (deliver_all events) (new_CustomEventHandler t0))) = None).
  { destruct Hcase as [Hout | [Hev | Hnone]].
    - destruct (reachable_well_formed t0 events) as (A & _ & _).
      apply get_None_not_key. intros Hin. apply Hout, A, Hin.
    - apply (deliver_all_unobserved _ _ _ Hev). split; [reflexivity | constructor].
    - exact Hnone. }
  split; [exact Hget | apply absent_from_object; exact Hget].
Qed.

(* ----------------------------------------------------------------- *)
(** *** The health gate *)

(** C1, as far as the code goes: a [/health] response with a status in
    [200, 300) sets [healthCheckPassed] exactly when the status is 200,
    whatever the body; any other such status raises
    [criticalEndpointFailed] and stores the error text [HTTP <status>]. *)
Lemma health_gate_within_2xx (t : string) (response : Response) (h : CustomEventHandler) :
  200 <= resp_status response < 300 ->
  endpoint_of (resp_url response) = Some "/health" ->
  let h' := exec (deliver (t, ResponseEvent response)) h in
  (resp_status response = 200 ->
   healthCheckPassed h' = true /\
   criticalEndpointFailed h' = criticalEndpointFailed h) /\
  (resp_status response <> 200 ->
   healthCheckPassed h' = healthCheckPassed h /\
   criticalEndpointFailed h' = true /\
   exists o, JsMap.get "/health" (criticalEndpointResponses h') = Some o /\
             obs_error o = Some ("HTTP " ++ Js.show (resp_status response))).
Proof.
  intros Hs Hf. destruct (health_response_effect t response h Hs Hf) as (A & B & C & _).
  cbv zeta. rewrite A, B, C. unfold health_observation. split; intros Hst.
  - apply Z.eqb_eq in Hst. rewrite Hst. cbn [negb].
    rewrite orb_true_r, orb_false_r. auto.
  - apply Z.eqb_neq in Hst. rewrite Hst. cbn [negb].
    rewrite orb_true_r, orb_false_r. repeat split.
    eexists. split; [apply get_set_same | reflexivity].
Qed.

(** C1, where the code departs from it: handled by a new handler, a
    [/health] response with status 503 is classified as a server error
    and never reaches endpoint evaluation. [hasCriticalFailure()] stays
    false and no health observation is stored. *)
Theorem health_503_goes_unnoticed (t0 t : string) (body : json_outcome) :
  let response := response_to "https://app.example/health" 503 body in
  let h := exec (deliver_all [(t, ResponseEvent response)]) (new_CustomEventHandler t0) in
  eval hasHealthCheckPassed h = false /\
  eval hasCriticalFailure h = false /\
  eval (getEndpointResponse "/health") h = None /\
  serverErrorCount h = 1.
Proof. cbv zeta. repeat split. Qed.

End HandlerProperties.

(* ================================================================= *)
(** ** Status-band classification (EventHandler) *)

(** C2, as the code has it. For a response with status [s]:
    the success hook alone is called when 200 <= s < 300, the
    client-error hook alone when 400 <= s < 500, the server-error hook
    alone when 500 <= s, and no classification hook when s < 200 or
    300 <= s < 400. *)
Theorem classification_bands (response : Response) :
  let s := resp_status response in
  (200 <= s < 300 -> hooks_fired response = [SuccessHook]) /\
  (400 <= s < 500 -> hooks_fired response = [ClientErrorHook]) /\
  (500 <= s -> hooks_fired response = [ServerErrorHook]) /\
  (s < 200 \/ 300 <= s < 400 -> hooks_fired response = []).
Proof.
  cbv zeta. unfold hooks_fired, handleResponse.
  cbn [networkLogger probe_loggers onSuccess onClientError onServerError probe_hooks].
  unfold exec, bind, when, ret, modify.
  destruct (resp_status response >=? 500) eqn:E1;
    destruct (resp_status response >=? 400) eqn:E2;
    destruct (resp_status response >=? 200) eqn:E3;
    destruct (resp_status response <? 300) eqn:E4;
    destruct ((req_resourceType (resp_request response) =? "xhr")%string
              || (req_resourceType (resp_request response) =? "fetch")%string);
    cbn; repeat split; intros; try reflexivity; lia.
Qed.

(** C2 as stated fails above 599: status 600 lies outside [200, 600)
    and the server-error hook is called for it. *)
Lemma classification_above_599 :
  ~ (forall response : Response,
        resp_status response < 200 \/ 600 <= resp_status response ->
        hooks_fired response = []).
Proof.
  intros H.
  specialize (H (response_to "https://app.example/" 600 (Rejected ""))).
  cbn in H. discriminate H. right. lia.
Qed.

(** One status in each band. *)
Lemma classification_bands_witness :
  (200 <= 204 < 300 /\
   hooks_fired (response_to "https://app.example/a" 204 (Rejected "")) = [SuccessHook]) /\
  (400 <= 404 < 500 /\
   hooks_fired (response_to "https://app.example/a" 404 (Rejected "")) = [ClientErrorHook]) /\
  (500 <= 600 /\
   hooks_fired (response_to "https://app.example/a" 600 (Rejected "")) = [ServerErrorHook]) /\
  (300 <= 302 < 400 /\
   hooks_fired (response_to "https://app.example/a" 302 (Rejected "")) = []).
Proof.
  split; [ split; [lia | ] | split; [ split; [lia | ] | split; [ split; [lia | ] | split; [lia | ] ] ] ].
  - apply (classification_bands (response_to "https://app.example/a" 204 (Rejected ""))).
    cbn. lia.
  - apply (classification_bands (response_to "https://app.example/a" 404 (Rejected ""))).
    cbn. lia.
  - apply (classification_bands (response_to "https://app.example/a" 600 (Rejected ""))).
    cbn. lia.
  - apply (classification_bands (response_to "https://app.example/a" 302 (Rejected ""))).
    cbn. lia.
Defined.

(* ================================================================= *)
(** ** Scenario A *)

Lemma remove_nth_In_other {A} (x y : A) (k : nat) (l : list A) :
  In x l -> nth_error l k = Some y -> y <> x -> In x (remove_nth k l).
Proof.
  revert k. induction l as [| a l IH]; intros k Hin Hk Hne.
  - destruct Hin.
  - destruct k as [| k]; simpl in *.
    + injection Hk as ->. destruct Hin as [-> | Hin]; [contradiction | exact Hin].
    + destruct Hin as [-> | Hin]; [left; reflexivity | right; eauto].
Qed.

Section ScenarioA.

Context {RT : Js.Runtime}.

(** The URLs of the four responses and the (never inspected) body of
    the health response. *)
Variables (u_store u_token u_health u_order : string) (b_health : json_outcome).

Hypothesis store_url : endpoint_of u_store = Some "/getStore".
Hypothesis token_url : endpoint_of u_token = Some "/getToken".
Hypothesis health_url : endpoint_of u_health = Some "/health".
Hypothesis order_url : endpoint_of u_order = Some "/getOrderTypeData".

Local Abbreviation store := (response_to u_store 200 (Parsed (error_body false))).
Local Abbreviation token := (response_to u_token 200 (Parsed (error_body false))).
Local Abbreviation health := (response_to u_health 200 b_health).
Local Abbreviation order := (response_to u_order 200 (Parsed (error_body true))).

Local Abbreviation check_store := (check_of "/getStore" store).
Local Abbreviation check_token := (check_of "/getToken" token).
Local Abbreviation check_order := (check_of "/getOrderTypeData" order).

Local Abbreviation progress :=
  (scenario_A_progress u_store u_token u_health u_order).

Lemma progress_frame (n : nat) (h h' : CustomEventHandler) :
  same_endpoint_state h h' -> progress n h -> progress n h'.
Proof.
  intros (A & _ & C & D) (I1 & I2 & I3). unfold scenario_A_progress.
  rewrite A, C, D. auto.
Qed.

Lemma progress_settled (n : nat) (t : string) (k : nat) (h : CustomEventHandler) :
  progress n h ->
  progress n (exec (deliver (t, JsonSettled k)) h).
Proof.
  intros Hp. destruct (nth_error (awaiting h) k) as [p |] eqn:Hk.
  2: { eapply progress_frame; [apply settled_nothing; exact Hk | exact Hp]. }
  destruct Hp as (I1 & I2 & I3).
  destruct (settled_effect t k p h Hk) as (A & _ & C & D).
  assert (Hp : p = check_store \/ p = check_token \/ p = check_order).
  { apply nth_error_In in Hk. rewrite Forall_forall in I1. apply I1, Hk. }
  unfold scenario_A_progress. rewrite A, C, D.
  split; [apply remove_nth_Forall; exact I1 | ].
  destruct Hp as [-> | [-> | ->]];
    cbn [check_of pc_endpointName pc_response pc_url response_to resp_json
         resp_status resp_url error_body];
    unfold settled_observation, check_fails;
    cbn [check_of pc_endpointName pc_response pc_url response_to resp_json
         resp_status resp_url error_body Js.getProperty Js.assoc String.eqb
         Ascii.eqb Bool.eqb Js.strictly_true].
  - split.
    + intros Hn. rewrite get_set_other by discriminate. auto.
    + intros Hn. destruct (I3 Hn) as [Hin | (Hf & tm & Hg)].
      * left. eapply remove_nth_In_other; [exact Hin | exact Hk | discriminate].
      * right. rewrite Hf. split; [reflexivity | ].
        exists tm. rewrite get_set_other by discriminate. exact Hg.
  - split.
    + intros Hn. rewrite get_set_other by discriminate. auto.
    + intros Hn. destruct (I3 Hn) as [Hin | (Hf & tm & Hg)].
      * left. eapply remove_nth_In_other; [exact Hin | exact Hk | discriminate].
      * right. rewrite Hf. split; [reflexivity | ].
        exists tm. rewrite get_set_other by discriminate. exact Hg.
  - split.
    + intros Hn. rewrite get_set_other by discriminate. auto.
    + intros _. right. rewrite orb_true_r. split; [reflexivity | ].
      exists t. apply get_set_same.
Qed.

Lemma progress_response (n : nat) (t : string) (response : Response)
    (h : CustomEventHandler) :
  nth_error [store; token; health; order] n = Some response ->
  progress n h ->
  progress (S n) (exec (deliver (t, ResponseEvent response)) h).
Proof.
  intros Hn (I1 & I2 & I3). unfold scenario_A_progress.
  destruct n as [| [| [| [| n]]]]; cbn [nth_error] in Hn;
    try (injection Hn as <-); try (destruct n; discriminate Hn).
  - destruct (critical_response_effect t store "/getStore" h) as (A & _ & C & D);
      [cbn; lia | exact store_url | discriminate | ].
    rewrite A, C, D. split; [ | split; intros; lia ].
    apply Forall_app. split; [exact I1 | ]. constructor; [ | constructor ]. auto.
  - destruct (critical_response_effect t token "/getToken" h) as (A & _ & C & D);
      [cbn; lia | exact token_url | discriminate | ].
    rewrite A, C, D. split; [ | split; intros; lia ].
    apply Forall_app. split; [exact I1 | ]. constructor; [ | constructor ]. auto.
  - destruct (health_response_effect t health h) as (A & _ & C & D);
      [cbn; lia | exact health_url | ].
    rewrite A, D. split; [exact I1 | split; [ | intros; lia ] ].
    intros _. exists t. rewrite get_set_same. reflexivity.
  - destruct (critical_response_effect t order "/getOrderTypeData" h)
      as (A & _ & C & D); [cbn; lia | exact order_url | discriminate | ].
    rewrite A, C, D. split; [ | split ].
    + apply Forall_app. split; [exact I1 | ]. constructor; [ | constructor ]. auto.
    + intros _. apply I2. lia.
    + intros _. left. apply in_or_app. right. left. reflexivity.
Qed.

Lemma scenario_A_invariant (events : list (string * event)) :
  forall (done todo : list Response) (h : CustomEventHandler),
    (done ++ todo)%list = [store; token; health; order] ->
    responses_in events = todo ->
    progress (List.length done) h ->
    progress 4 (exec (deliver_all events) h).
Proof.
  induction events as [| [t e] events IH]; intros done todo h Hsplit Hresp Hp.
  - cbn in Hresp. subst todo. rewrite app_nil_r in Hsplit. subst done. exact Hp.
  - rewrite exec_deliver_all_cons.
    destruct e as [msg | request | response | k]; cbn [responses_in] in Hresp.
    + apply (IH done todo); [exact Hsplit | exact Hresp | ].
      eapply progress_frame; [ | exact Hp ].
      apply console_request_frame; discriminate.
    + apply (IH done todo); [exact Hsplit | exact Hresp | ].
      eapply progress_frame; [ | exact Hp ].
      apply console_request_frame; discriminate.
    + destruct todo as [| r todo]; [discriminate Hresp | ].
      injection Hresp as <- Hresp.
      apply (IH (done ++ [response])%list todo); [ | exact Hresp | ].
      * rewrite <- app_assoc. exact Hsplit.
      * rewrite length_app, Nat.add_comm. cbn [List.length Nat.add].
        apply progress_response; [ | exact Hp ].
        rewrite <- Hsplit. rewrite nth_error_app2 by lia.
        rewrite Nat.sub_diag. reflexivity.
    + apply (IH done todo); [exact Hsplit | exact Hresp | ].
      apply progress_settled. exact Hp.
Qed.

(** C3. Scenario A: a new handler sees 200 responses for [/getStore]
    and [/getToken] with body [{error: false}], for [/health], and for
    [/getOrderTypeData] with body [{error: true}], in this order, among
    any other console and request events; the bodies settle at any
    later points, in any order. Once they have all settled,
    [hasCriticalFailure()] is true, the observation for
    [/getOrderTypeData] holds the parsed body [{error: true}], and the
    observation for [/health] is the synthetic record with status 200
    and body [OK (200)]. *)
Theorem scenario_A (t0 : string) (events : list (string * event)) :
  responses_in events = [store; token; health; order] ->
  awaiting (exec (deliver_all events) (new_CustomEventHandler t0)) = [] ->
  let h := exec (deliver_all events) (new_CustomEventHandler t0) in
  eval hasCriticalFailure h = true /\
  (exists t, eval (getEndpointResponse "/getOrderTypeData") h
             = Some {| obs_url := u_order; obs_timestamp := t; obs_status := 200;
                       obs_body := Some (error_body true); obs_error := None |}) /\
  (exists t, eval (getEndpointResponse "/health") h
             = Some {| obs_url := u_health; obs_timestamp := t; obs_status := 200;
                       obs_body := Some (Js.JString "OK (200)");
                       obs_error := None |}).
Proof.
  intros Hresp Hdone. cbv zeta.
  destruct (scenario_A_invariant events [] _ (new_CustomEventHandler t0)
              eq_refl Hresp) as (_ & I2 & I3).
  { split; [constructor | split; cbn [List.length]; intros; lia ]. }
  specialize (I2 ltac:(lia)). specialize (I3 eq_refl).
  rewrite Hdone in I3. destruct I3 as [[] | (Hf & Ho)].
  unfold hasCriticalFailure, getEndpointResponse, eval, gets. cbn [fst].
  repeat split; assumption.
Qed.

End ScenarioA.

(* ================================================================= *)
(** ** Reasoning about code that may throw *)

Section StableX.

Context {S : Type} (R : S -> S -> Prop) {PO : PreOrder R}.

Lemma stableX_ret {A} (a : A) : stableX R (retX a).
Proof. intros s. unfold execX, retX. simpl. reflexivity. Qed.

Lemma stableX_throw {A} (error : string) : stableX R (throwX (A := A) error).
Proof. intros s. unfold execX, throwX. simpl. reflexivity. Qed.

Lemma stableX_settle {A} (o : outcome A) : stableX R (fun s => (o, s)).
Proof. intros s. unfold execX. simpl. reflexivity. Qed.

Lemma stableX_bind {A B} (m : MX S A) (k : A -> MX S B) :
  stableX R m -> (forall a, stableX R (k a)) -> stableX R (bindX m k).
Proof.
  intros Hm Hk s. unfold execX, bindX.
  specialize (Hm s). unfold execX in Hm.
  destruct (m s) as [[a | error] s'] eqn:E; simpl in Hm; simpl.
  - specialize (Hk a s'). unfold execX in Hk. etransitivity; eassumption.
  - exact Hm.
Qed.

Lemma stableX_try_catch {A} (body : MX S A) (handler : string -> MX S A) :
  stableX R body -> (forall error, stableX R (handler error)) ->
  stableX R (try_catch body handler).
Proof.
  intros Hm Hk s. unfold execX, try_catch.
  specialize (Hm s). unfold execX in Hm.
  destruct (body s) as [[a | error] s'] eqn:E; simpl in Hm; simpl.
  - exact Hm.
  - specialize (Hk error s'). unfold execX in Hk. etransitivity; eassumption.
Qed.

Lemma stableX_try_finally {A} (body : MX S A) (cleanup : MX S unit) :
  stableX R body -> stableX R cleanup -> stableX R (try_finally body cleanup).
Proof.
  intros Hm Hk s. unfold execX, try_finally.
  specialize (Hm s). unfold execX in Hm.
  destruct (body s) as [result s'] eqn:E; simpl in Hm.
  specialize (Hk s'). unfold execX in Hk.
  destruct (cleanup s') as [[u | error] s''] eqn:E'; simpl in Hk; simpl;
    etransitivity; eassumption.
Qed.

End StableX.

#[export] Instance extends_with_PreOrder (P : call -> Prop) : PreOrder (extends_with P).
Proof.
  split.
  - intros r. unfold extends_with. repeat split. exists []. rewrite app_nil_r. auto.
  - intros a b c (A1 & A2 & m1 & A3 & A4) (B1 & B2 & m2 & B3 & B4).
    unfold extends_with. repeat split; try congruence.
    exists (m1 ++ m2)%list. rewrite B3, A3, app_assoc. split; [reflexivity | ].
    apply Forall_app. auto.
Qed.

#[export] Instance same_handles_PreOrder : PreOrder same_handles.
Proof.
  split.
  - intros r. unfold same_handles. auto.
  - intros a b c (A1 & A2) (B1 & B2). unfold same_handles. split; congruence.
Qed.

#[export] Instance on_handler_PreOrder
    (R : CustomEventHandler -> CustomEventHandler -> Prop) {PO : PreOrder R} :
  PreOrder (on_handler R).
Proof.
  split.
  - intros r. unfold on_handler. reflexivity.
  - intros a b c Hab Hbc. unfold on_handler in *. etransitivity; eassumption.
Qed.

#[export] Instance console_log_grows_PreOrder : PreOrder console_log_grows.
Proof.
  split.
  - intros h. exists []. rewrite app_nil_r. reflexivity.
  - intros a b c (l1 & H1) (l2 & H2). exists (l1 ++ l2)%list.
    rewrite H2, H1, app_assoc. reflexivity.
Qed.

Lemma extends_with_weaken (P Q : call -> Prop) (r r' : Runner) :
  (forall c, P c -> Q c) -> extends_with P r r' -> extends_with Q r r'.
Proof.
  intros HPQ (A & B & made & C & D). unfold extends_with. repeat split; auto.
  exists made. split; [exact C | ]. eapply Forall_impl; [ | exact D ]. exact HPQ.
Qed.

(** Reduces field reads of updated runners. *)
Ltac runner_fields :=
  cbn [fst snd url id context page eventHandler calls
       with_context with_page with_eventHandler with_calls] in *.

Section RunnerSteps.

Context {RT : Js.Runtime}.

Lemma deliver_console_log_grows (te : string * event) :
  stable console_log_grows (deliver te).
Proof.
  destruct te as [t e]. destruct e; hooks_unfold; cbn [fst snd].
  all: stable_steps.
  all: unfold console_log_grows; fields;
    first [ eexists; reflexivity | exists []; rewrite app_nil_r; reflexivity ].
Qed.

(** Steps of the runner that neither make a call nor touch a handle. *)
Lemma extends_on_eventHandler (P : call -> Prop) {A} (m : M CustomEventHandler A) :
  stableX (extends_with P) (on_eventHandler m).
Proof.
  intros r. unfold execX, on_eventHandler. destruct (m (eventHandler r)) as [a h].
  unfold extends_with. runner_fields. repeat split.
  exists []. rewrite app_nil_r. auto.
Qed.

Lemma extends_getsX (P : call -> Prop) {A} (f : Runner -> A) :
  stableX (extends_with P) (getsX f).
Proof. intros r. unfold execX, getsX. cbn [snd]. reflexivity. Qed.

Lemma extends_perform (P : call -> Prop) (c : call) :
  P c -> stableX (extends_with P) (perform c).
Proof.
  intros Hc r. unfold execX, perform, modifyX, extends_with. runner_fields.
  repeat split. exists [c]. split; [reflexivity | ]. constructor; [exact Hc | constructor].
Qed.

Lemma extends_set_context (P : call -> Prop) (c : option handle) :
  stableX (extends_with P) (modifyX (with_context c)).
Proof.
  intros r. unfold execX, modifyX, extends_with. runner_fields. repeat split.
  exists []. rewrite app_nil_r. auto.
Qed.

Lemma extends_set_page (P : call -> Prop) (p : option handle) :
  stableX (extends_with P) (modifyX (with_page p)).
Proof.
  intros r. unfold execX, modifyX, extends_with. runner_fields. repeat split.
  exists []. rewrite app_nil_r. auto.
Qed.

Lemma handles_on_eventHandler {A} (m : M CustomEventHandler A) :
  stableX same_handles (on_eventHandler m).
Proof.
  intros r. unfold execX, on_eventHandler. destruct (m (eventHandler r)) as [a h].
  unfold same_handles. runner_fields. auto.
Qed.

Lemma handles_getsX {A} (f : Runner -> A) : stableX same_handles (getsX f).
Proof. intros r. unfold execX, getsX. cbn [snd]. reflexivity. Qed.

Lemma handles_perform (c : call) : stableX same_handles (perform c).
Proof.
  intros r. unfold execX, perform, modifyX, same_handles. runner_fields. auto.
Qed.

Lemma lifted_on_eventHandler (R : CustomEventHandler -> CustomEventHandler -> Prop)
    {A} (m : M CustomEventHandler A) :
  stable R m -> stableX (on_handler R) (on_eventHandler m).
Proof.
  intros Hm r. unfold execX, on_eventHandler, on_handler.
  specialize (Hm (eventHandler r)). unfold exec in Hm.
  destruct (m (eventHandler r)) as [a h]. runner_fields. exact Hm.
Qed.

Lemma lifted_getsX (R : CustomEventHandler -> CustomEventHandler -> Prop)
    {PO : PreOrder R} {A} (f : Runner -> A) :
  stableX (on_handler R) (getsX f).
Proof. intros r. unfold execX, getsX. cbn [snd]. reflexivity. Qed.

Lemma lifted_modifyX (R : CustomEventHandler -> CustomEventHandler -> Prop)
    {PO : PreOrder R} (f : Runner -> Runner) :
  (forall r, eventHandler (f r) = eventHandler r) ->
  stableX (on_handler R) (modifyX f).
Proof.
  intros Hf r. unfold execX, modifyX, on_handler. cbn [snd]. rewrite Hf. reflexivity.
Qed.

End RunnerSteps.

(** Breaks a [stableX] goal down along the structure of the code. *)
Ltac stableX_step :=
  lazymatch goal with
  | |- stableX _ (bindX _ _) => apply stableX_bind; [ exact _ | | intros ]
  | |- stableX _ (retX _) => apply stableX_ret; exact _
  | |- stableX _ (throwX _) => apply stableX_throw; exact _
  | |- stableX _ (try_catch _ _) => apply stableX_try_catch; [ exact _ | | intros ]
  | |- stableX _ (try_finally _ _) => apply stableX_try_finally; [ exact _ | | ]
  | |- stableX _ (fun r => (_, r)) => apply stableX_settle; exact _
  | |- stableX _ (if ?c then _ else _) => destruct c eqn:?
  | |- stableX _ (match ?x with _ => _ end) => destruct x eqn:?
  | |- stableX _ (let (_, _) := ?x in _) => destruct x eqn:?
  end.

Ltac runner_unfold :=
  unfold run, run_setup, run_gated, run_cleanup, logResponseSummary,
    executeScenario, waitForAppReady, monitorIframe, captureScreenshot,
    await, await_quiet, listen, Runner_consoleLogger, whenX.

Ltac stableX_steps := cbv zeta; repeat (stableX_step; cbv zeta).

(* ================================================================= *)
(** ** Properties of Runner *)

#[export] Instance same_context_PreOrder : PreOrder same_context.
Proof.
  split.
  - intros r. unfold same_context. reflexivity.
  - intros a b c Hab Hbc. unfold same_context in *. congruence.
Qed.

Section NeverThrows.

Context {S : Type}.

Lemma never_throws_ret {A} (a : A) : never_throws (retX (S := S) a).
Proof. intros s. exists a. reflexivity. Qed.

Lemma never_throws_fulfilled {A} (a : A) :
  never_throws (fun s : S => (Fulfilled a, s)).
Proof. intros s. exists a. reflexivity. Qed.

Lemma never_throws_bind {A B} (m : MX S A) (k : A -> MX S B) :
  never_throws m -> (forall a, never_throws (k a)) -> never_throws (bindX m k).
Proof.
  intros Hm Hk s. unfold resultX, bindX. destruct (Hm s) as (a & Ha).
  unfold resultX in Ha. destruct (m s) as [o s']. cbn [fst] in Ha. subst o.
  apply Hk.
Qed.

Lemma never_throws_try_catch {A} (body : MX S A) (handler : string -> MX S A) :
  (forall error, never_throws (handler error)) ->
  never_throws (try_catch body handler).
Proof.
  intros Hk s. unfold resultX, try_catch.
  destruct (body s) as [[a | error] s'].
  - exists a. reflexivity.
  - apply Hk.
Qed.

Lemma never_throws_try_finally {A} (body : MX S A) (cleanup : MX S unit) :
  never_throws body -> never_throws cleanup ->
  never_throws (try_finally body cleanup).
Proof.
  intros Hm Hk s. unfold resultX, try_finally.
  destruct (Hm s) as (a & Ha). unfold resultX in Ha.
  destruct (body s) as [o s']. cbn [fst] in Ha. subst o.
  destruct (Hk s') as (u & Hu). unfold resultX in Hu.
  destruct (cleanup s') as [o s'']. cbn [fst] in Hu. subst o.
  exists a. reflexivity.
Qed.

End NeverThrows.

Lemma unit_fulfilled {S} (m : MX S unit) (s : S) :
  never_throws m -> m s = (Fulfilled tt, execX m s).
Proof.
  intros Hm. destruct (Hm s) as ([] & Ha). unfold resultX, execX in *.
  destruct (m s) as [o s']. cbn [fst snd] in *. subst o. reflexivity.
Qed.

Ltac never_throws_step :=
  lazymatch goal with
  | |- never_throws (bindX _ _) => apply never_throws_bind; [ | intros ]
  | |- never_throws (retX _) => apply never_throws_ret
  | |- never_throws (try_catch _ _) => apply never_throws_try_catch; intros
  | |- never_throws (try_finally _ _) => apply never_throws_try_finally
  | |- never_throws (fun _ => (Fulfilled _, _)) => apply never_throws_fulfilled
  | |- never_throws (if ?c then _ else _) => destruct c eqn:?
  | |- never_throws (match ?x with _ => _ end) => destruct x eqn:?
  end.

(** Solves the goals the runner's primitive steps leave. *)
Ltac stableX_prim :=
  first [ apply extends_on_eventHandler
        | apply extends_getsX
        | apply extends_perform
        | apply extends_set_context
        | apply extends_set_page
        | apply handles_on_eventHandler
        | apply handles_getsX
        | apply handles_perform
        | apply lifted_getsX; exact _
        | apply lifted_modifyX; [ exact _ | intros; reflexivity ]
        | apply lifted_on_eventHandler ].

Ltac solve_call :=
  unfold setup_call, own_call; repeat split; first [ discriminate | auto ].

Section RunnerProperties.

Context {RT : Js.Runtime}.

Lemma on_eventHandler_eq {A} (m : M CustomEventHandler A) (r : Runner) :
  on_eventHandler m r =
  (Fulfilled (eval m (eventHandler r)),
   with_eventHandler (fun _ => exec m (eventHandler r)) r).
Proof.
  unfold on_eventHandler, eval, exec. destruct (m (eventHandler r)). reflexivity.
Qed.

Lemma never_throws_on_eventHandler {A} (m : M CustomEventHandler A) :
  never_throws (on_eventHandler m).
Proof. intros r. unfold resultX. rewrite on_eventHandler_eq. eexists. reflexivity. Qed.

Lemma bindX_getsX {A B} (f : Runner -> A) (k : A -> MX Runner B) (r : Runner) :
  bindX (getsX f) k r = k (f r) r.
Proof. reflexivity. Qed.

Lemma never_throws_getsX {A} (f : Runner -> A) : never_throws (getsX f).
Proof. intros r. eexists. reflexivity. Qed.

Lemma forEachX_stable (R : Runner -> Runner -> Prop) {PO : PreOrder R} {A}
    (f : A -> MX Runner unit) (l : list A) :
  (forall x, stableX R (f x)) -> stableX R (forEachX f l).
Proof.
  intros Hf. induction l as [| x l IH]; simpl.
  - apply stableX_ret. exact _.
  - apply stableX_bind; [exact _ | apply Hf | intros _; exact IH].
Qed.

Lemma forEachX_never_throws {A} (f : A -> MX Runner unit) (l : list A) :
  (forall x, never_throws (f x)) -> never_throws (forEachX f l).
Proof.
  intros Hf. induction l as [| x l IH]; simpl.
  - apply never_throws_ret.
  - apply never_throws_bind; [apply Hf | intros _; exact IH].
Qed.

Lemma deliver_all_console_log_grows (events : list (string * event)) :
  stable console_log_grows (deliver_all events).
Proof.
  apply deliver_all_stable; [exact _ | intros te _; apply deliver_console_log_grows].
Qed.

Lemma consoleLogger_console_log_grows (lvl : level) (message : string) :
  stable console_log_grows (consoleLogger lvl message).
Proof.
  cbn [consoleLogger CustomEventHandler_loggers]. apply stable_modify. intros h.
  unfold console_log_grows. fields. eexists. reflexivity.
Qed.

Lemma append_lines_grows (lines : log) :
  stable console_log_grows
    (modify (with_consoleLog (fun l => (l ++ lines)%list))).
Proof.
  apply stable_modify. intros h. unfold console_log_grows. fields.
  eexists. reflexivity.
Qed.

Lemma grows_then {A} (m : M CustomEventHandler A) (a b : CustomEventHandler) :
  console_log_grows a b -> stable console_log_grows m ->
  console_log_grows a (exec m b).
Proof. intros Hab Hm. etransitivity; [exact Hab | apply Hm]. Qed.

Lemma same_handles_same_context {A} (m : MX Runner A) :
  stableX same_handles m -> stableX same_context m.
Proof. intros Hm r. destruct (Hm r) as (Hc & _). exact Hc. Qed.

(* ----------------------------------------------------------------- *)
(** *** What each procedure does to the runner *)

(** Runs the runner's primitive steps on a symbolic state. *)
Ltac run_runner :=
  unfold await, await_quiet, listen, Runner_consoleLogger, whenX;
  unfold perform;
  unfold bindX, try_catch, try_finally, retX, throwX, getsX, modifyX;
  cbn [during settles]; rewrite ?on_eventHandler_eq; runner_fields.

Lemma captureScreenshot_never_throws (label : option string) (shot : capture) :
  never_throws (captureScreenshot label shot).
Proof.
  unfold captureScreenshot, Runner_consoleLogger.
  repeat never_throws_step;
    first [ apply never_throws_getsX | apply never_throws_on_eventHandler ].
Qed.

Lemma captureScreenshot_extends (P : call -> Prop) (label : option string)
    (shot : capture) :
  P (PageQuery "iframe#iframeFE") -> (forall f, P (ElementScreenshot f)) ->
  stableX (extends_with P) (captureScreenshot label shot).
Proof.
  intros H1 H2. runner_unfold. stableX_steps.
  all: try stableX_prim; auto.
Qed.

Lemma captureScreenshot_handles (label : option string) (shot : capture) :
  stableX same_handles (captureScreenshot label shot).
Proof.
  runner_unfold. stableX_steps.
  all: try stableX_prim; auto.
Qed.

Lemma captureScreenshot_log (label : option string) (shot : capture) :
  stableX (on_handler console_log_grows) (captureScreenshot label shot).
Proof.
  runner_unfold. stableX_steps.
  all: try stableX_prim.
  all: first [ apply deliver_all_console_log_grows
             | apply consoleLogger_console_log_grows ].
Qed.

Lemma captureScreenshot_calls (label : option string) (shot : capture) (r : Runner) :
  page r <> None ->
  calls (execX (captureScreenshot label shot) r)
  = (calls r ++ capture_calls (id r) label shot)%list.
Proof.
  intros Hp. unfold captureScreenshot, capture_calls, execX.
  rewrite bindX_getsX. destruct (page r); [ | contradiction ].
  destruct (settles (shot_query shot)) as [[|] | e] eqn:Hq;
    destruct (settles (shot_capture shot)) as [[] | e'] eqn:Hc.
  all: repeat (run_runner; rewrite ?Hq, ?Hc; cbn [negb]).
  all: rewrite <- ?app_assoc; reflexivity.
Qed.

Lemma monitorIframe_never_throws (env : environment) : never_throws (monitorIframe env).
Proof.
  unfold monitorIframe, Runner_consoleLogger.
  repeat never_throws_step;
    first [ apply never_throws_getsX | apply never_throws_on_eventHandler ].
Qed.

Lemma monitorIframe_extends (env : environment) :
  stableX (extends_with setup_call) (monitorIframe env).
Proof.
  runner_unfold. stableX_steps.
  all: try stableX_prim; solve_call.
Qed.

Lemma monitorIframe_handles (env : environment) :
  stableX same_handles (monitorIframe env).
Proof.
  runner_unfold. stableX_steps.
  all: try stableX_prim; auto.
Qed.

Lemma waitForAppReady_never_throws (env : environment) :
  never_throws (waitForAppReady env).
Proof.
  unfold waitForAppReady, Runner_consoleLogger.
  repeat never_throws_step;
    first [ apply never_throws_getsX | apply never_throws_on_eventHandler ].
Qed.

Lemma waitForAppReady_extends (env : environment) :
  stableX (extends_with setup_call) (waitForAppReady env).
Proof.
  runner_unfold. stableX_steps.
  all: try stableX_prim; solve_call.
Qed.

Lemma waitForAppReady_handles (env : environment) :
  stableX same_handles (waitForAppReady env).
Proof.
  runner_unfold. stableX_steps.
  all: try stableX_prim; auto.
Qed.

Lemma executeScenario_extends (P : call -> Prop) (env : environment) :
  P ScenarioExecute -> stableX (extends_with P) (executeScenario env).
Proof.
  intros H1. runner_unfold. stableX_steps.
  all: try stableX_prim; auto.
Qed.

Lemma executeScenario_handles (env : environment) :
  stableX same_handles (executeScenario env).
Proof.
  runner_unfold. stableX_steps.
  all: try stableX_prim; auto.
Qed.

(** With a page, [executeScenario] invokes the scenario once and
    settles as the scenario does. *)
Lemma executeScenario_effect (env : environment) (r : Runner) :
  page r <> None ->
  resultX (executeScenario env) r = scenario_settles (env_scenario env) /\
  calls (execX (executeScenario env) r) = (calls r ++ [ScenarioExecute])%list /\
  on_handler console_log_grows r (execX (executeScenario env) r) /\
  (forall error, scenario_settles (env_scenario env) = Thrown error ->
     In (Error, "Scenario execution error: " ++ error)
        (consoleLog (eventHandler (execX (executeScenario env) r)))).
Proof.
  intros Hp. unfold executeScenario, execX, resultX, on_handler.
  rewrite !bindX_getsX. destruct (page r); [ | contradiction ].
  destruct (scenario_settles (env_scenario env)) as [[] | e] eqn:Hs.
  all: repeat (run_runner; rewrite ?Hs).
  all: repeat split; try discriminate.
  all: try (repeat (apply grows_then;
                    [ | first [ apply deliver_all_console_log_grows
                              | apply consoleLogger_console_log_grows
                              | apply append_lines_grows ] ]);
            reflexivity).
  intros error [= <-]. cbn [consoleLogger CustomEventHandler_loggers].
  rewrite exec_modify. fields. apply in_or_app. right. left. reflexivity.
Qed.

Lemma logResponseSummary_never_throws : never_throws logResponseSummary.
Proof.
  unfold logResponseSummary, Runner_consoleLogger.
  repeat never_throws_step; try apply never_throws_on_eventHandler.
  apply forEachX_never_throws. intros [endpoint data].
  apply never_throws_on_eventHandler.
Qed.

Lemma logResponseSummary_extends (P : call -> Prop) :
  stableX (extends_with P) logResponseSummary.
Proof.
  runner_unfold. stableX_steps.
  all: try stableX_prim.
  apply forEachX_stable; [exact _ | intros [endpoint data] ]. stableX_prim.
Qed.

Lemma logResponseSummary_handles : stableX same_handles logResponseSummary.
Proof.
  runner_unfold. stableX_steps.
  all: try stableX_prim.
  apply forEachX_stable; [exact _ | intros [endpoint data] ]. stableX_prim.
Qed.

Lemma bindX_on_eventHandler {A B} (m : M CustomEventHandler A)
    (k : A -> MX Runner B) (r : Runner) :
  bindX (on_eventHandler m) k r =
  k (eval m (eventHandler r))
    (with_eventHandler (fun _ => exec m (eventHandler r)) r).
Proof. unfold bindX. rewrite on_eventHandler_eq. reflexivity. Qed.

Lemma grown_In (r r' : Runner) (line : level * string) :
  on_handler console_log_grows r r' ->
  In line (consoleLog (eventHandler r)) -> In line (consoleLog (eventHandler r')).
Proof.
  intros (lines & Hl) Hin. rewrite Hl. apply in_or_app. left. exact Hin.
Qed.

(** A line written to the console log is still there after later steps. *)
Lemma logged_then (lvl : level) (message : string) (rest : MX Runner unit)
    (r : Runner) :
  stableX (on_handler console_log_grows) rest ->
  In (lvl, message)
     (consoleLog
        (eventHandler (execX (bindX (Runner_consoleLogger lvl message)
                                    (fun _ => rest)) r))).
Proof.
  intros Hrest. unfold execX, Runner_consoleLogger.
  rewrite bindX_on_eventHandler.
  eapply grown_In; [apply Hrest | ].
  runner_fields. cbn [consoleLogger CustomEventHandler_loggers].
  rewrite exec_modify. fields. apply in_or_app. right. left. reflexivity.
Qed.

Lemma pure_reads_log :
  stable console_log_grows getAllResponsesAsObject /\
  stable console_log_grows getStats /\
  stable console_log_grows hasCriticalFailure /\
  stable console_log_grows hasHealthCheckPassed.
Proof.
  repeat split; intros h; exists []; rewrite app_nil_r; reflexivity.
Qed.

Lemma logResponseSummary_logs (r : Runner) :
  In (Info, "=== Runner Summary ===")
     (consoleLog (eventHandler (execX logResponseSummary r))).
Proof.
  unfold logResponseSummary, execX. rewrite !bindX_on_eventHandler.
  apply logged_then.
  stableX_steps.
  all: try (unfold Runner_consoleLogger; stableX_prim;
            apply consoleLogger_console_log_grows).
  apply forEachX_stable; [exact _ | intros [endpoint data] ].
  unfold Runner_consoleLogger. stableX_prim. apply consoleLogger_console_log_grows.
Qed.

(* ----------------------------------------------------------------- *)
(** *** The parts of [run()] *)

Lemma bindX_modifyX {B} (f : Runner -> Runner) (k : unit -> MX Runner B) (r : Runner) :
  bindX (modifyX f) k r = k tt (f r).
Proof. reflexivity. Qed.

Lemma bindX_await_quiet {A B} (c : call) (o : outcome A) (k : A -> MX Runner B)
    (r : Runner) :
  bindX (await_quiet c o) k r =
  match o with
  | Fulfilled a => k a (with_calls (fun l => (l ++ [c])%list) r)
  | Thrown error => (Thrown error, with_calls (fun l => (l ++ [c])%list) r)
  end.
Proof. unfold await_quiet, bindX, perform, modifyX. destruct o; reflexivity. Qed.

Lemma run_setup_unfold (env : environment) :
  run_setup env =
  bindX (await_quiet BrowserNewContext (env_newContext env))
        (fun _ => bindX (modifyX (with_context (Some Handle)))
                        (fun _ => setup_with_context env)).
Proof. reflexivity. Qed.

Lemma setup_with_context_unfold (env : environment) :
  setup_with_context env =
  bindX (await_quiet ContextNewPage (env_newPage env))
        (fun _ => bindX (modifyX (with_page (Some Handle)))
                        (fun _ => setup_with_page env)).
Proof. reflexivity. Qed.

Lemma run_unfold (env : environment) :
  run env = try_finally (run_body env) (run_cleanup env).
Proof. reflexivity. Qed.

Lemma setup_with_page_handles (env : environment) :
  stableX same_handles (setup_with_page env).
Proof.
  unfold setup_with_page. runner_unfold. stableX_steps.
  all: try stableX_prim; auto.
Qed.

Lemma run_setup_extends (env : environment) :
  stableX (extends_with setup_call) (run_setup env).
Proof.
  runner_unfold. stableX_steps.
  all: try stableX_prim; solve_call.
Qed.

Lemma with_page_same_context (p : option handle) :
  stableX same_context (modifyX (with_page p)).
Proof. intros r. reflexivity. Qed.

Lemma setup_with_context_context (env : environment) :
  stableX same_context (setup_with_context env).
Proof.
  rewrite setup_with_context_unfold.
  apply stableX_bind; [exact _ | | intros _ ].
  - apply same_handles_same_context. unfold await_quiet. stableX_steps.
    all: stableX_prim.
  - apply stableX_bind; [exact _ | apply with_page_same_context | intros _ ].
    apply same_handles_same_context, setup_with_page_handles.
Qed.

(** When [run_setup] is fulfilled the runner holds a context and a page. *)
Lemma run_setup_fulfilled (env : environment) (r r1 : Runner) :
  run_setup env r = (Fulfilled tt, r1) ->
  context r1 = Some Handle /\ page r1 = Some Handle /\
  env_newContext env = Fulfilled tt.
Proof.
  rewrite run_setup_unfold, bindX_await_quiet.
  destruct (env_newContext env) as [[] | e]; [ | discriminate ].
  rewrite bindX_modifyX, setup_with_context_unfold, bindX_await_quiet.
  destruct (env_newPage env) as [[] | e]; [ | discriminate ].
  rewrite bindX_modifyX. intros Hrest.
  destruct (setup_with_page_handles env
              (with_page (Some Handle)
                 (with_calls (fun l => (l ++ [ContextNewPage])%list)
                    (with_context (Some Handle)
                       (with_calls (fun l => (l ++ [BrowserNewContext])%list) r)))))
    as (Hc & Hp).
  unfold execX in Hc, Hp. rewrite Hrest in Hc, Hp. cbn [snd] in Hc, Hp.
  rewrite Hc, Hp. auto.
Qed.

Lemma run_gated_extends (env : environment) :
  stableX (extends_with own_call) (run_gated env).
Proof.
  unfold run_gated. unfold Runner_consoleLogger. stableX_steps.
  all: try stableX_prim.
  all: first [ apply captureScreenshot_extends; solve_call
             | apply executeScenario_extends; solve_call
             | apply logResponseSummary_extends ].
Qed.

Lemma run_gated_context (env : environment) :
  stableX same_context (run_gated env).
Proof.
  apply same_handles_same_context.
  unfold run_gated. unfold Runner_consoleLogger. stableX_steps.
  all: try stableX_prim.
  all: first [ apply captureScreenshot_handles
             | apply executeScenario_handles
             | apply logResponseSummary_handles ].
Qed.

Lemma run_catch_extends (P : call -> Prop) (error : string) :
  stableX (extends_with P) (run_catch error).
Proof. unfold run_catch, Runner_consoleLogger. stableX_prim. Qed.

Lemma run_catch_handles (error : string) : stableX same_handles (run_catch error).
Proof. unfold run_catch, Runner_consoleLogger. stableX_prim. Qed.

Lemma run_catch_never_throws (error : string) : never_throws (run_catch error).
Proof. unfold run_catch, Runner_consoleLogger. apply never_throws_on_eventHandler. Qed.

(** The body of [run()] never closes anything and never throws. *)
Lemma run_body_extends (env : environment) :
  stableX (extends_with own_call) (run_body env).
Proof.
  unfold run_body. apply stableX_try_catch; [exact _ | | intros error ].
  - apply stableX_bind; [exact _ | | intros _; apply run_gated_extends ].
    intros r. eapply extends_with_weaken; [ | apply run_setup_extends ].
    intros c (Hc & _). exact Hc.
  - apply run_catch_extends.
Qed.

Lemma run_body_never_throws (env : environment) : never_throws (run_body env).
Proof.
  unfold run_body. apply never_throws_try_catch. apply run_catch_never_throws.
Qed.

(** After the body the runner holds a context exactly when
    [browser.newContext()] was fulfilled. *)
Lemma run_body_context (env : environment) (r : Runner) :
  context r = None ->
  context (execX (run_body env) r)
  = if owns_context env then Some Handle else None.
Proof.
  intros Hnone. unfold run_body, owns_context, execX, try_catch.
  unfold bindX at 1. rewrite run_setup_unfold, bindX_await_quiet.
  destruct (env_newContext env) as [[] | e].
  - rewrite bindX_modifyX.
    set (rc := with_context (Some Handle)
                 (with_calls (fun l => (l ++ [BrowserNewContext])%list) r)).
    pose proof (setup_with_context_context env rc) as Hs. unfold execX in Hs.
    destruct (setup_with_context env rc) as [[[] | e] r1]; cbn [snd] in Hs.
    + pose proof (run_gated_context env r1) as Hg. unfold execX in Hg.
      destruct (run_gated env r1) as [[[] | e] r2]; cbn [snd] in Hg |- *.
      * unfold same_context in *. rewrite Hg, Hs. reflexivity.
      * destruct (run_catch_handles e r2) as (Hc & _). unfold execX in Hc.
        unfold same_context in *. rewrite Hc, Hg, Hs. reflexivity.
    + destruct (run_catch_handles e r1) as (Hc & _). unfold execX in Hc.
      unfold same_context in *. rewrite Hc, Hs. reflexivity.
  - destruct (run_catch_handles e
                (with_calls (fun l => (l ++ [BrowserNewContext])%list) r))
      as (Hc & _).
    unfold execX in Hc. rewrite Hc. runner_fields. exact Hnone.
Qed.

(** The [finally] block: one [context.close()] when a context is held,
    and the block settles as that call does. *)
Lemma run_cleanup_effect (env : environment) (r : Runner) :
  resultX (run_cleanup env) r
  = match context r with Some _ => settles (env_close env) | None => Fulfilled tt end /\
  calls (execX (run_cleanup env) r)
  = (calls r ++ match context r with Some _ => [ContextClose] | None => [] end)%list /\
  on_handler console_log_grows r (execX (run_cleanup env) r).
Proof.
  unfold run_cleanup, resultX, execX, on_handler. rewrite !bindX_getsX.
  destruct (context r).
  - run_runner. repeat split. apply deliver_all_console_log_grows.
  - unfold retX. cbn [fst snd]. rewrite app_nil_r. repeat split. reflexivity.
Qed.

(** The state after [try { body } finally { cleanup }] is the state
    after the block, however it settles. *)
Lemma execX_try_finally {A} (body : MX Runner A) (cleanup : MX Runner unit) (r : Runner) :
  execX (try_finally body cleanup) r = execX cleanup (execX body r).
Proof.
  unfold execX, try_finally. destruct (body r) as [o r1]. cbn [snd].
  destruct (cleanup r1) as [[[] | e] r2]; reflexivity.
Qed.

(** A body that never throws, followed by a [finally] block: the whole
    settles as the block does. *)
Lemma resultX_try_finally (body cleanup : MX Runner unit) (r : Runner) :
  never_throws body ->
  resultX (try_finally body cleanup) r = resultX cleanup (execX body r).
Proof.
  intros Hb. unfold resultX, try_finally.
  rewrite (unit_fulfilled body r Hb).
  destruct (cleanup (execX body r)) as [[[] | e] r2]; reflexivity.
Qed.

(** [run()] rejects only when its own [context.close()] does: every
    other failure is caught and logged. *)
Lemma run_settles (env : environment) (r : Runner) :
  resultX (run env) r
  = match context (execX (run_body env) r) with
    | Some _ => settles (env_close env)
    | None => Fulfilled tt
    end.
Proof.
  rewrite run_unfold, resultX_try_finally by apply run_body_never_throws.
  apply run_cleanup_effect.
Qed.

Lemma occurrences_app (c : call) (l1 l2 : list call) :
  occurrences c (l1 ++ l2) = (occurrences c l1 + occurrences c l2)%nat.
Proof. apply count_occ_app. Qed.

Lemma occurrences_none (c : call) (P : call -> Prop) (l : list call) :
  Forall P l -> ~ P c -> occurrences c l = 0%nat.
Proof.
  intros Hall Hc. apply count_occ_not_In. intros Hin.
  rewrite Forall_forall in Hall. apply Hc, Hall, Hin.
Qed.

(** One session, whatever the browser does: [run()] settles as its
    [context.close()] does if it came to own a context, and is
    fulfilled otherwise; it closes its context exactly once if it came
    to own one and never otherwise; the close is its last call; it
    never closes the browser. *)
Lemma run_releases_once (env : environment) (t0 url : string) (id : Z) :
  let r0 := new_Runner t0 url id in
  resultX (run env) r0
  = (if owns_context env then settles (env_close env) else Fulfilled tt) /\
  (exists made,
      calls (execX (run env) r0)
      = (made ++ if owns_context env then [ContextClose] else [])%list /\
      Forall own_call made) /\
  occurrences ContextClose (calls (execX (run env) r0))
  = (if owns_context env then 1 else 0)%nat /\
  occurrences BrowserClose (calls (execX (run env) r0)) = 0%nat.
Proof.
  cbv zeta. set (r0 := new_Runner t0 url id).
  assert (Hres : resultX (run env) r0
                 = if owns_context env then settles (env_close env) else Fulfilled tt).
  { rewrite run_settles, run_body_context by reflexivity.
    destruct (owns_context env); reflexivity. }
  assert (Hcalls : exists made,
             calls (execX (run env) r0)
             = (made ++ if owns_context env then [ContextClose] else [])%list /\
             Forall own_call made).
  { rewrite run_unfold, execX_try_finally.
    destruct (run_cleanup_effect env (execX (run_body env) r0)) as (_ & Hc & _).
    rewrite Hc, run_body_context by reflexivity.
    destruct (run_body_extends env r0) as (_ & _ & made & Hm & Hall).
    exists made. rewrite Hm. cbn [calls r0 new_Runner app].
    split; [ | exact Hall ]. destruct (owns_context env); reflexivity. }
  split; [exact Hres | split; [exact Hcalls | ] ].
  destruct Hcalls as (made & -> & Hall). rewrite !occurrences_app.
  rewrite (occurrences_none ContextClose own_call made Hall)
    by (intros (H & _); apply H; reflexivity).
  rewrite (occurrences_none BrowserClose own_call made Hall)
    by (intros (_ & H); apply H; reflexivity).
  destruct (owns_context env); split; reflexivity.
Qed.

End RunnerProperties.
(* ----------------------------------------------------------------- *)
(** *** The critical check *)

Section CriticalCheck.

Context {RT : Js.Runtime}.

Lemma with_eventHandler_same (r : Runner) :
  with_eventHandler (fun _ => eventHandler r) r = r.
Proof. destruct r. reflexivity. Qed.

Lemma bindX_never_throws {B} (m : MX Runner unit) (k : unit -> MX Runner B)
    (r : Runner) :
  never_throws m -> bindX m k r = k tt (execX m r).
Proof. intros Hm. unfold bindX. rewrite (unit_fulfilled m r Hm). reflexivity. Qed.

Lemma run_body_after_setup (env : environment) (r0 r1 : Runner) :
  run_setup env r0 = (Fulfilled tt, r1) ->
  run_body env r0 = try_catch (run_gated env) run_catch r1.
Proof. intros Hs. unfold run_body, try_catch, bindX. rewrite Hs. reflexivity. Qed.

Lemma run_gated_unfold (env : environment) (r : Runner) :
  run_gated env r =
  if eval hasCriticalFailure (eventHandler r) then
    bindX (Runner_consoleLogger Error
             "Critical endpoint failure detected - stopping runner and taking screenshot")
          (fun _ => captureScreenshot None (env_shot_failure env)) r
  else
    bindX (captureScreenshot (Some "before-scenario") (env_shot_before env))
          (fun _ => bindX (executeScenario env)
             (fun _ => bindX (captureScreenshot (Some "after-scenario")
                                (env_shot_after env))
                (fun _ => logResponseSummary))) r.
Proof.
  unfold run_gated. rewrite bindX_on_eventHandler.
  change (exec hasCriticalFailure (eventHandler r)) with (eventHandler r).
  rewrite with_eventHandler_same.
  destruct (eval hasCriticalFailure (eventHandler r)); reflexivity.
Qed.

Lemma capture_calls_not_scenario (this_id : Z) (label : option string) (shot : capture) :
  ~ In ScenarioExecute (capture_calls this_id label shot).
Proof.
  unfold capture_calls.
  destruct (settles (shot_query shot)) as [[|] | e]; cbn [In];
    intros H; repeat (destruct H as [H | H]; [discriminate H | ]); exact H.
Qed.

Lemma logger_effect (lvl : level) (message : string) (r : Runner) :
  let r' := execX (Runner_consoleLogger lvl message) r in
  calls r' = calls r /\ context r' = context r /\ page r' = page r /\
  id r' = id r /\ url r' = url r /\
  In (lvl, message) (consoleLog (eventHandler r')).
Proof.
  cbv zeta. unfold execX, Runner_consoleLogger. rewrite on_eventHandler_eq.
  runner_fields. cbn [consoleLogger CustomEventHandler_loggers].
  rewrite exec_modify. fields. repeat split.
  apply in_or_app. right. left. reflexivity.
Qed.

Lemma logger_never_throws (lvl : level) (message : string) :
  never_throws (Runner_consoleLogger lvl message).
Proof. unfold Runner_consoleLogger. apply never_throws_on_eventHandler. Qed.

(** The abort path: the failure line, one [captureScreenshot()], and
    nothing else. *)
Lemma abort_path (env : environment) (r1 : Runner) :
  page r1 <> None ->
  eval hasCriticalFailure (eventHandler r1) = true ->
  exists r2,
    try_catch (run_gated env) run_catch r1 = (Fulfilled tt, r2) /\
    calls r2 = (calls r1 ++ capture_calls (id r1) None (env_shot_failure env))%list /\
    context r2 = context r1 /\
    In (Error,
        "Critical endpoint failure detected - stopping runner and taking screenshot")
       (consoleLog (eventHandler r2)).
Proof.
  intros Hpage Hfailed.
  assert (Hnt : never_throws
                  (bindX (Runner_consoleLogger Error
                            "Critical endpoint failure detected - stopping runner and taking screenshot")
                         (fun _ => captureScreenshot None (env_shot_failure env)))).
  { apply never_throws_bind; [apply logger_never_throws | intros _ ].
    apply captureScreenshot_never_throws. }
  unfold try_catch. rewrite run_gated_unfold, Hfailed.
  rewrite (unit_fulfilled _ r1 Hnt). eexists. split; [reflexivity | ].
  split; [ | split ].
  - unfold execX. rewrite (bindX_never_throws _ _ _ (logger_never_throws _ _)).
    destruct (logger_effect Error
                "Critical endpoint failure detected - stopping runner and taking screenshot"
                r1) as (Hc & _ & Hp & Hi & _).
    fold (execX (captureScreenshot None (env_shot_failure env))
            (execX (Runner_consoleLogger Error
                      "Critical endpoint failure detected - stopping runner and taking screenshot")
                   r1)).
    rewrite captureScreenshot_calls by (rewrite Hp; exact Hpage).
    rewrite Hc, Hi. reflexivity.
  - unfold execX. rewrite (bindX_never_throws _ _ _ (logger_never_throws _ _)).
    destruct (logger_effect Error
                "Critical endpoint failure detected - stopping runner and taking screenshot"
                r1) as (_ & Hctx & _).
    destruct (captureScreenshot_handles None (env_shot_failure env)
                (execX (Runner_consoleLogger Error
                          "Critical endpoint failure detected - stopping runner and taking screenshot")
                       r1)) as (Hc2 & _).
    unfold execX in Hc2 |- *. rewrite Hc2. exact Hctx.
  - apply logged_then. apply captureScreenshot_log.
Qed.

(** The path through the scenario: a screenshot, the scenario, and,
    when the scenario is fulfilled, a second screenshot and the
    summary; when it throws, the error line of [run()]. *)
Lemma scenario_path (env : environment) (r1 : Runner) :
  page r1 <> None ->
  eval hasCriticalFailure (eventHandler r1) = false ->
  exists r2,
    try_catch (run_gated env) run_catch r1 = (Fulfilled tt, r2) /\
    calls r2 =
      (calls r1
         ++ capture_calls (id r1) (Some "before-scenario") (env_shot_before env)
         ++ ScenarioExecute ::
            match scenario_settles (env_scenario env) with
            | Fulfilled _ =>
                capture_calls (id r1) (Some "after-scenario") (env_shot_after env)
            | Thrown _ => []
            end)%list /\
    context r2 = context r1 /\
    match scenario_settles (env_scenario env) with
    | Fulfilled _ =>
        In (Info, "=== Runner Summary ===") (consoleLog (eventHandler r2))
    | Thrown error =>
        In (Error, "Error: " ++ error) (consoleLog (eventHandler r2))
    end.
Proof.
  intros Hpage Hfailed.
  unfold try_catch. rewrite run_gated_unfold, Hfailed.
  rewrite (bindX_never_throws _ _ _
             (captureScreenshot_never_throws (Some "before-scenario")
                                             (env_shot_before env))).
  set (r2 := execX (captureScreenshot (Some "before-scenario") (env_shot_before env)) r1).
  assert (Hcalls2 : calls r2 = (calls r1 ++ capture_calls (id r1) (Some "before-scenario")
                                               (env_shot_before env))%list)
    by (apply captureScreenshot_calls; exact Hpage).
  destruct (captureScreenshot_handles (Some "before-scenario") (env_shot_before env) r1)
    as (Hctx2 & Hpage2). fold r2 in Hctx2, Hpage2.
  destruct (captureScreenshot_extends (fun _ => True) (Some "before-scenario")
              (env_shot_before env) I (fun _ => I) r1) as (_ & Hid2 & _).
  fold r2 in Hid2.
  assert (Hp2 : page r2 <> None) by (rewrite Hpage2; exact Hpage).
  destruct (executeScenario_effect env r2 Hp2) as (Hres & Hcalls3 & _ & _).
  destruct (executeScenario_handles env r2) as (Hctx3 & Hpage3).
  destruct (executeScenario_extends (fun _ => True) env I r2) as (_ & Hid3 & _).
  set (r3 := execX (executeScenario env) r2) in *.
  unfold bindX at 1.
  assert (Hpair : executeScenario env r2 = (scenario_settles (env_scenario env), r3)).
  { unfold resultX in Hres. unfold r3, execX.
    destruct (executeScenario env r2). cbn [fst snd] in *. subst. reflexivity. }
  rewrite Hpair.
  destruct (scenario_settles (env_scenario env)) as [[] | error].
  - rewrite (bindX_never_throws _ _ _
               (captureScreenshot_never_throws (Some "after-scenario")
                                               (env_shot_after env))).
    set (r4 := execX (captureScreenshot (Some "after-scenario") (env_shot_after env)) r3).
    rewrite (unit_fulfilled _ r4 logResponseSummary_never_throws).
    eexists. split; [reflexivity | ].
    destruct (captureScreenshot_handles (Some "after-scenario") (env_shot_after env) r3)
      as (Hctx4 & _). fold r4 in Hctx4.
    destruct (logResponseSummary_handles r4) as (Hctx5 & _).
    destruct (logResponseSummary_extends no_call r4) as (_ & _ & made & Hm & Hnone).
    assert (made = []) as ->.
    { destruct made as [| c made]; [reflexivity | ]. inversion Hnone as [| ? ? Hc].
      destruct Hc. }
    rewrite app_nil_r in Hm. split; [ | split ].
    + rewrite Hm. unfold r4.
      rewrite captureScreenshot_calls by (rewrite Hpage3; exact Hp2).
      rewrite Hcalls3, Hcalls2, Hid3, Hid2. rewrite <- !app_assoc. reflexivity.
    + rewrite Hctx5, Hctx4, Hctx3, Hctx2. reflexivity.
    + apply logResponseSummary_logs.
  - destruct (logger_effect Error ("Error: " ++ error) r3)
      as (Hc & Hctx & _ & _ & _ & Hin).
    rewrite (unit_fulfilled _ r3 (run_catch_never_throws error)).
    eexists. split; [reflexivity | ]. unfold run_catch.
    split; [ | split ].
    + rewrite Hc, Hcalls3, Hcalls2. rewrite <- !app_assoc. reflexivity.
    + rewrite Hctx, Hctx3, Hctx2. reflexivity.
    + exact Hin.
Qed.

(** The setup of a session takes no screenshot. *)
Lemma run_setup_no_capture (env : environment) :
  stableX (extends_with no_capture) (run_setup env).
Proof.
  runner_unfold. stableX_steps.
  all: try stableX_prim; unfold no_capture; intros; discriminate.
Qed.

(** C7. Take a session whose setup reaches the critical check in state
    [r1]. If [hasCriticalFailure()] is true there, the runner writes the
    failure line, runs one unlabelled [captureScreenshot()], closes its
    context and makes no other call: the scenario is not invoked. The
    screenshot is attempted, not guaranteed: the element is queried,
    and the capture is called exactly when the query returns an
    element. If the flag is false, the runner takes the "before"
    screenshot, invokes the scenario, and then either takes the "after"
    screenshot and logs the summary, or logs the scenario's error; it
    closes its context in both cases. So the scenario is invoked
    exactly when the flag is false, and either way [run()] settles as
    its [context.close()] does. *)
Theorem critical_failure_short_circuits (env : environment) (t0 url : string)
    (this_id : Z) (r1 : Runner) :
  run_setup env (new_Runner t0 url this_id) = (Fulfilled tt, r1) ->
  let final := execX (run env) (new_Runner t0 url this_id) in
  let failed := eval hasCriticalFailure (eventHandler r1) in
  (failed = true ->
   calls final
   = (calls r1 ++ capture_calls this_id None (env_shot_failure env)
        ++ [ContextClose])%list /\
   In (Error,
       "Critical endpoint failure detected - stopping runner and taking screenshot")
      (consoleLog (eventHandler final)) /\
   ((exists filename, In (ElementScreenshot filename) (calls final)) <->
    settles (shot_query (env_shot_failure env)) = Fulfilled true)) /\
  (failed = false ->
   calls final
   = (calls r1
        ++ capture_calls this_id (Some "before-scenario") (env_shot_before env)
        ++ ScenarioExecute ::
           match scenario_settles (env_scenario env) with
           | Fulfilled _ =>
               capture_calls this_id (Some "after-scenario") (env_shot_after env)
           | Thrown _ => []
           end
        ++ [ContextClose])%list /\
   match scenario_settles (env_scenario env) with
   | Fulfilled _ =>
       In (Info, "=== Runner Summary ===") (consoleLog (eventHandler final))
   | Thrown error =>
       In (Error, "Error: " ++ error) (consoleLog (eventHandler final))
   end) /\
  (In ScenarioExecute (calls final) <-> failed = false) /\
  resultX (run env) (new_Runner t0 url this_id) = settles (env_close env).
Proof.
  intros Hsetup. cbv zeta.
  set (r0 := new_Runner t0 url this_id) in *.
  destruct (run_setup_fulfilled env r0 r1 Hsetup) as (Hctx & Hpage & _).
  destruct (run_setup_extends env r0) as (_ & Hid & made & Hmade & Hall).
  unfold execX in Hid, Hmade. rewrite Hsetup in Hid, Hmade. cbn [snd] in Hid, Hmade.
  change (id r0) with this_id in Hid. change (calls r0) with (@nil call) in Hmade.
  cbn [app] in Hmade.
  assert (Hp : page r1 <> None) by (rewrite Hpage; discriminate).
  assert (Hfinal : forall r2,
             try_catch (run_gated env) run_catch r1 = (Fulfilled tt, r2) ->
             context r2 = context r1 ->
             calls (execX (run env) r0) = (calls r2 ++ [ContextClose])%list /\
             on_handler console_log_grows r2 (execX (run env) r0)).
  { intros r2 Hbody Hc2.
    rewrite run_unfold, execX_try_finally.
    unfold execX at 2 4. rewrite (run_body_after_setup env r0 r1 Hsetup), Hbody.
    cbn [snd]. destruct (run_cleanup_effect env r2) as (_ & Hcl & Hlog).
    rewrite Hcl, Hc2, Hctx. split; [reflexivity | exact Hlog]. }
  assert (Hnot : ~ In ScenarioExecute (calls r1)).
  { rewrite Hmade. intros Hin. rewrite Forall_forall in Hall.
    destruct (Hall _ Hin) as (_ & Hn). apply Hn. reflexivity. }
  assert (Htrue : eval hasCriticalFailure (eventHandler r1) = true ->
            calls (execX (run env) r0)
            = (calls r1 ++ capture_calls this_id None (env_shot_failure env)
                 ++ [ContextClose])%list /\
            In (Error,
                "Critical endpoint failure detected - stopping runner and taking screenshot")
               (consoleLog (eventHandler (execX (run env) r0)))).
  { intros Hf. destruct (abort_path env r1 Hp Hf) as (r2 & Hbody & Hc & Hcx & Hin).
    destruct (Hfinal r2 Hbody Hcx) as (Hcalls & Hlog).
    rewrite Hcalls, Hc, Hid, <- app_assoc. split; [reflexivity | ].
    eapply grown_In; [exact Hlog | exact Hin]. }
  assert (Hfalse : eval hasCriticalFailure (eventHandler r1) = false ->
            calls (execX (run env) r0)
            = (calls r1
                 ++ capture_calls this_id (Some "before-scenario") (env_shot_before env)
                 ++ ScenarioExecute ::
                    match scenario_settles (env_scenario env) with
                    | Fulfilled _ =>
                        capture_calls this_id (Some "after-scenario") (env_shot_after env)
                    | Thrown _ => []
                    end
                 ++ [ContextClose])%list /\
            match scenario_settles (env_scenario env) with
            | Fulfilled _ =>
                In (Info, "=== Runner Summary ===")
                   (consoleLog (eventHandler (execX (run env) r0)))
            | Thrown error =>
                In (Error, "Error: " ++ error)
                   (consoleLog (eventHandler (execX (run env) r0)))
            end).
  { intros Hf. destruct (scenario_path env r1 Hp Hf) as (r2 & Hbody & Hc & Hcx & Hin).
    destruct (Hfinal r2 Hbody Hcx) as (Hcalls & Hlog).
    rewrite Hcalls, Hc, Hid. rewrite <- !app_assoc. cbn [app].
    split; [reflexivity | ].
    destruct (scenario_settles (env_scenario env)); eapply grown_In; eassumption. }
  assert (Hshot : forall filename, ~ In (ElementScreenshot filename) (calls r1)).
  { intros filename Hin.
    destruct (run_setup_no_capture env r0) as (_ & _ & made' & Hmade' & Hall').
    unfold execX in Hmade'. rewrite Hsetup in Hmade'. cbn [snd] in Hmade'.
    change (calls r0) with (@nil call) in Hmade'. cbn [app] in Hmade'.
    rewrite Hmade' in Hin. rewrite Forall_forall in Hall'.
    exact (Hall' _ Hin filename eq_refl). }
  split; [ | split; [exact Hfalse | split ] ].
  - intros Hf. destruct (Htrue Hf) as (Hcalls & Hline).
    split; [exact Hcalls | split; [exact Hline | ] ].
    rewrite Hcalls. unfold capture_calls. split.
    + intros (filename & Hin).
      apply in_app_or in Hin. destruct Hin as [Hin | Hin]; [destruct (Hshot _ Hin) | ].
      destruct (settles (shot_query (env_shot_failure env))) as [[] | e];
        [reflexivity | exfalso | exfalso];
        cbn [app] in Hin; destruct Hin as [Hin | [Hin | []]]; discriminate Hin.
    + intros ->. eexists. apply in_or_app. right. right. left. reflexivity.
  - destruct (eval hasCriticalFailure (eventHandler r1)) eqn:Hf.
    + destruct (Htrue eq_refl) as (Hcalls & _). rewrite Hcalls.
      split; [ | discriminate ]. intros Hin. exfalso.
      apply in_app_or in Hin. destruct Hin as [Hin | Hin]; [exact (Hnot Hin) | ].
      apply in_app_or in Hin. destruct Hin as [Hin | [Hin | []]];
        [exact (capture_calls_not_scenario _ _ _ Hin) | discriminate Hin].
    + destruct (Hfalse eq_refl) as (Hcalls & _). rewrite Hcalls.
      split; [reflexivity | intros _ ].
      apply in_or_app. right. apply in_or_app. right. left. reflexivity.
  - rewrite run_settles. unfold execX.
    rewrite (run_body_after_setup env r0 r1 Hsetup).
    pose proof (run_gated_context env r1) as Hg. unfold execX in Hg.
    unfold try_catch. destruct (run_gated env r1) as [[[] | e] r2]; cbn [snd] in Hg |- *.
    + unfold same_context in Hg. rewrite Hg, Hctx. reflexivity.
    + destruct (run_catch_handles e r2) as (Hc & _). unfold execX in Hc.
      unfold same_context in Hg. rewrite Hc, Hg, Hctx. reflexivity.
Qed.

End CriticalCheck.

(* ----------------------------------------------------------------- *)
(** *** Flags and counters over a session *)

Section SessionLifetime.

Context {RT : Js.Runtime}.

Lemma pure_reads_advance :
  stable advances getAllResponsesAsObject /\
  stable advances getStats /\
  stable advances hasCriticalFailure /\
  stable advances hasHealthCheckPassed.
Proof.
  split; [ | split; [ | split ] ]; intros h; change (advances h h); reflexivity.
Qed.

Lemma log_lines_advance (f : log -> log) :
  stable advances (modify (with_consoleLog f)).
Proof.
  apply stable_modify. intros h. unfold advances. fields. repeat split; auto; lia.
Qed.

(** Over a whole [run()] the handler's flags and counters only advance. *)
Lemma run_advances (env : environment) : stableX (on_handler advances) (run env).
Proof.
  runner_unfold. stableX_steps.
  all: try stableX_prim.
  all: try apply deliver_all_advances.
  all: try apply pure_reads_advance.
  all: try (cbn [consoleLogger CustomEventHandler_loggers]; apply log_lines_advance).
  all: try (apply forEachX_stable; [exact _ | intros [endpoint data] ];
            stableX_prim; cbn [consoleLogger CustomEventHandler_loggers];
            apply log_lines_advance).
Qed.

(** C4. Both flags are false in a new handler. Whatever events are
    handled afterwards (console, request and response events, and
    resumed endpoint checks, in any order), a flag that is true stays
    true, and so it does over a whole [run()] of the session;
    [hasCriticalFailure()] and [hasHealthCheckPassed()] return the
    flags and leave the handler as it was. *)
Theorem flags_are_sticky (t0 : string) (h : CustomEventHandler)
    (events : list (string * event)) :
  (criticalEndpointFailed (new_CustomEventHandler t0) = false /\
   healthCheckPassed (new_CustomEventHandler t0) = false) /\
  (criticalEndpointFailed h = true ->
   criticalEndpointFailed (exec (deliver_all events) h) = true) /\
  (healthCheckPassed h = true ->
   healthCheckPassed (exec (deliver_all events) h) = true) /\
  (forall (env : environment) (r : Runner),
      (criticalEndpointFailed (eventHandler r) = true ->
       criticalEndpointFailed (eventHandler (execX (run env) r)) = true) /\
      (healthCheckPassed (eventHandler r) = true ->
       healthCheckPassed (eventHandler (execX (run env) r)) = true)) /\
  (hasCriticalFailure h = (criticalEndpointFailed h, h) /\
   hasHealthCheckPassed h = (healthCheckPassed h, h)).
Proof.
  destruct (deliver_all_advances events h) as (Hf & Hp & _).
  split; [split; reflexivity | ].
  split; [exact Hf | split; [exact Hp | split; [ | split; reflexivity ] ] ].
  intros env r. destruct (run_advances env r) as (Hf' & Hp' & _).
  split; assumption.
Qed.

(** C5. The three counters reported by [getStats()] never decrease:
    each call of [handleConsole], [handleRequest] or [handleResponse]
    leaves a counter unchanged or adds one to it; over any sequence of
    events (resumed endpoint checks included), and over a whole
    [run()] of the session, every counter ends at least where it
    started; and [getStats()] itself changes nothing. *)
Theorem counters_never_decrease (h : CustomEventHandler) :
  let stats := fun h => eval getStats h in
  let same_or_next := fun (f : Stats -> Z) (h' : CustomEventHandler) =>
    f (stats h') = f (stats h) \/ f (stats h') = f (stats h) + 1 in
  (forall m : M CustomEventHandler unit,
      (exists msg, m = handleConsole msg) \/
      (exists request, m = handleRequest request) \/
      (exists response, m = handleResponse response) ->
      same_or_next totalRequests (exec m h) /\
      same_or_next consoleErrors (exec m h) /\
      same_or_next serverErrors (exec m h)) /\
  (forall events : list (string * event),
      totalRequests (stats h) <= totalRequests (stats (exec (deliver_all events) h)) /\
      consoleErrors (stats h) <= consoleErrors (stats (exec (deliver_all events) h)) /\
      serverErrors (stats h) <= serverErrors (stats (exec (deliver_all events) h))) /\
  (forall (env : environment) (r : Runner),
      eventHandler r = h ->
      totalRequests (stats h)
        <= totalRequests (stats (eventHandler (execX (run env) r))) /\
      consoleErrors (stats h)
        <= consoleErrors (stats (eventHandler (execX (run env) r))) /\
      serverErrors (stats h)
        <= serverErrors (stats (eventHandler (execX (run env) r)))) /\
  exec getStats h = h.
Proof.
  cbv zeta. split; [ | split; [ | split ] ].
  - intros m [[msg ->] | [[request ->] | [response ->]]]; cbn.
    + destruct (handleConsole_counters msg h) as (-> & -> & He). auto.
    + destruct (handleRequest_counters request h) as (-> & -> & ->). auto.
    + destruct (handleResponse_counters response h) as (-> & -> & ->).
      destruct (resp_status response >=? 500); rewrite ?Z.add_0_r; auto.
  - intros events.
    destruct (deliver_all_advances events h) as (_ & _ & Hr & He & Hs).
    cbn. auto.
  - intros env r <-.
    destruct (run_advances env r) as (_ & _ & Hr & He & Hs).
    cbn. auto.
  - reflexivity.
Qed.

End SessionLifetime.

(* ================================================================= *)
(** ** Properties of the launcher *)

Lemma interleaving_ext (f : remaining) (merged : list (actor * call)) :
  interleaving f merged ->
  forall g : remaining, (forall i, f i = g i) -> interleaving g merged.
Proof.
  induction 1 as [f Hdone | f i c rest merged Hfi Hrest IH]; intros g Hext.
  - apply interleaving_done. intros i. rewrite <- Hext. apply Hdone.
  - apply (interleaving_step g i c rest); [rewrite <- Hext; exact Hfi | ].
    apply IH. intros j. unfold advance. destruct (Nat.eqb j i); [reflexivity | apply Hext].
Qed.


Lemma interleaving_one (i : nat) (made : list call) :
  forall (f : remaining) (merged : list (actor * call)),
    f i = made ->
    interleaving (advance f i []) merged ->
    interleaving f (tagged i made ++ merged).
Proof.
  induction made as [| c made IH]; intros f merged Hfi Hrest.
  - cbn [tagged map app]. apply (interleaving_ext _ _ Hrest).
    intros j. unfold advance. destruct (Nat.eqb j i) eqn:E; [ | reflexivity ].
    apply Nat.eqb_eq in E. subst j. symmetry. exact Hfi.
  - cbn [tagged map app]. apply (interleaving_step f i c made); [exact Hfi | ].
    apply IH.
    + unfold advance. rewrite Nat.eqb_refl. reflexivity.
    + apply (interleaving_ext _ _ Hrest). intros j. unfold advance.
      destruct (Nat.eqb j i); reflexivity.
Qed.

Lemma interleaving_sequential_from (promises : list (outcome unit * list call)) :
  forall (k : nat) (f : remaining),
    (forall i, f (k + i)%nat = calls_of promises i) ->
    (forall j, (j < k)%nat -> f j = []) ->
    interleaving f (sequential_from k promises).
Proof.
  induction promises as [| p rest IH]; intros k f Hf Hlow.
  - apply interleaving_done. intros i.
    destruct (Nat.lt_ge_cases i k) as [Hlt | Hge]; [apply Hlow; exact Hlt | ].
    replace i with (k + (i - k))%nat by lia. rewrite Hf. unfold calls_of.
    destruct (i - k)%nat; reflexivity.
  - cbn [sequential_from]. apply interleaving_one.
    + specialize (Hf 0%nat). rewrite Nat.add_0_r in Hf. exact Hf.
    + apply IH.
      * intros i. unfold advance.
        destruct (Nat.eqb (S k + i) k) eqn:E; [apply Nat.eqb_eq in E; lia | ].
        replace (S k + i)%nat with (k + S i)%nat by lia. rewrite Hf. reflexivity.
      * intros j Hj. unfold advance. destruct (Nat.eqb j k) eqn:E; [reflexivity | ].
        apply Nat.eqb_neq in E. apply Hlow. lia.
Qed.

(** Running the sessions one after the other is one of the merges. *)
Lemma interleaving_sequential (promises : list (outcome unit * list call)) :
  interleaving (calls_of promises) (sequential_from 0 promises).
Proof.
  apply interleaving_sequential_from; [intros i; reflexivity | intros j Hj; lia].
Qed.


Section LauncherProperties.

Context {RT : Js.Runtime}.

(** A session's promise rejects only when the session came to own a
    context and its [context.close()] rejects. *)
Lemma runner_promise_settles (URLS : list string) (i : nat) (input : session_input) :
  fst (runner_promise URLS i input)
  = if session_owns_context URLS input then settles (env_close (env input))
    else Fulfilled tt.
Proof.
  unfold runner_promise, session_owns_context.
  destruct (nth_error URLS (pick input)) as [u |]; [ | reflexivity ].
  destruct (String.eqb u ""); [reflexivity | ]. cbn [negb andb].
  destruct (run_releases_once (env input) (created input) u (Z.of_nat i)) as (Hres & _).
  unfold resultX in Hres.
  destruct (run (env input) (new_Runner (created input) u (Z.of_nat i))).
  exact Hres.
Qed.


Lemma nth_error_runnerPromises (count : nat) (URLS : list string)
    (input_of : nat -> session_input) (i : nat) :
  (i < count)%nat ->
  nth_error (runnerPromises count URLS input_of) i
  = Some (runner_promise URLS i (input_of i)).
Proof.
  intros Hi. unfold runnerPromises.
  rewrite nth_error_map, nth_error_seq.
  destruct (Nat.ltb_spec i count); [reflexivity | lia].
Qed.

(** Every promise is fulfilled when no [context.close()] rejects. *)
Lemma runnerPromises_fulfilled (count : nat) (URLS : list string)
    (input_of : nat -> session_input) :
  (forall i, (i < count)%nat ->
             session_owns_context URLS (input_of i) = true ->
             settles (env_close (env (input_of i))) = Fulfilled tt) ->
  Forall (fun p => fst p = Fulfilled tt) (runnerPromises count URLS input_of).
Proof.
  intros Hclose. unfold runnerPromises. apply Forall_map, Forall_forall. intros i Hi.
  apply in_seq in Hi. rewrite runner_promise_settles.
  destruct (session_owns_context URLS (input_of i)) eqn:Hown; [ | reflexivity ].
  apply Hclose; [lia | exact Hown].
Qed.


End LauncherProperties.

(* ================================================================= *)
(** ** Further properties of CustomEventHandler *)

(* ----------------------------------------------------------------- *)
(** *** What the counters count *)

Section Counting.

Context {RT : Js.Runtime}.

Lemma deliver_counters (te : string * event) (h : CustomEventHandler) :
  let h' := exec (deliver te) h in
  requestCount h' = requestCount h + (if is_request (snd te) then 1 else 0) /\
  errorCount h' = errorCount h + (if is_console_error (snd te) then 1 else 0) /\
  serverErrorCount h' = serverErrorCount h + (if is_server_error (snd te) then 1 else 0).
Proof.
  destruct te as [t e]. cbv zeta. destruct e; cbn [snd is_request is_console_error is_server_error].
  - hooks_unfold. run_monad. split_tests; fields; cbn [snd]; repeat split; lia.
  - hooks_unfold. run_monad. split_tests; fields; cbn [snd]; repeat split; lia.
  - hooks_unfold. run_monad. split_tests; fields; cbn [snd]; repeat split; lia.
  - rewrite exec_deliver_settled. destruct (nth_error (awaiting h) k) as [p |].
    + hooks_unfold. run_monad. split_tests; fields; cbn [snd]; repeat split; lia.
    + fields. repeat split; lia.
Qed.

Lemma count_events_cons (p : event -> bool) (te : string * event) events :
  count_events p (te :: events) = (if p (snd te) then 1 else 0) + count_events p events.
Proof.
  unfold count_events. cbn [filter]. destruct (p (snd te)); cbn [List.length]; lia.
Qed.

Lemma deliver_all_counters (events : list (string * event)) (h : CustomEventHandler) :
  let h' := exec (deliver_all events) h in
  requestCount h' = requestCount h + count_events is_request events /\
  errorCount h' = errorCount h + count_events is_console_error events /\
  serverErrorCount h' = serverErrorCount h + count_events is_server_error events.
Proof.
  revert h. induction events as [| te events IH]; intros h; cbv zeta.
  - unfold count_events. cbn. repeat split; lia.
  - rewrite exec_deliver_all_cons. destruct (IH (exec (deliver te) h)) as (A & B & C).
    destruct (deliver_counters te h) as (A' & B' & C').
    rewrite A, B, C, A', B', C', !count_events_cons. repeat split; lia.
Qed.

(** X1. After any sequence of events handled by a new handler,
    [getStats()] reports exactly the number of request events as
    [totalRequests] (whatever their resource type), the number of
    console messages of type [error] as [consoleErrors], and the number
    of responses with a status of 500 or more as [serverErrors]. *)
Theorem stats_count_the_events (t0 : string) (events : list (string * event)) :
  let stats := eval getStats (exec (deliver_all events) (new_CustomEventHandler t0)) in
  totalRequests stats = count_events is_request events /\
  consoleErrors stats = count_events is_console_error events /\
  serverErrors stats = count_events is_server_error events.
Proof.
  cbv zeta.
  destruct (deliver_all_counters events (new_CustomEventHandler t0)) as (A & B & C).
  unfold getStats, eval, bind, gets, ret. cbn [fst totalRequests consoleErrors serverErrors].
  rewrite A, B, C. cbn. repeat split.
Qed.

End Counting.

(* ----------------------------------------------------------------- *)
(** *** Console and network *)

Ltac same_view :=
  match goal with
  | H : console_view ?h1 ?h2 |- _ =>
      destruct h1, h2; unfold console_view in H; fields; destruct H; subst
  | H : network_view ?h1 ?h2 |- _ =>
      destruct h1, h2; unfold network_view in H; fields;
      destruct H as (? & ? & ? & ? & ? & ? & ?); subst
  end.

Section Channels.

Context {RT : Js.Runtime}.

Lemma console_event_views (t : string) (msg : ConsoleMessage) (h1 h2 : CustomEventHandler) :
  network_view h1 (exec (deliver (t, ConsoleEvent msg)) h1) /\
  (console_view h1 h2 ->
   console_view (exec (deliver (t, ConsoleEvent msg)) h1)
                (exec (deliver (t, ConsoleEvent msg)) h2)).
Proof.
  split.
  - unfold network_view. hooks_unfold. run_monad. split_tests; fields; cbn [snd]; repeat split.
  - intros Hv. same_view. unfold console_view. hooks_unfold. run_monad.
    split_tests; fields; cbn [fst snd]; repeat split; congruence.
Qed.

Lemma network_event_views (t : string) (e : event) (h1 h2 : CustomEventHandler) :
  is_console e = false ->
  console_view h1 (exec (deliver (t, e)) h1) /\
  (network_view h1 h2 ->
   network_view (exec (deliver (t, e)) h1) (exec (deliver (t, e)) h2)).
Proof.
  intros He. destruct e; try discriminate He; clear He.
  - split.
    + unfold console_view. hooks_unfold. run_monad. split_tests; fields; cbn [snd]; repeat split.
    + intros Hv. same_view. unfold network_view. hooks_unfold. run_monad.
      split_tests; fields; cbn [fst snd]; repeat split; congruence.
  - split.
    + unfold console_view. hooks_unfold. run_monad. split_tests; fields; cbn [snd]; repeat split.
    + intros Hv. same_view. unfold network_view. hooks_unfold. run_monad.
      split_tests; fields; cbn [fst snd]; repeat split; congruence.
  - split.
    + unfold console_view. rewrite exec_deliver_settled.
      destruct (nth_error (awaiting h1) k) as [p |]; [ | fields; split; reflexivity ].
      hooks_unfold. run_monad. split_tests; fields; cbn [snd]; repeat split.
    + intros Hv. same_view. unfold network_view.
      rewrite !exec_deliver_settled. fields.
      match goal with |- context [nth_error ?l k] => destruct (nth_error l k) as [p |] end;
        [ | fields; repeat split ].
      hooks_unfold. run_monad.
      split_tests; fields; cbn [fst snd]; repeat split; congruence.
Qed.

Lemma views_of_events (events : list (string * event)) (h hc hn : CustomEventHandler) :
  console_view h hc -> network_view h hn ->
  console_view (exec (deliver_all events) h)
               (exec (deliver_all (console_events events)) hc) /\
  network_view (exec (deliver_all events) h)
               (exec (deliver_all (network_events events)) hn).
Proof.
  revert h hc hn. induction events as [| [t e] events IH]; intros h hc hn Hc Hn.
  - split; assumption.
  - rewrite exec_deliver_all_cons. unfold console_events, network_events.
    cbn [filter snd]. destruct (is_console e) eqn:He; cbn [negb].
    + destruct e; try discriminate He.
      rewrite exec_deliver_all_cons.
      destruct (console_event_views t msg h hc) as (Hn' & Hc').
      apply IH; [apply Hc', Hc | ].
      unfold network_view in *. intuition congruence.
    + rewrite exec_deliver_all_cons.
      destruct (network_event_views t e h hn He) as (Hc' & Hn').
      apply IH; [ | apply Hn', Hn].
      unfold console_view in *. intuition congruence.
Qed.

(** X2. Console events and network events do not
    interfere. The console log and the console-error count after a run
    are those of its console events alone; the network log, the request
    and server-error counts, both flags and the observation map are
    those of its other events alone (requests, responses and resumed
    endpoint checks). *)
Theorem console_and_network_do_not_interfere (t0 : string)
    (events : list (string * event)) :
  let h := exec (deliver_all events) (new_CustomEventHandler t0) in
  let hc := exec (deliver_all (console_events events)) (new_CustomEventHandler t0) in
  let hn := exec (deliver_all (network_events events)) (new_CustomEventHandler t0) in
  (consoleLog h = consoleLog hc /\ errorCount h = errorCount hc) /\
  (networkLog h = networkLog hn /\
   requestCount h = requestCount hn /\
   serverErrorCount h = serverErrorCount hn /\
   criticalEndpointFailed h = criticalEndpointFailed hn /\
   healthCheckPassed h = healthCheckPassed hn /\
   criticalEndpointResponses h = criticalEndpointResponses hn).
Proof.
  cbv zeta.
  destruct (views_of_events events (new_CustomEventHandler t0)
              (new_CustomEventHandler t0) (new_CustomEventHandler t0))
    as ((A & B) & (C & D & E & F & G & H & _)).
  - split; reflexivity.
  - repeat split.
  - repeat split; congruence.
Qed.

End Channels.

(* ----------------------------------------------------------------- *)
(** *** The alerts *)

Lemma lines_starting_app (marker : string) (l1 l2 : log) :
  lines_starting marker (l1 ++ l2)%list = lines_starting marker l1 + lines_starting marker l2.
Proof. unfold lines_starting. rewrite filter_app, length_app. lia. Qed.

Lemma lines_starting_one (marker : string) (lvl : level) (text : string) :
  lines_starting marker [(lvl, text)] = if String.prefix marker text then 1 else 0.
Proof. unfold lines_starting. cbn [filter snd]. destruct (String.prefix marker text); reflexivity. Qed.

Lemma prefix_same (c : ascii) (a b : string) :
  String.prefix (String c a) (String c b) = String.prefix a b.
Proof. cbn [String.prefix]. destruct (ascii_dec c c); [reflexivity | contradiction]. Qed.

Lemma prefix_diff (c d : ascii) (a b : string) :
  c <> d -> String.prefix (String c a) (String d b) = false.
Proof. intros H. cbn [String.prefix]. destruct (ascii_dec c d); [contradiction | reflexivity]. Qed.

Lemma prefix_nil (s : string) : String.prefix "" s = true.
Proof. destruct s; reflexivity. Qed.

(** Decides whether a literal starts a text whose head is a literal. *)
Ltac decide_prefix :=
  cbn [String.append];
  repeat first [ rewrite prefix_same | rewrite prefix_diff by discriminate ];
  rewrite ?prefix_nil.

Section Alerts.

Context {RT : Js.Runtime}.

Ltac alerts :=
  hooks_unfold; run_monad;
  split_tests; fields; cbn [fst snd]; rewrite ?lines_starting_app, ?lines_starting_one;
  unfold console_alert, server_alert in *; decide_prefix; split; lia.

Lemma deliver_alerts (te : string * event) : stable (keeps alerts_match) (deliver te).
Proof.
  destruct te as [t e]. intros h (A & B). unfold alerts_match.
  destruct e.
  - alerts.
  - alerts.
  - alerts.
  - rewrite exec_deliver_settled. destruct (nth_error (awaiting h) k) as [p |];
      [ | fields; split; assumption ].
    alerts.
Qed.

(** X3. The alerts start past their thresholds. After any
    sequence of events handled by a new handler, the console log holds
    one "High console error count" line for each console error after
    the tenth, and the network log one "High server error count" line
    for each server error after the fifth, and no other line starts
    like these. *)
Theorem alerts_start_past_the_threshold (t0 : string) (events : list (string * event)) :
  let h := exec (deliver_all events) (new_CustomEventHandler t0) in
  lines_starting "âš ï¸ High console error count: " (consoleLog h)
  = Z.max 0 (count_events is_console_error events - 10) /\
  lines_starting "âš ï¸ High server error count: " (networkLog h)
  = Z.max 0 (count_events is_server_error events - 5).
Proof.
  cbv zeta.
  destruct (deliver_all_counters events (new_CustomEventHandler t0)) as (_ & B & C).
  cbn [errorCount serverErrorCount new_CustomEventHandler] in B, C.
  rewrite Z.add_0_l in B, C. rewrite <- B, <- C.
  apply (@deliver_all_stable _ (keeps alerts_match) _ events);
    [intros te _; apply deliver_alerts | ].
  split; reflexivity.
Qed.

End Alerts.

(* ----------------------------------------------------------------- *)
(** *** Matching a URL to a critical endpoint *)

Lemma eqb_length (a b : string) : String.eqb a b = true -> String.length a = String.length b.
Proof. intros H. apply String.eqb_eq in H. subst. reflexivity. Qed.

Lemma substring_all (s : string) : substring 0 (String.length s) s = s.
Proof. induction s as [| c s IH]; cbn; [reflexivity | rewrite IH; reflexivity]. Qed.

(** [endsWith] by recursion on the text: the text is the suffix, or its
    tail ends with it. *)
Lemma endsWith_cons (c : ascii) (s suffix : string) :
  Js.endsWith (String c s) suffix
  = String.eqb (String c s) suffix || Js.endsWith s suffix.
Proof.
  unfold Js.endsWith. cbn [String.length].
  destruct (Nat.leb_spec (String.length suffix) (String.length s)) as [Hle | Hgt].
  - replace (String.length suffix <=? S (String.length s))%nat with true
      by (symmetry; apply Nat.leb_le; lia).
    replace (S (String.length s) - String.length suffix)%nat
      with (S (String.length s - String.length suffix)) by lia.
    cbn [substring].
    destruct (String.eqb (String c s) suffix) eqn:E; [ | reflexivity ].
    apply eqb_length in E. cbn [String.length] in E. lia.
  - rewrite orb_false_r.
    destruct (Nat.leb_spec (String.length suffix) (S (String.length s))) as [Hle | Hgt'].
    + assert (Hlen : String.length suffix = S (String.length s)) by lia.
      rewrite Hlen, Nat.sub_diag. cbn [substring]. rewrite substring_all. reflexivity.
    + destruct (String.eqb (String c s) suffix) eqn:E; [ | reflexivity ].
      apply eqb_length in E. cbn [String.length] in E. lia.
Qed.

Lemma critical_names_disjoint (url a b : string) :
  In a criticalEndpoints -> In b criticalEndpoints ->
  Js.endsWith url a = true -> Js.endsWith url b = true -> a = b.
Proof.
  intros Ha Hb. induction url as [| c s IH].
  - intros H _. unfold criticalEndpoints in Ha. cbn [In] in Ha.
    repeat (destruct Ha as [<- | Ha]; [discriminate H | ]). contradiction.
  - rewrite !endsWith_cons. intros H1 H2.
    apply orb_true_iff in H1, H2.
    destruct H1 as [H1 | H1], H2 as [H2 | H2].
    + apply String.eqb_eq in H1, H2. congruence.
    + apply String.eqb_eq in H1. exfalso. clear IH.
      unfold criticalEndpoints in Ha, Hb. cbn [In] in Ha, Hb.
      repeat (destruct Ha as [<- | Ha];
              [ injection H1 as -> ->;
                repeat (destruct Hb as [<- | Hb]; [discriminate H2 | ]); contradiction | ]).
      contradiction.
    + apply String.eqb_eq in H2. exfalso. clear IH.
      unfold criticalEndpoints in Ha, Hb. cbn [In] in Ha, Hb.
      repeat (destruct Hb as [<- | Hb];
              [ injection H2 as -> ->;
                repeat (destruct Ha as [<- | Ha]; [discriminate H1 | ]); contradiction | ]).
      contradiction.
    + apply IH; assumption.
Qed.

(** [find] returns the one critical endpoint that ends the URL. *)
Lemma endpoint_of_iff (url name : string) :
  endpoint_of url = Some name <->
  In name criticalEndpoints /\ Js.endsWith url name = true.
Proof.
  split; [apply endpoint_of_In | ].
  intros (Hin & Hend).
  destruct (endpoint_of url) as [found |] eqn:Hf.
  - destruct (endpoint_of_In _ _ Hf) as (Hin' & Hend').
    f_equal. apply (critical_names_disjoint url); assumption.
  - exfalso. unfold endpoint_of in Hf.
    pose proof (find_none _ _ Hf name Hin) as Hn. cbv beta in Hn. congruence.
Qed.


(* ----------------------------------------------------------------- *)
(** *** The stored records *)

Lemma get_set_cases {V} (k k0 : string) (v o : V) (m : JsMap.t V) :
  JsMap.get k (JsMap.set k0 v m) = Some o ->
  (k = k0 /\ o = v) \/ (k <> k0 /\ JsMap.get k m = Some o).
Proof.
  destruct (string_dec k k0) as [-> | Hne].
  - rewrite get_set_same. intros [= <-]. left. split; reflexivity.
  - rewrite get_set_other by congruence. intros H. right. split; assumption.
Qed.

Section StoredRecords.

Context {RT : Js.Runtime}.

Lemma same_endpoint_state_consistent (h h' : CustomEventHandler) :
  same_endpoint_state h h' -> consistent h -> consistent h'.
Proof.
  intros (A & B & C & D). unfold consistent. rewrite A, B, C, D. auto.
Qed.

Lemma settled_observation_ok (t : string) (p : pending_check) :
  pending_ok p ->
  record_ok (pc_endpointName p) (settled_observation t p) /\
  (obs_error (settled_observation t p) <> None -> check_fails p = true).
Proof.
  intros (Hf & Hne & Hu & Hs).
  destruct (endpoint_of_In _ _ Hf) as (Hin & Hend).
  unfold record_ok, record_shape, settled_observation, check_fails.
  destruct (resp_json (pc_response p)) as [body | reason].
  - destruct body; cbn [obs_url obs_status obs_body obs_error Js.getProperty];
      rewrite ?Hu;
      (split; [ split; [exact Hin | split; [exact Hend | split; [exact Hs | ] ] ] | ]);
      try (intros H; exfalso; apply H; reflexivity);
      try reflexivity.
    all: try (right; right; left; split; [exact Hne | split; [discriminate | reflexivity] ]).
    right. right. right. split; [exact Hne | split; [reflexivity | eexists; reflexivity] ].
  - cbn [obs_url obs_status obs_body obs_error]. rewrite Hu.
    split; [ split; [exact Hin | split; [exact Hend | split; [exact Hs | ] ] ] | reflexivity ].
    right. right. right. split; [exact Hne | split; [reflexivity | eexists; reflexivity] ].
Qed.

Lemma health_observation_ok (t : string) (response : Response) :
  200 <= resp_status response < 300 ->
  endpoint_of (resp_url response) = Some "/health" ->
  record_ok "/health" (health_observation t response) /\
  (obs_error (health_observation t response) <> None ->
   negb (resp_status response =? 200) = true) /\
  (obs_status (health_observation t response) = 200 ->
   (resp_status response =? 200) = true).
Proof.
  intros Hs Hf. destruct (endpoint_of_In _ _ Hf) as (Hin & Hend).
  unfold record_ok, record_shape, health_observation.
  destruct (resp_status response =? 200) eqn:E;
    cbn [obs_url obs_status obs_body obs_error negb].
  - apply Z.eqb_eq in E.
    split; [ split; [exact Hin | split; [exact Hend | split; [exact Hs | ] ] ] | ].
    + left. repeat split. exact E.
    + split; [intros H; exfalso; apply H; reflexivity | reflexivity].
  - apply Z.eqb_neq in E.
    split; [ split; [exact Hin | split; [exact Hend | split; [exact Hs | ] ] ] | ].
    + right. left. repeat split. exact E.
    + split; [reflexivity | intros H; contradiction].
Qed.

Lemma deliver_consistent (te : string * event) : stable (keeps consistent) (deliver te).
Proof.
  destruct te as [t e]. intros h Hc.
  destruct e as [msg | request | response | k].
  - apply (same_endpoint_state_consistent h); [ | exact Hc].
    apply console_request_frame; intros; discriminate.
  - apply (same_endpoint_state_consistent h); [ | exact Hc].
    apply console_request_frame; intros; discriminate.
  - destruct (Z_lt_ge_dec (resp_status response) 200) as [Hlo | Hlo];
      [ | destruct (Z_lt_ge_dec (resp_status response) 300) as [Hhi | Hhi] ].
    + apply (same_endpoint_state_consistent h); [ | exact Hc].
      rewrite exec_deliver.
      pose proof (response_outside_2xx response (with_clock t h) (or_introl Hlo)) as (E & _).
      unfold same_endpoint_state in *. fields. exact E.
    + assert (Hs : 200 <= resp_status response < 300) by lia.
      destruct (endpoint_of (resp_url response)) as [name |] eqn:Hf.
      * destruct (string_dec name "/health") as [-> | Hne].
        -- destruct (health_response_effect t response h Hs Hf) as (A & B & C & D).
           destruct (health_observation_ok t response Hs Hf) as (Hok & Herr & Hst).
           destruct Hc as (Hrec & Hhealth & Hpend).
           unfold consistent. rewrite A, B, C, D.
           split; [ | split; [ | exact Hpend ] ].
           ++ intros name o Hget. apply get_set_cases in Hget.
              destruct Hget as [(-> & ->) | (Hne & Hget)].
              ** split; [exact Hok | split ].
                 --- intros He. rewrite (Herr He). apply orb_true_r.
                 --- intros _ H2. rewrite (Hst H2). apply orb_true_r.
              ** destruct (Hrec name o Hget) as (R1 & R2 & R3).
                 split; [exact R1 | split ].
                 --- intros He. rewrite (R2 He). reflexivity.
                 --- intros Hn. contradiction.
           ++ intros _. rewrite get_set_same. discriminate.
        -- destruct (critical_response_effect t response name h Hs Hf Hne) as (A & B & C & D).
           destruct Hc as (Hrec & Hhealth & Hpend).
           unfold consistent. rewrite A, B, C, D.
           split; [exact Hrec | split; [exact Hhealth | ] ].
           apply Forall_app. split; [exact Hpend | ].
           constructor; [ | constructor ].
           unfold pending_ok. cbn [pc_response pc_endpointName pc_url]. auto.
      * apply (same_endpoint_state_consistent h); [ | exact Hc].
        apply response_not_critical. exact Hf.
    + apply (same_endpoint_state_consistent h); [ | exact Hc].
      rewrite exec_deliver.
      assert (Hout : resp_status response < 200 \/ 300 <= resp_status response) by lia.
      pose proof (response_outside_2xx response (with_clock t h) Hout) as (E & _).
      unfold same_endpoint_state in *. fields. exact E.
  - destruct (nth_error (awaiting h) k) as [p |] eqn:Hk.
    + destruct (settled_effect t k p h Hk) as (A & B & C & D).
      destruct Hc as (Hrec & Hhealth & Hpend).
      assert (Hp : pending_ok p).
      { rewrite Forall_forall in Hpend. apply Hpend. eapply nth_error_In. exact Hk. }
      destruct (settled_observation_ok t p Hp) as (Hok & Herr).
      unfold consistent. rewrite A, B, C, D.
      assert (Hold : forall name,
                 name <> pc_endpointName p ->
                 JsMap.get name
                   (match resp_json (pc_response p) with
                    | Parsed Js.JNull =>
                        JsMap.set (pc_endpointName p)
                          {| obs_url := pc_url p; obs_timestamp := t;
                             obs_status := resp_status (pc_response p);
                             obs_body := Some Js.JNull; obs_error := None |}
                          (criticalEndpointResponses h)
                    | _ => criticalEndpointResponses h
                    end) = JsMap.get name (criticalEndpointResponses h)).
      { intros name Hne.
        destruct (resp_json (pc_response p)) as [[] |]; try reflexivity.
        apply get_set_other. congruence. }
      split; [ | split ].
      * intros name o Hget. apply get_set_cases in Hget.
        destruct Hget as [(-> & ->) | (Hne & Hget)].
        -- split; [exact Hok | split ].
           ++ intros He. rewrite (Herr He). apply orb_true_r.
           ++ intros Hn. destruct Hp as (_ & Hp & _). contradiction.
        -- rewrite (Hold name Hne) in Hget.
           destruct (Hrec name o Hget) as (R1 & R2 & R3).
           split; [exact R1 | split; [ | exact R3 ] ].
           intros He. rewrite (R2 He). reflexivity.
      * intros Hpass. specialize (Hhealth Hpass).
        destruct Hp as (_ & Hp & _).
        rewrite get_set_other by congruence.
        destruct (JsMap.get "/health" (criticalEndpointResponses h)) as [o |] eqn:Hg;
          [ | contradiction ].
        rewrite (Hold "/health") by congruence. rewrite Hg. discriminate.
      * apply remove_nth_Forall. exact Hpend.
    + apply (same_endpoint_state_consistent h); [ | exact Hc].
      apply settled_nothing. exact Hk.
Qed.

Lemma new_consistent (t0 : string) : consistent (new_CustomEventHandler t0).
Proof.
  unfold consistent. cbn. split; [ | split ].
  - intros name o H. discriminate H.
  - intros H. discriminate H.
  - constructor.
Qed.

Lemma reachable_consistent (t0 : string) (events : list (string * event)) :
  consistent (exec (deliver_all events) (new_CustomEventHandler t0)).
Proof.
  apply (@deliver_all_stable _ (keeps consistent) _ events);
    [intros te _; apply deliver_consistent | apply new_consistent].
Qed.

(** X5. Every record a handler holds after any sequence of
    events is filed under a critical endpoint name that ends the
    record's URL, has a status in [200, 300), and has one of four forms:
    for [/health], status 200 with the body "OK (200)", or another
    status with the error "HTTP <status>"; for the other endpoints, a
    body and no error, or no body and the error "Failed to parse JSON
    response: ...". A record with an error implies
    [hasCriticalFailure()], and a [/health] record with status 200
    implies [hasHealthCheckPassed()]. *)
Theorem stored_records_are_consistent (t0 : string) (events : list (string * event))
    (name : string) (o : observation) :
  let h := exec (deliver_all events) (new_CustomEventHandler t0) in
  eval (getEndpointResponse name) h = Some o ->
  In name criticalEndpoints /\
  Js.endsWith (obs_url o) name = true /\
  200 <= obs_status o < 300 /\
  record_shape name o /\
  (obs_error o <> None -> eval hasCriticalFailure h = true) /\
  (name = "/health" -> obs_status o = 200 -> eval hasHealthCheckPassed h = true).
Proof.
  cbv zeta. intros Hget.
  destruct (reachable_consistent t0 events) as (Hrec & _).
  destruct (Hrec name o Hget) as ((A & B & C & D) & E & F).
  repeat split; try assumption; apply C.
Qed.

End StoredRecords.

(* ----------------------------------------------------------------- *)
(** *** What raises the flags *)

Lemma check_fails_body (p : pending_check) :
  check_fails p = body_fails (resp_json (pc_response p)).
Proof.
  unfold check_fails, body_fails.
  destruct (resp_json (pc_response p)) as [body | reason]; [ | reflexivity ].
  destruct body; cbn [Js.getProperty Js.strictly_true]; try reflexivity.
  destruct (Js.assoc "error" fields) as [v |]; [ | reflexivity ].
  destruct v as [| b | | | | ]; try reflexivity.
Qed.

Lemma existsb_remove_nth {A} (f : A -> bool) (k : nat) (l : list A) (x : A) :
  nth_error l k = Some x ->
  existsb f l = f x || existsb f (remove_nth k l).
Proof.
  revert k. induction l as [| y l IH]; intros k Hk.
  - destruct k; discriminate Hk.
  - destruct k as [| k]; cbn in Hk |- *.
    + injection Hk as ->. reflexivity.
    + rewrite (IH k Hk). destruct (f y), (f x); reflexivity.
Qed.

Lemma health_suffix (url : string) :
  endpoint_of url = Some "/health" <-> Js.endsWith url "/health" = true.
Proof.
  rewrite endpoint_of_iff.
  split; [intros (_ & E); exact E | intros E; split; [ | exact E] ].
  unfold criticalEndpoints. cbn [In]. auto 6.
Qed.

Section Flags.

Context {RT : Js.Runtime}.

Lemma deliver_flags (t : string) (e : event) (h : CustomEventHandler) :
  let h' := exec (deliver (t, e)) h in
  healthCheckPassed h' = healthCheckPassed h || is_health_200 e /\
  criticalEndpointFailed h' || failure_pending h'
  = criticalEndpointFailed h || failure_pending h
    || match e with ResponseEvent response => response_fails response | _ => false end.
Proof.
  cbv zeta. unfold failure_pending.
  assert (Hsame : forall h', same_endpoint_state h h' ->
            healthCheckPassed h' = healthCheckPassed h /\
            criticalEndpointFailed h'
              || existsb (fun p => body_fails (resp_json (pc_response p))) (awaiting h')
            = criticalEndpointFailed h
              || existsb (fun p => body_fails (resp_json (pc_response p))) (awaiting h)).
  { intros h' (_ & B & C & D). rewrite B, C, D. split; reflexivity. }
  destruct e as [msg | request | response | k]; cbn [is_health_200].
  - destruct (Hsame (exec (deliver (t, ConsoleEvent msg)) h)) as (A & B);
      [apply console_request_frame; intros; discriminate | ].
    rewrite A, B, !orb_false_r. split; reflexivity.
  - destruct (Hsame (exec (deliver (t, RequestEvent request)) h)) as (A & B);
      [apply console_request_frame; intros; discriminate | ].
    rewrite A, B, !orb_false_r. split; reflexivity.
  - unfold response_fails.
    destruct (Z.leb_spec 200 (resp_status response)) as [Hlo | Hlo];
      [ destruct (Z.ltb_spec (resp_status response) 300) as [Hhi | Hhi] | ];
      cbn [andb].
    + assert (Hs : 200 <= resp_status response < 300) by lia.
      destruct (endpoint_of (resp_url response)) as [name |] eqn:Hf.
      * destruct (String.eqb_spec name "/health") as [-> | Hne].
        -- destruct (health_response_effect t response h Hs Hf) as (_ & B & C & D).
           rewrite B, C, D. apply health_suffix in Hf. rewrite Hf, andb_true_r.
           split; [reflexivity | ].
           destruct (criticalEndpointFailed h), (resp_status response =? 200),
             (existsb (fun p => body_fails (resp_json (pc_response p))) (awaiting h));
             reflexivity.
        -- destruct (critical_response_effect t response name h Hs Hf Hne) as (_ & B & C & D).
           rewrite B, C, D, existsb_app. cbn [existsb pc_response].
           assert (Hnh : Js.endsWith (resp_url response) "/health" = false).
           { destruct (Js.endsWith (resp_url response) "/health") eqn:E; [ | reflexivity ].
             apply health_suffix in E. congruence. }
           rewrite Hnh, andb_false_r, !orb_false_r.
           split; [reflexivity | ]. rewrite orb_assoc. reflexivity.
      * destruct (Hsame (exec (deliver (t, ResponseEvent response)) h)) as (A & B);
          [apply response_not_critical; exact Hf | ].
        rewrite A, B.
        assert (Hnh : Js.endsWith (resp_url response) "/health" = false).
        { destruct (Js.endsWith (resp_url response) "/health") eqn:E; [ | reflexivity ].
          apply health_suffix in E. congruence. }
        rewrite Hnh, andb_false_r, !orb_false_r. split; reflexivity.
    + destruct (Hsame (exec (deliver (t, ResponseEvent response)) h)) as (A & B).
      { rewrite exec_deliver.
        pose proof (response_outside_2xx response (with_clock t h) (or_intror Hhi)) as (E & _).
        unfold same_endpoint_state in *. fields. exact E. }
      rewrite A, B.
      replace (resp_status response =? 200) with false by (symmetry; apply Z.eqb_neq; lia).
      rewrite !orb_false_r. split; reflexivity.
    + destruct (Hsame (exec (deliver (t, ResponseEvent response)) h)) as (A & B).
      { rewrite exec_deliver.
        pose proof (response_outside_2xx response (with_clock t h) (or_introl Hlo)) as (E & _).
        unfold same_endpoint_state in *. fields. exact E. }
      rewrite A, B.
      replace (resp_status response =? 200) with false by (symmetry; apply Z.eqb_neq; lia).
      rewrite !orb_false_r. split; reflexivity.
  - destruct (nth_error (awaiting h) k) as [p |] eqn:Hk.
    + destruct (settled_effect t k p h Hk) as (_ & B & C & D).
      rewrite B, C, D, check_fails_body, !orb_false_r.
      split; [reflexivity | ].
      rewrite (existsb_remove_nth _ k (awaiting h) p Hk).
      destruct (criticalEndpointFailed h), (body_fails (resp_json (pc_response p)));
        reflexivity.
    + destruct (Hsame (exec (deliver (t, JsonSettled k)) h)) as (A & B);
        [apply settled_nothing; exact Hk | ].
      rewrite A, B, !orb_false_r. split; reflexivity.
Qed.

Lemma deliver_all_flags (events : list (string * event)) (h : CustomEventHandler) :
  let h' := exec (deliver_all events) h in
  healthCheckPassed h' = healthCheckPassed h || existsb (fun te => is_health_200 (snd te)) events /\
  criticalEndpointFailed h' || failure_pending h'
  = criticalEndpointFailed h || failure_pending h
    || existsb response_fails (responses_in events).
Proof.
  revert h. induction events as [| [t e] events IH]; intros h; cbv zeta.
  - cbn [existsb responses_in]. rewrite !orb_false_r. split; reflexivity.
  - rewrite exec_deliver_all_cons.
    destruct (IH (exec (deliver (t, e)) h)) as (A & B).
    destruct (deliver_flags t e h) as (A' & B').
    rewrite A, B, A', B'. cbn [existsb snd]. split; [symmetry; apply orb_assoc | ].
    destruct e; cbn [responses_in existsb]; rewrite ?orb_false_r;
      [reflexivity | reflexivity | | reflexivity].
    rewrite <- !orb_assoc. reflexivity.
Qed.

(** X6. [hasHealthCheckPassed()] is true exactly when a
    response with status 200 and a URL ending with [/health] has been
    handled; and then a [/health] record is stored. *)
Theorem health_check_passes_on_a_200 (t0 : string) (events : list (string * event)) :
  let h := exec (deliver_all events) (new_CustomEventHandler t0) in
  eval hasHealthCheckPassed h = existsb (fun te => is_health_200 (snd te)) events /\
  (eval hasHealthCheckPassed h = true ->
   eval (getEndpointResponse "/health") h <> None).
Proof.
  cbv zeta. destruct (deliver_all_flags events (new_CustomEventHandler t0)) as (A & _).
  split; [exact A | ].
  destruct (reachable_consistent t0 events) as (_ & H & _). exact H.
Qed.

(** X7. [hasCriticalFailure()] is decided by the responses
    handled. A response fails when its status is in [200, 300) and it
    is for [/health] with a status other than 200, or for another
    critical endpoint and its body is rejected, is [null], or is an
    object whose [error] is the boolean [true]. The flag is up, or a
    suspended check is about to raise it, exactly when some response
    handled fails; once every body has settled the flag alone says so;
    and with no failing response the flag stays down. *)
Theorem failure_is_decided_by_the_responses (t0 : string)
    (events : list (string * event)) :
  let h := exec (deliver_all events) (new_CustomEventHandler t0) in
  eval hasCriticalFailure h || failure_pending h
  = existsb response_fails (responses_in events) /\
  (awaiting h = [] ->
   eval hasCriticalFailure h = existsb response_fails (responses_in events)) /\
  (existsb response_fails (responses_in events) = false ->
   eval hasCriticalFailure h = false).
Proof.
  cbv zeta. destruct (deliver_all_flags events (new_CustomEventHandler t0)) as (_ & B).
  cbn [criticalEndpointFailed failure_pending awaiting new_CustomEventHandler existsb orb] in B.
  change (eval hasCriticalFailure
            (exec (deliver_all events) (new_CustomEventHandler t0)))
    with (criticalEndpointFailed (exec (deliver_all events) (new_CustomEventHandler t0))).
  split; [exact B | split].
  - intros Hnone. rewrite <- B. unfold failure_pending. rewrite Hnone.
    cbn [existsb]. rewrite orb_false_r. reflexivity.
  - intros Hno. rewrite Hno in B. apply orb_false_iff in B. apply B.
Qed.

End Flags.

(* ----------------------------------------------------------------- *)
(** *** Reading the observations *)

Lemma set_fresh {V} (k : string) (v : V) (m : JsMap.t V) :
  ~ In k (JsMap.keys m) -> JsMap.set k v m = (m ++ [(k, v)])%list.
Proof.
  induction m as [| [k' v'] m IH]; cbn; intros Hk; [reflexivity | ].
  destruct (String.eqb_spec k' k) as [-> | Hne].
  - exfalso. apply Hk. left. reflexivity.
  - rewrite IH; [reflexivity | ]. intros H. apply Hk. right. exact H.
Qed.

Lemma forEach_set_copy {V} (m acc : JsMap.t V) :
  NoDup (JsMap.keys (acc ++ m)%list) ->
  JsMap.forEach (fun value key obj => JsMap.set key value obj) m acc = (acc ++ m)%list.
Proof.
  revert acc. induction m as [| [k v] m IH]; intros acc Hnd.
  - cbn. rewrite app_nil_r. reflexivity.
  - unfold JsMap.forEach in *. cbn [fold_left fst snd].
    assert (Hfresh : ~ In k (JsMap.keys acc)).
    { unfold JsMap.keys in *. rewrite map_app in Hnd. cbn [map fst] in Hnd.
      apply NoDup_remove_2 in Hnd. intros H. apply Hnd. apply in_or_app. left. exact H. }
    rewrite (set_fresh k v acc Hfresh).
    rewrite IH; rewrite <- app_assoc; [reflexivity | exact Hnd].
Qed.

Lemma get_of_In {V} (name : string) (v : V) (m : JsMap.t V) :
  NoDup (JsMap.keys m) -> In (name, v) m -> JsMap.get name m = Some v.
Proof.
  induction m as [| [k w] m IH]; intros Hnd Hin; [contradiction | ].
  cbn [JsMap.keys map fst] in Hnd. inversion Hnd as [| ? ? Hk Hnd']; subst.
  cbn [JsMap.get]. destruct Hin as [Hin | Hin].
  - injection Hin as -> ->. rewrite String.eqb_refl. reflexivity.
  - destruct (String.eqb_spec k name) as [-> | Hne].
    + exfalso. apply Hk. apply (in_map fst) in Hin. exact Hin.
    + apply IH; assumption.
Qed.

Lemma In_of_get {V} (name : string) (v : V) (m : JsMap.t V) :
  JsMap.get name m = Some v -> In (name, v) m.
Proof.
  induction m as [| [k w] m IH]; intros Hget; [discriminate Hget | ].
  cbn [JsMap.get] in Hget. destruct (String.eqb_spec k name) as [-> | Hne].
  - injection Hget as ->. left. reflexivity.
  - right. apply IH. exact Hget.
Qed.

Section Copies.

Context {RT : Js.Runtime}.

Lemma object_of_well_formed (h : CustomEventHandler) :
  well_formed h ->
  getAllResponsesAsObject h = (criticalEndpointResponses h, h).
Proof.
  intros (_ & Hnd & _). unfold getAllResponsesAsObject, bind, gets, ret.
  rewrite forEach_set_copy; [reflexivity | exact Hnd].
Qed.

(** Over a whole [run()] the handler keeps every invariant that its
    event handling keeps and that does not read the console log. *)
Lemma run_keeps (I : CustomEventHandler -> Prop) (env : environment) :
  (forall te, stable (keeps I) (deliver te)) ->
  ignores_console_log I ->
  stableX (on_handler (keeps I)) (run env).
Proof.
  intros Hdeliver Hlog.
  assert (Hall : forall events, stable (keeps I) (deliver_all events)).
  { intros events. apply deliver_all_stable; [exact _ | intros te _; apply Hdeliver]. }
  assert (Hline : forall f, stable (keeps I) (modify (with_consoleLog f))).
  { intros f. apply stable_modify. intros h Hh. apply Hlog, Hh. }
  runner_unfold. stableX_steps.
  all: try stableX_prim.
  all: try apply Hall.
  all: try (cbn [consoleLogger CustomEventHandler_loggers]; apply Hline).
  all: try (intros h Hh; exact Hh).
  all: try (apply forEachX_stable; [exact _ | intros [endpoint data] ];
            stableX_prim; cbn [consoleLogger CustomEventHandler_loggers];
            apply Hline).
Qed.

Lemma well_formed_ignores_log : ignores_console_log well_formed.
Proof. intros f h H. exact H. Qed.

Lemma consistent_ignores_log : ignores_console_log consistent.
Proof. intros f h H. exact H. Qed.

(** X8. [getAllResponsesAsObject()] returns the entries of
    the observation map, in the same order, and changes nothing: the
    properties the object has of its own (what [Object.entries] lists)
    are exactly the records that [getEndpointResponse(name)] returns.
    The same holds for the runner's [getCriticalEndpointResponses()]
    after a whole [run()], and [getEventHandler()] returns the
    handler. *)
Theorem responses_object_is_a_copy (t0 : string) (events : list (string * event)) :
  let h := exec (deliver_all events) (new_CustomEventHandler t0) in
  getAllResponsesAsObject h = (eval getCriticalEndpointResponses h, h) /\
  (forall name o,
      In (name, o) (eval getAllResponsesAsObject h) <->
      eval (getEndpointResponse name) h = Some o) /\
  (forall env url this_id,
      let r := execX (run env) (new_Runner t0 url this_id) in
      Runner_getCriticalEndpointResponses r
      = (Fulfilled (eval getCriticalEndpointResponses (eventHandler r)), r) /\
      getEventHandler r = (Fulfilled (eventHandler r), r)).
Proof.
  cbv zeta. pose proof (reachable_well_formed t0 events) as Hwf.
  split; [ | split ].
  - apply object_of_well_formed, Hwf.
  - intros name o. unfold eval. rewrite (object_of_well_formed _ Hwf).
    cbn [fst getEndpointResponse gets]. split.
    + apply get_of_In. apply Hwf.
    + apply In_of_get.
  - intros env url this_id. split; [ | reflexivity ].
    assert (Hr : well_formed
                   (eventHandler (execX (run env) (new_Runner t0 url this_id)))).
    { apply (run_keeps well_formed env deliver_well_formed well_formed_ignores_log).
      apply new_well_formed. }
    unfold Runner_getCriticalEndpointResponses. rewrite on_eventHandler_eq.
    unfold eval, exec. rewrite (object_of_well_formed _ Hr). cbn [fst snd].
    f_equal. apply with_eventHandler_same.
Qed.

End Copies.

(* ================================================================= *)
(** ** Further properties of Runner *)

(* ----------------------------------------------------------------- *)
(** *** The setup of a session *)

(** Runs the runner's primitive steps on a symbolic state. *)
Ltac step_runner :=
  unfold await, await_quiet, listen, Runner_consoleLogger, whenX;
  unfold perform;
  unfold bindX, try_catch, try_finally, retX, throwX, getsX, modifyX;
  cbn [during settles]; rewrite ?on_eventHandler_eq; runner_fields.

Section Setup.

Context {RT : Js.Runtime}.

Lemma In_after_events (line : level * string) (events : list (string * event))
    (h : CustomEventHandler) :
  In line (consoleLog h) -> In line (consoleLog (exec (deliver_all events) h)).
Proof.
  intros Hin. destruct (deliver_all_console_log_grows events h) as (lines & Hl).
  rewrite Hl. apply in_or_app. left. exact Hin.
Qed.

Lemma In_logged (lvl : level) (message : string) (h : CustomEventHandler) :
  In (lvl, message) (consoleLog (exec (consoleLogger lvl message) h)).
Proof.
  cbn [consoleLogger CustomEventHandler_loggers]. rewrite exec_modify. fields.
  apply in_or_app. right. left. reflexivity.
Qed.

(** X9. [run()] stops at the first step of its setup that
    fails. If [browser.newContext()] rejects, no other call is made
    (there is no context to close). If [context.newPage()] rejects, the
    context is closed and nothing else is done. If [page.goto()]
    rejects, the three listeners have been registered, the iframe and
    the health check are skipped, and the context is closed. In each
    case the line "Error: <error>" is logged. *)
Theorem run_stops_at_the_first_setup_failure (env : environment) (t0 this_url : string)
    (this_id : Z) (error : string) :
  let final := execX (run env) (new_Runner t0 this_url this_id) in
  (env_newContext env = Thrown error ->
   calls final = [BrowserNewContext] /\
   In (Error, "Error: " ++ error) (consoleLog (eventHandler final))) /\
  (env_newContext env = Fulfilled tt -> env_newPage env = Thrown error ->
   calls final = [BrowserNewContext; ContextNewPage; ContextClose] /\
   In (Error, "Error: " ++ error) (consoleLog (eventHandler final))) /\
  (env_newContext env = Fulfilled tt -> env_newPage env = Fulfilled tt ->
   settles (env_goto env) = Thrown error ->
   calls final
   = [BrowserNewContext; ContextNewPage; PageOn "console"; PageOn "request";
      PageOn "response"; PageGoto this_url; ContextClose] /\
   In (Error, "Error: " ++ error) (consoleLog (eventHandler final))).
Proof.
  cbv zeta. rewrite run_unfold, execX_try_finally.
  unfold execX, run_body, run_catch, run_setup, run_cleanup.
  split; [ | split ].
  - intros H1. repeat (step_runner; rewrite ?H1). cbn [new_Runner context calls app].
    split; [reflexivity | ]. runner_fields. apply In_logged.
  - intros H1 H2. repeat (step_runner; rewrite ?H1, ?H2).
    cbn [new_Runner context calls app]. split; [reflexivity | ].
    apply In_after_events, In_logged.
  - intros H1 H2 H3. repeat (step_runner; rewrite ?H1, ?H2, ?H3).
    cbn [new_Runner context calls app url]. split; [reflexivity | ].
    apply In_after_events, In_logged.
Qed.

End Setup.

Section Navigation.

Context {RT : Js.Runtime}.

(** X10. When the context and the page are created, the calls
    of [run()] start with the creation of both, the registration of
    the console, request and response listeners, and the navigation, in
    this order: the listeners are in place before the page loads. *)
Theorem listeners_precede_navigation (env : environment) (t0 this_url : string)
    (this_id : Z) :
  env_newContext env = Fulfilled tt -> env_newPage env = Fulfilled tt ->
  exists rest,
    calls (execX (run env) (new_Runner t0 this_url this_id))
    = ([BrowserNewContext; ContextNewPage; PageOn "console"; PageOn "request";
        PageOn "response"; PageGoto this_url] ++ rest)%list.
Proof.
  intros H1 H2.
  set (r6 := with_calls (fun _ => [BrowserNewContext; ContextNewPage; PageOn "console";
                                   PageOn "request"; PageOn "response";
                                   PageGoto this_url])
               (with_eventHandler
                  (fun h => exec (consoleLogger Info ("Opening: " ++ this_url)) h)
                  (with_page (Some Handle)
                     (with_context (Some Handle) (new_Runner t0 this_url this_id))))).
  set (rest :=
         try_finally
           (try_catch
              (bindX
                 (bindX
                    (bindX (listen (during (env_goto env)))
                       (fun _ => fun r => (settles (env_goto env), r)))
                    (fun _ => bindX (Runner_consoleLogger Info ("Loaded: " ++ this_url))
                       (fun _ => bindX (monitorIframe env)
                          (fun _ => waitForAppReady env))))
                 (fun _ => run_gated env))
              (fun error => Runner_consoleLogger Error ("Error: " ++ error)))
           (run_cleanup env)).
  assert (Hsplit : run env (new_Runner t0 this_url this_id) = rest r6).
  { unfold rest, r6, run, run_setup, try_finally, try_catch, await, await_quiet, perform.
    unfold bindX at 1 2 3 4 5 6. unfold modifyX. rewrite H1, H2.
    reflexivity. }
  assert (Hrest : stableX (extends_with any_call) rest).
  { unfold rest. unfold run_gated, run_cleanup. runner_unfold. stableX_steps.
    all: try stableX_prim.
    all: try exact I.
    all: try (intros; exact I).
    all: try (apply forEachX_stable; [exact _ | intros [endpoint data] ]; stableX_prim). }
  destruct (Hrest r6) as (_ & _ & made & Hmade & _).
  exists made. unfold execX in *. rewrite Hsplit, Hmade. reflexivity.
Qed.

End Navigation.

(* ----------------------------------------------------------------- *)
(** *** The procedures of a session *)

Lemma last_line_app (l : log) (line : level * string) :
  last_line (l ++ [line])%list = Some line.
Proof. unfold last_line. rewrite rev_app_distr. reflexivity. Qed.

Section Helpers.

Context {RT : Js.Runtime}.

(** X11. [captureScreenshot], [monitorIframe] and
    [waitForAppReady] are fulfilled whatever the browser does;
    [executeScenario] settles as the scenario does when there is a page
    (it rethrows the scenario's error), and does nothing without one. *)
Theorem helpers_swallow_their_errors (env : environment) (label : option string)
    (shot : capture) (r : Runner) :
  resultX (captureScreenshot label shot) r = Fulfilled tt /\
  resultX (monitorIframe env) r = Fulfilled tt /\
  resultX (waitForAppReady env) r = Fulfilled tt /\
  resultX (executeScenario env) r
  = match page r with
    | Some _ => scenario_settles (env_scenario env)
    | None => Fulfilled tt
    end.
Proof.
  split; [ | split; [ | split ] ].
  - destruct (captureScreenshot_never_throws label shot r) as ([] & H). exact H.
  - destruct (monitorIframe_never_throws env r) as ([] & H). exact H.
  - destruct (waitForAppReady_never_throws env r) as ([] & H). exact H.
  - destruct (page r) eqn:Hp.
    + apply executeScenario_effect. rewrite Hp. discriminate.
    + unfold resultX, executeScenario. rewrite bindX_getsX, Hp. reflexivity.
Qed.

(** X12. [monitorIframe()] waits for the iframe, queries it,
    takes its frame and waits for the frame to be idle, each call being
    made only if the one before succeeded. Once the frame is there the
    last line logged is "iframe#iframeFE loaded and monitored", also
    when the frame never became idle. *)
Theorem monitorIframe_goes_step_by_step (env : environment) (r : Runner) :
  page r <> None ->
  let r' := execX (monitorIframe env) r in
  calls r' = (calls r ++ monitor_calls env)%list /\
  (forall u,
      settles (env_frame_waitForSelector env) = Fulfilled tt ->
      settles (env_frame_query env) = Fulfilled true ->
      settles (env_frame_contentFrame env) = Fulfilled (Some u) ->
      last_line (consoleLog (eventHandler r'))
      = Some (Info, "iframe#iframeFE loaded and monitored")).
Proof.
  intros Hp. cbv zeta. unfold execX, monitorIframe, monitor_calls.
  rewrite bindX_getsX. destruct (page r); [ | contradiction ].
  destruct (settles (env_frame_waitForSelector env)) as [[] | e1] eqn:H1.
  2: { repeat (step_runner; rewrite ?H1). split; [reflexivity | discriminate]. }
  destruct (settles (env_frame_query env)) as [[|] | e2] eqn:H2.
  2, 3: repeat (step_runner; rewrite ?H1, ?H2; cbn [negb]);
        (split; [rewrite <- ?app_assoc; reflexivity | discriminate]).
  destruct (settles (env_frame_contentFrame env)) as [[u |] | e3] eqn:H3.
  2, 3: repeat (step_runner; rewrite ?H1, ?H2, ?H3; cbn [negb]);
        (split; [rewrite <- ?app_assoc; reflexivity | discriminate]).
  destruct (settles (env_frame_waitForLoadState env)) as [[] | e4] eqn:H4.
  all: repeat (step_runner; rewrite ?H1, ?H2, ?H3, ?H4; cbn [negb]).
  all: split; [rewrite <- ?app_assoc; reflexivity | intros u' _ _ _ ].
  all: cbn [consoleLogger CustomEventHandler_loggers]; rewrite exec_modify; fields.
  all: apply last_line_app.
Qed.

End Helpers.

Section Readiness.

Context {RT : Js.Runtime}.

(** X13. [waitForAppReady()] reads the health flag after the
    100 ms delay. When a [/health] response arrives in time it makes
    two calls, the wait and the delay, and it then logs "App is ready"
    exactly when a response with status 200 for [/health] had been
    handled before, or was handled during the wait or the delay;
    otherwise it logs the warning. When the wait times out, the delay is
    skipped and the timeout is logged. *)
Theorem readiness_is_read_after_the_delay (env : environment) (r : Runner) :
  page r <> None ->
  let r' := execX (waitForAppReady env) r in
  match settles (env_waitForResponse env) with
  | Fulfilled _ =>
      calls r' = (calls r ++ [PageWaitForResponse 30000; SetTimeout 100])%list /\
      last_line (consoleLog (eventHandler r'))
      = Some (if healthCheckPassed (eventHandler r)
                 || existsb (fun te => is_health_200 (snd te))
                      (during (env_waitForResponse env) ++ env_settle_delay env)
              then (Info, "App is ready: Health check passed")
              else (Warn, "Health endpoint called but did not return OK status"))
  | Thrown error =>
      calls r' = (calls r ++ [PageWaitForResponse 30000])%list /\
      last_line (consoleLog (eventHandler r'))
      = Some (Error, "Health check timeout: " ++ error)
  end.
Proof.
  intros Hp. cbv zeta. unfold execX, waitForAppReady.
  rewrite bindX_getsX. destruct (page r); [ | contradiction ].
  destruct (settles (env_waitForResponse env)) as [[] | e] eqn:H1.
  - repeat (step_runner; rewrite ?H1).
    change (eval hasHealthCheckPassed) with healthCheckPassed.
    change (exec hasHealthCheckPassed) with (fun h : CustomEventHandler => h).
    cbv beta.
    destruct (deliver_all_flags (env_settle_delay env)
                (exec (deliver_all (during (env_waitForResponse env)))
                   (exec (consoleLogger Info "Waiting for /health endpoint...")
                      (eventHandler r)))) as (A & _).
    destruct (deliver_all_flags (during (env_waitForResponse env))
                (exec (consoleLogger Info "Waiting for /health endpoint...")
                   (eventHandler r))) as (B & _).
    rewrite B in A. cbn [consoleLogger CustomEventHandler_loggers] in A.
    rewrite exec_modify in A. fields. rewrite <- orb_assoc, <- existsb_app in A.
    cbn [consoleLogger CustomEventHandler_loggers]. rewrite !exec_modify. rewrite A.
    destruct (healthCheckPassed (eventHandler r)
              || existsb (fun te => is_health_200 (snd te))
                   (during (env_waitForResponse env) ++ env_settle_delay env));
      step_runner; rewrite ?exec_modify; fields;
      (split; [rewrite <- ?app_assoc; reflexivity | apply last_line_app]).
  - repeat (step_runner; rewrite ?H1).
    cbn [consoleLogger CustomEventHandler_loggers]. rewrite exec_modify. fields.
    split; [reflexivity | apply last_line_app].
Qed.

End Readiness.

(* ----------------------------------------------------------------- *)
(** *** The summary *)

Section Summary.

Context {RT : Js.Runtime}.

Lemma forEachX_lines (entries : list (string * observation)) (r : Runner) :
  (forall name o, In (name, o) entries -> obs_error o <> Some "") ->
  execX (forEachX
           (fun entry : string * observation =>
              let (endpoint, data) := entry in
              Runner_consoleLogger Info (endpoint ++ ": " ++ verdict data))
           entries) r
  = with_eventHandler
      (with_consoleLog (fun l => (l ++ map summary_line entries)%list)) r.
Proof.
  revert r. induction entries as [| [name o] entries IH]; intros r Hne.
  - cbn. destruct r as [u i c p h cs]. destruct h. cbn.
    unfold with_eventHandler, with_consoleLog. cbn. rewrite app_nil_r. reflexivity.
  - cbn [forEachX]. unfold execX in *. unfold bindX at 1.
    unfold Runner_consoleLogger at 1. rewrite on_eventHandler_eq.
    rewrite IH by (intros n' o' Hin; apply (Hne n' o'); right; exact Hin).
    cbn [consoleLogger CustomEventHandler_loggers]. rewrite exec_modify.
    assert (Hv : verdict o = match obs_error o with
                             | Some _ => "FAILED"
                             | None => "SUCCESS"
                             end).
    { unfold verdict. destruct (obs_error o) as [e |] eqn:He; [ | reflexivity ].
      destruct (String.eqb_spec e "") as [-> | _]; [ | reflexivity ].
      exfalso. apply (Hne name o); [left; reflexivity | exact He]. }
    rewrite Hv. destruct r as [u i c p h cs]. destruct h.
    unfold with_eventHandler, with_consoleLog, summary_line. cbn.
    rewrite <- app_assoc. reflexivity.
Qed.

Lemma stored_errors_are_texts (h : CustomEventHandler) (name : string) (o : observation) :
  well_formed h -> consistent h ->
  In (name, o) (criticalEndpointResponses h) ->
  obs_error o <> Some "".
Proof.
  intros (_ & Hnd & _) (Hrec & _) Hin.
  destruct (Hrec name o (get_of_In _ _ _ Hnd Hin)) as ((_ & _ & _ & Hshape) & _).
  destruct Hshape as [(_ & _ & _ & ->) | [(_ & _ & _ & ->)
                     | [(_ & _ & ->) | (_ & _ & e & ->)]]]; discriminate.
Qed.

(** X14. [logResponseSummary()] makes no call and appends to
    the console log the heading, the three counters, the number of
    tracked endpoints, and one line per stored record, in the order of
    the map, that says FAILED exactly when the record has an error. *)
Theorem summary_reports_every_tracked_endpoint (t0 : string)
    (events : list (string * event)) (f : log -> log) (r : Runner) :
  let h := exec (deliver_all events) (new_CustomEventHandler t0) in
  eventHandler r = with_consoleLog f h ->
  let r' := execX logResponseSummary r in
  consoleLog (eventHandler r')
  = (f (consoleLog h)
       ++ [(Info, "=== Runner Summary ===");
           (Info, ("Total Requests: " ++ Js.show (requestCount h))%string);
           (Info, ("Console Errors: " ++ Js.show (errorCount h))%string);
           (Info, ("Server Errors: " ++ Js.show (serverErrorCount h))%string);
           (Info, ("Critical Endpoints Tracked: "
                     ++ Js.show (JsMap.size (criticalEndpointResponses h)))%string)]
       ++ map summary_line (criticalEndpointResponses h))%list /\
  calls r' = calls r.
Proof.
  cbv zeta. intros Hh.
  set (h := exec (deliver_all events) (new_CustomEventHandler t0)) in *.
  assert (Hwf : well_formed (eventHandler r)).
  { rewrite Hh. apply well_formed_ignores_log, reachable_well_formed. }
  assert (Hc : consistent (eventHandler r)).
  { rewrite Hh. apply consistent_ignores_log, reachable_consistent. }
  split.
  2: { destruct (logResponseSummary_extends no_call r) as (_ & _ & made & Hm & Hnone).
       destruct made as [| c made]; [rewrite app_nil_r in Hm; exact Hm | ].
       inversion Hnone as [| ? ? Hcall]. destruct Hcall. }
  unfold logResponseSummary, execX.
  rewrite bindX_on_eventHandler. unfold eval, exec.
  rewrite (object_of_well_formed _ Hwf). cbn [fst snd]. rewrite with_eventHandler_same.
  rewrite bindX_on_eventHandler.
  change (exec getStats (eventHandler r)) with (eventHandler r).
  rewrite with_eventHandler_same.
  repeat (unfold bindX at 1; unfold Runner_consoleLogger at 1;
          rewrite on_eventHandler_eq;
          cbn [consoleLogger CustomEventHandler_loggers]; rewrite exec_modify).
  runner_fields.
  match goal with
  | |- context [forEachX ?g ?l ?s] =>
      pose proof (forEachX_lines l s) as Hlines
  end.
  unfold execX in Hlines. rewrite Hlines.
  2: { intros name o Hin. apply (stored_errors_are_texts (eventHandler r) name o Hwf Hc Hin). }
  runner_fields. fields. rewrite Hh. fields.
  cbn [eval getStats bind gets ret fst totalRequests consoleErrors serverErrors
       criticalEndpointsTracked]. fields.
  rewrite <- !app_assoc. reflexivity.
Qed.

End Summary.

(* ================================================================= *)
(** ** Log files, log lines and file names *)

Lemma all_chars_app (p : ascii -> bool) (a b : string) :
  all_chars p (a ++ b) = all_chars p a && all_chars p b.
Proof.
  induction a as [| c a IH]; cbn; [reflexivity | ].
  rewrite IH. apply andb_assoc.
Qed.

Lemma has_char_app (c : ascii) (a b : string) :
  has_char c (a ++ b) = has_char c a || has_char c b.
Proof.
  induction a as [| d a IH]; cbn; [reflexivity | ].
  rewrite IH. apply orb_assoc.
Qed.

Lemma all_chars_excludes (p : ascii -> bool) (c : ascii) (s : string) :
  p c = false -> all_chars p s = true -> has_char c s = false.
Proof.
  intros Hc. induction s as [| d s IH]; cbn; [reflexivity | ].
  intros H. apply andb_true_iff in H. destruct H as (Hd & Hs).
  rewrite (IH Hs), orb_false_r.
  destruct (Ascii.eqb_spec c d) as [-> | ]; [congruence | reflexivity].
Qed.

Lemma uint_digits (d : Decimal.uint) :
  all_chars is_digit_or_minus (NilEmpty.string_of_uint d) = true.
Proof. induction d; cbn; auto. Qed.

Lemma show_digits (n : Z) : all_chars is_digit_or_minus (Js.show n) = true.
Proof.
  assert (Hu : forall d, all_chars is_digit_or_minus (NilZero.string_of_uint d) = true).
  { intros d. destruct d; [reflexivity | .. ];
      unfold NilZero.string_of_uint; apply uint_digits. }
  unfold Js.show, NilZero.string_of_int.
  destruct (Z.to_int n) as [d | d]; [apply Hu | ].
  cbn [all_chars]. rewrite Hu. reflexivity.
Qed.

Lemma to_int_not_nil (n : Z) :
  Z.to_int n <> Decimal.Pos Decimal.Nil /\ Z.to_int n <> Decimal.Neg Decimal.Nil.
Proof.
  destruct n as [| p | p]; cbn; split; try discriminate.
  - intros H. injection H as H. pose proof (DecimalPos.Unsigned.to_uint_nonnil p). contradiction.
  - intros H. injection H as H. pose proof (DecimalPos.Unsigned.to_uint_nonnil p). contradiction.
Qed.

Lemma show_injective (a b : Z) : Js.show a = Js.show b -> a = b.
Proof.
  unfold Js.show. intros H.
  destruct (to_int_not_nil a) as (A1 & A2), (to_int_not_nil b) as (B1 & B2).
  pose proof (NilZero.isi _ A1 A2) as Ha. pose proof (NilZero.isi _ B1 B2) as Hb.
  rewrite H in Ha. rewrite Ha in Hb. injection Hb as Hb.
  rewrite <- (DecimalZ.of_to a), <- (DecimalZ.of_to b), Hb. reflexivity.
Qed.

Lemma length_append (a b : string) :
  String.length (a ++ b) = (String.length a + String.length b)%nat.
Proof. induction a as [| c a IH]; cbn; [reflexivity | rewrite IH; reflexivity]. Qed.

Lemma append_same_length (a b c d : string) :
  String.length a = String.length c -> a ++ b = c ++ d -> a = c /\ b = d.
Proof.
  revert c. induction a as [| x a IH]; intros [| y c] Hlen H; try discriminate Hlen.
  - split; [reflexivity | exact H].
  - cbn in H. injection H as -> H. injection Hlen as Hlen.
    destruct (IH c Hlen H) as (-> & ->). split; reflexivity.
Qed.

Lemma append_same_suffix (a c b : string) : a ++ b = c ++ b -> a = c.
Proof.
  intros H. apply (append_same_length a b c b); [ | exact H].
  apply (f_equal String.length) in H. rewrite !length_append in H. lia.
Qed.

(** Two texts free of [c], each followed by [c]: the first [c] marks
    where they end. *)
Lemma append_until (c : ascii) (a b x y : string) :
  has_char c a = false -> has_char c b = false ->
  a ++ String c x = b ++ String c y -> a = b /\ x = y.
Proof.
  revert b. induction a as [| d a IH]; intros [| e b]; cbn; intros Ha Hb H.
  - injection H as ->. split; reflexivity.
  - injection H as -> H. rewrite Ascii.eqb_refl in Hb. discriminate Hb.
  - injection H as <- H. rewrite Ascii.eqb_refl in Ha. discriminate Ha.
  - injection H as -> H.
    apply orb_false_iff in Ha, Hb. destruct Ha as (_ & Ha), Hb as (_ & Hb).
    destruct (IH b Ha Hb H) as (-> & ->). split; reflexivity.
Qed.

(** X15. The log files of [createRunnerLogger] are distinct:
    two runners with different ids get different console log files and
    different network log files, and no console log file is a network
    log file. *)
Theorem log_files_are_distinct (i j : Z) :
  (consoleLogFile i = consoleLogFile j -> i = j) /\
  (networkLogFile i = networkLogFile j -> i = j) /\
  consoleLogFile i <> networkLogFile j.
Proof.
  unfold consoleLogFile, networkLogFile. cbn [String.append]. split; [ | split ].
  - intros H. repeat injection H as H. apply show_injective.
    apply (append_same_suffix _ _ "-console.log"). exact H.
  - intros H. repeat injection H as H. apply show_injective.
    apply (append_same_suffix _ _ "-network.log"). exact H.
  - intros H. repeat injection H as H.
    assert (Hlen : String.length (Js.show i) = String.length (Js.show j)).
    { apply (f_equal String.length) in H. rewrite !length_append in H.
      cbn [String.length] in H. lia. }
    destruct (append_same_length _ _ _ _ Hlen H) as (_ & Hs). discriminate Hs.
Qed.

(** X16. A line rendered by [logFormat] determines its
    timestamp, its runner, its level and its message, among lines whose
    timestamps have the same length (the format is fixed). *)
Theorem log_lines_can_be_told_apart (i j : Z) (t t' : string)
    (line line' : level * string) :
  String.length t = String.length t' ->
  render i t line = render j t' line' ->
  t = t' /\ i = j /\ line = line'.
Proof.
  intros Hlen. unfold render, logFormat. cbn [String.append]. intros H.
  injection H as H.
  destruct (append_same_length _ _ _ _ Hlen H) as (-> & H1).
  cbn [String.append] in H1. repeat injection H1 as H1.
  assert (Hno : forall n, has_char "]" (Js.show n) = false).
  { intros n. apply (all_chars_excludes is_digit_or_minus); [reflexivity | apply show_digits]. }
  destruct (append_until "]" _ _ _ _ (Hno i) (Hno j) H1) as (Hs & H2).
  apply show_injective in Hs. subst j.
  split; [reflexivity | split; [reflexivity | ] ].
  destruct line as [lvl m], line' as [lvl' m']. cbn [fst snd] in H2.
  destruct lvl, lvl'; cbn in H2; try discriminate H2;
    repeat injection H2 as H2; subst; reflexivity.
Qed.

Lemma plain_app (a b : string) : plain (a ++ b) = plain a && plain b.
Proof.
  unfold plain. rewrite !has_char_app.
  destruct (has_char ":" a), (has_char "." a), (has_char ":" b), (has_char "." b);
    reflexivity.
Qed.

Lemma plain_replace (s : string) : plain (replace_colon_dot s) = true.
Proof.
  unfold plain. induction s as [| c s IH]; [reflexivity | ].
  apply andb_true_iff in IH. destruct IH as (H1 & H2).
  apply negb_true_iff in H1, H2.
  cbn [replace_colon_dot has_char]. rewrite H1, H2, !orb_false_r.
  destruct (Ascii.eqb c ":") eqn:E1; [reflexivity | ].
  destruct (Ascii.eqb c ".") eqn:E2; [reflexivity | ].
  cbn [orb]. rewrite (Ascii.eqb_sym ":" c), (Ascii.eqb_sym "." c), E1, E2. reflexivity.
Qed.

Lemma append_assoc (a b c : string) : (a ++ b) ++ c = a ++ b ++ c.
Proof. induction a as [| x a IH]; cbn; [reflexivity | rewrite IH; reflexivity]. Qed.

Lemma prefix_append (a b : string) : String.prefix a (a ++ b) = true.
Proof.
  induction a as [| c a IH]; cbn [String.append String.prefix].
  - destruct b; reflexivity.
  - destruct (ascii_dec c c); [exact IH | contradiction].
Qed.

Lemma plain_show (n : Z) : plain (Js.show n) = true.
Proof.
  unfold plain.
  rewrite (all_chars_excludes is_digit_or_minus ":" _ eq_refl (show_digits n)).
  rewrite (all_chars_excludes is_digit_or_minus "." _ eq_refl (show_digits n)).
  reflexivity.
Qed.

Section ScreenshotNames.

Context {RT : Js.Runtime}.

(** X17. [captureScreenshot(label)] makes the iframe query,
    then the capture if the query returned an element, and no other
    call; the file it captures to is named "<base>.png", where [base]
    starts with "runner-<id>" and has no colon and no dot, provided the
    label has none. *)
Theorem screenshot_names_are_portable (label : option string) (shot : capture)
    (r : Runner) :
  page r <> None ->
  (forall l, label = Some l -> plain l = true) ->
  exists base,
    calls (execX (captureScreenshot label shot) r)
    = (calls r
         ++ PageQuery "iframe#iframeFE" ::
            match settles (shot_query shot) with
            | Fulfilled true => [ElementScreenshot (base ++ ".png")]
            | _ => []
            end)%list /\
    plain base = true /\
    String.prefix ("runner-" ++ Js.show (id r)) base = true.
Proof.
  intros Hp Hlabel.
  exists (("runner-" ++ Js.show (id r))
            ++ match label with
               | None => ""
               | Some l => if String.eqb l "" then "" else "-" ++ l
               end ++ "-" ++ replace_colon_dot (shot_now shot)).
  split; [ | split ].
  - rewrite (captureScreenshot_calls label shot r Hp). unfold capture_calls.
    rewrite !append_assoc. reflexivity.
  - rewrite !plain_app, plain_replace, plain_show, andb_true_r.
    destruct label as [l |]; [ | reflexivity ].
    destruct (String.eqb l ""); [reflexivity | ].
    rewrite plain_app, (Hlabel l eq_refl). reflexivity.
  - apply prefix_append.
Qed.

End ScreenshotNames.

(* ================================================================= *)
(** ** Properties of Scenario *)

Lemma appends_ret {A} (a : A) : appends (retX a).
Proof. intros tr. unfold retX. cbn. rewrite app_nil_r. reflexivity. Qed.

Lemma appends_throw {A} (error : string) : appends (throwX (A := A) error).
Proof. intros tr. unfold throwX. cbn. rewrite app_nil_r. reflexivity. Qed.

Lemma appends_logger (lvl : level) (message : string) :
  appends (Scenario.consoleLogger lvl message).
Proof. intros tr. reflexivity. Qed.

Lemma appends_await {A} (c : Scenario.call) (w : awaited A) :
  appends (Scenario.await c w).
Proof. intros tr. reflexivity. Qed.

Lemma appends_bind {A B} (m : MX Scenario.trace A) (k : A -> MX Scenario.trace B) :
  appends m -> (forall a, appends (k a)) -> appends (bindX m k).
Proof.
  intros Hm Hk tr. unfold bindX. rewrite (Hm tr).
  destruct (m []) as [[a | e] tr1]; cbn [fst snd app].
  - rewrite (Hk a (tr ++ tr1)%list), (Hk a tr1). cbn [fst snd].
    rewrite app_assoc. reflexivity.
  - reflexivity.
Qed.

Lemma appends_try_catch {A} (body : MX Scenario.trace A)
    (handler : string -> MX Scenario.trace A) :
  appends body -> (forall e, appends (handler e)) -> appends (try_catch body handler).
Proof.
  intros Hm Hk tr. unfold try_catch. rewrite (Hm tr).
  destruct (body []) as [[a | e] tr1]; cbn [fst snd app].
  - reflexivity.
  - rewrite (Hk e (tr ++ tr1)%list), (Hk e tr1). cbn [fst snd].
    rewrite app_assoc. reflexivity.
Qed.

Ltac appends_step :=
  lazymatch goal with
  | |- appends (bindX _ _) => apply appends_bind; [ | intros ]
  | |- appends (try_catch _ _) => apply appends_try_catch; [ | intros ]
  | |- appends (retX _) => apply appends_ret
  | |- appends (throwX _) => apply appends_throw
  | |- appends (Scenario.consoleLogger _ _) => apply appends_logger
  | |- appends (Scenario.await _ _) => apply appends_await
  | |- appends (if ?c then _ else _) => destruct c
  end.

Lemma step_appends (looking found done failed xp : string) (ms : Z)
    (s : Scenario.step_input) :
  appends (Scenario.step looking found done failed xp ms s).
Proof. unfold Scenario.step, Scenario.getIframeContent. cbv zeta. repeat appends_step. Qed.

Lemma takeScreenshot_appends (runnerId : Z) (stepName : string) (shot : capture) :
  appends (Scenario.takeScreenshot runnerId stepName shot).
Proof. unfold Scenario.takeScreenshot. cbv zeta. repeat appends_step. Qed.

Lemma scenario_calls_app (a b : Scenario.trace) :
  scenario_calls (a ++ b)%list = (scenario_calls a ++ scenario_calls b)%list.
Proof. apply flat_map_app. Qed.

Lemma scenario_calls_delivered (events : list (string * event)) :
  scenario_calls (map Scenario.Delivered events) = [].
Proof. induction events as [| te events IH]; [reflexivity | exact IH]. Qed.

Lemma scenario_calls_called (c : Scenario.call) (tr : Scenario.trace) :
  scenario_calls (Scenario.Called c :: tr) = c :: scenario_calls tr.
Proof. reflexivity. Qed.

Lemma scenario_calls_logged (lvl : level) (message : string) (tr : Scenario.trace) :
  scenario_calls (Scenario.Logged lvl message :: tr) = scenario_calls tr.
Proof. reflexivity. Qed.

Lemma scenario_calls_nil : scenario_calls [] = [].
Proof. reflexivity. Qed.

Lemma last_action_app (tr : Scenario.trace) (a : Scenario.action) :
  last_action (tr ++ [a])%list = Some a.
Proof. unfold last_action. rewrite rev_app_distr. reflexivity. Qed.

Lemma last_action_cons (a : Scenario.action) (tr : Scenario.trace) :
  last_action (a :: tr)
  = match last_action tr with
    | Some x => Some x
    | None => Some a
    end.
Proof. unfold last_action. cbn [rev]. destruct (rev tr); reflexivity. Qed.

Ltac trace_last :=
  rewrite ?last_action_cons; rewrite last_action_app; reflexivity.

Lemma clicks_app (a b : list Scenario.call) :
  clicks (a ++ b)%list = (clicks a ++ clicks b)%list.
Proof. apply flat_map_app. Qed.

(** Runs a scenario's primitive steps on the empty trace. *)
Ltac step_scenario :=
  unfold Scenario.await, Scenario.consoleLogger, bindX, try_catch, retX, throwX;
  cbn [fst snd negb app].

Ltac trace_calls :=
  repeat first [ rewrite scenario_calls_app
               | rewrite scenario_calls_called
               | rewrite scenario_calls_logged
               | rewrite scenario_calls_delivered
               | rewrite scenario_calls_nil ];
  cbn [app].

Lemma step_facts (looking found done failed xp : string) (ms : Z)
    (s : Scenario.step_input) :
  let run := Scenario.step looking found done failed xp ms s [] in
  fst run = step_result s /\
  (exists made,
      scenario_calls (snd run) = Scenario.PageQuery "iframe#iframeFE" :: made /\
      clicks_guarded (Some (Scenario.PageQuery "iframe#iframeFE")) made = true /\
      (clicks made = [] \/ clicks made = ["xpath=" ++ xp]) /\
      (step_result s = Fulfilled tt -> clicks made = ["xpath=" ++ xp])) /\
  (forall e, step_result s = Thrown e ->
             last_action (snd run) = Some (Scenario.Logged Error (failed ++ e))).
Proof.
  cbv zeta. unfold Scenario.step, Scenario.getIframeContent, step_result.
  destruct (settles (Scenario.frame_query s)) as [[|] | e1] eqn:H1.
  2, 3: step_scenario; rewrite ?H1; step_scenario;
        (split; [reflexivity | split ]);
        [ eexists; split; [trace_calls; reflexivity | ];
          split; [reflexivity | split; [left; reflexivity | discriminate ] ]
        | intros e [= <-]; trace_last ].
  destruct (settles (Scenario.frame_content s)) as [[|] | e2] eqn:H2.
  2, 3: step_scenario; rewrite ?H1; step_scenario; rewrite ?H2; step_scenario;
        (split; [reflexivity | split ]);
        [ eexists; split; [trace_calls; reflexivity | ];
          split; [reflexivity | split; [left; reflexivity | discriminate ] ]
        | intros e [= <-]; trace_last ].
  destruct (settles (Scenario.target_visible s)) as [[] | e3] eqn:H3.
  2: step_scenario; rewrite ?H1; step_scenario; rewrite ?H2; step_scenario;
     rewrite ?H3; step_scenario;
     (split; [reflexivity | split ]);
     [ eexists; split; [trace_calls; reflexivity | ];
       split; [reflexivity | split; [left; reflexivity | discriminate ] ]
     | intros e [= <-]; trace_last ].
  destruct (settles (Scenario.target_clicked s)) as [[] | e4] eqn:H4.
  2: step_scenario; rewrite ?H1; step_scenario; rewrite ?H2; step_scenario;
     rewrite ?H3; step_scenario; rewrite ?H4; step_scenario;
     (split; [reflexivity | split ]);
     [ eexists; split; [trace_calls; reflexivity | ];
       split; [cbn; rewrite String.eqb_refl; reflexivity
              | split; [right; reflexivity | discriminate ] ]
     | intros e [= <-]; trace_last ].
  destruct (settles (Scenario.paused s)) as [[] | e5] eqn:H5.
  all: step_scenario; rewrite ?H1; step_scenario; rewrite ?H2; step_scenario;
     rewrite ?H3; step_scenario; rewrite ?H4; step_scenario; rewrite ?H5; step_scenario;
     (split; [reflexivity | split ]);
     [ eexists; split; [trace_calls; reflexivity | ];
       split; [cbn; rewrite String.eqb_refl; reflexivity
              | split; [right; reflexivity | intros _; reflexivity ] ]
     | intros e; try discriminate; intros [= <-]; trace_last ].
Qed.

Lemma shot_facts (runnerId : Z) (stepName : string) (shot : capture) :
  let run := Scenario.takeScreenshot runnerId stepName shot [] in
  fst run = Fulfilled tt /\
  exists made,
    scenario_calls (snd run) = Scenario.PageQuery "iframe#iframeFE" :: made /\
    clicks_guarded (Some (Scenario.PageQuery "iframe#iframeFE")) made = true /\
    clicks made = [].
Proof.
  cbv zeta. unfold Scenario.takeScreenshot.
  destruct (settles (shot_query shot)) as [[|] | e1] eqn:H1.
  2, 3: step_scenario; rewrite ?H1; step_scenario;
        (split; [reflexivity | ]);
        eexists; (split; [trace_calls; reflexivity | split; reflexivity ]).
  destruct (settles (shot_capture shot)) as [[] | e2] eqn:H2.
  all: step_scenario; rewrite ?H1; step_scenario; rewrite ?H2; step_scenario;
       (split; [reflexivity | ]);
       eexists; (split; [trace_calls; reflexivity | split; reflexivity ]).
Qed.

(** Chaining: a computation that appends, followed by another. *)
Lemma bindX_appends {A B} (m : MX Scenario.trace A) (k : A -> MX Scenario.trace B)
    (tr : Scenario.trace) :
  appends m ->
  bindX m k tr
  = match fst (m []) with
    | Fulfilled a => k a (tr ++ snd (m []))%list
    | Thrown error => (Thrown error, (tr ++ snd (m []))%list)
    end.
Proof. intros Hm. unfold bindX. rewrite (Hm tr). reflexivity. Qed.

Lemma clicks_guarded_app (prev : option Scenario.call) (l made : list Scenario.call)
    (selector : string) :
  clicks_guarded prev l = true ->
  clicks_guarded (Some (Scenario.PageQuery selector)) made = true ->
  clicks_guarded prev (l ++ Scenario.PageQuery selector :: made)%list = true.
Proof.
  revert prev. induction l as [| c l IH]; intros prev Hl Hm.
  - cbn. exact Hm.
  - cbn [app clicks_guarded] in *. apply andb_true_iff in Hl. destruct Hl as (Hc & Hl).
    rewrite Hc, (IH _ Hl Hm). reflexivity.
Qed.

Lemma progress_shot (runnerId : Z) (stepName : string) (shot : capture)
    (k : nat) (tr : Scenario.trace) :
  progress k tr ->
  progress k (tr ++ snd (Scenario.takeScreenshot runnerId stepName shot []))%list.
Proof.
  intros (Hc & Hg).
  destruct (shot_facts runnerId stepName shot) as (_ & made & Hm & Hgm & Hcm).
  unfold progress. rewrite scenario_calls_app, Hm. split.
  - rewrite clicks_app. cbn [clicks flat_map app]. fold (clicks made).
    rewrite Hcm, Hc, app_nil_r. reflexivity.
  - apply clicks_guarded_app; assumption.
Qed.

Lemma progress_logged (lvl : level) (message : string) (k : nat) (tr : Scenario.trace) :
  progress k tr -> progress k (tr ++ [Scenario.Logged lvl message])%list.
Proof.
  intros (Hc & Hg). unfold progress.
  rewrite scenario_calls_app. cbn [scenario_calls flat_map app]. rewrite app_nil_r.
  split; assumption.
Qed.

Lemma firstn_succ {A} (l : list A) (k : nat) (x : A) :
  nth_error l k = Some x -> firstn (S k) l = (firstn k l ++ [x])%list.
Proof.
  revert k. induction l as [| y l IH]; intros [| k] H; try discriminate H.
  - injection H as ->. reflexivity.
  - cbn [nth_error] in H. change (y :: firstn (S k) l = y :: (firstn k l ++ [x])%list).
    f_equal. apply IH. exact H.
Qed.

Lemma progress_step (looking found done failed xp : string) (ms : Z)
    (s : Scenario.step_input) (k : nat) (tr : Scenario.trace) :
  nth_error targets k = Some ("xpath=" ++ xp) ->
  progress k tr ->
  let tr' := (tr ++ snd (Scenario.step looking found done failed xp ms s []))%list in
  (progress k tr' \/ progress (S k) tr') /\
  (step_result s = Fulfilled tt -> progress (S k) tr').
Proof.
  intros Hk (Hc & Hg). cbv zeta.
  destruct (step_facts looking found done failed xp ms s)
    as (_ & (made & Hm & Hgm & Hcm & Hok) & _).
  pose proof (firstn_succ targets k _ Hk) as Hnext.
  assert (Hg' : clicks_guarded None
                  (scenario_calls tr ++ Scenario.PageQuery "iframe#iframeFE" :: made)%list
                = true) by (apply clicks_guarded_app; assumption).
  assert (Hc' : clicks (scenario_calls tr ++ Scenario.PageQuery "iframe#iframeFE" :: made)%list
                = (firstn k targets ++ clicks made)%list).
  { rewrite clicks_app, Hc. reflexivity. }
  unfold progress. rewrite scenario_calls_app, Hm, Hc', Hnext. split.
  - destruct Hcm as [-> | ->]; [left | right]; rewrite ?app_nil_r; split; auto.
  - intros Hres. rewrite (Hok Hres). split; auto.
Qed.

Lemma chain_done :
  chain_ok 4 [] (Scenario.consoleLogger Info "Scenario execution completed successfully").
Proof.
  intros tr Hp. eexists. exists 4%nat. split; [reflexivity | ].
  split; [apply progress_logged; exact Hp | ].
  split; [intros _; split; [reflexivity | apply last_action_app] | discriminate].
Qed.

Lemma chain_step (runnerId : Z) (looking found done failed xp : string) (ms : Z)
    (s : Scenario.step_input) (stepName : string) (shot : capture)
    (k : nat) (results : list (outcome unit)) (rest : MX Scenario.trace unit) :
  nth_error targets k = Some ("xpath=" ++ xp) ->
  failed = "Step " ++ Js.show (Z.of_nat (S k)) ++ " failed: " ->
  chain_ok (S k) results rest ->
  chain_ok k (step_result s :: results)
    (bindX (Scenario.step looking found done failed xp ms s)
       (fun _ => bindX (Scenario.takeScreenshot runnerId stepName shot)
                   (fun _ => rest))).
Proof.
  intros Hk Hfailed Hrest tr Hp.
  rewrite bindX_appends by apply step_appends.
  destruct (step_facts looking found done failed xp ms s) as (Hres & _ & Hlast).
  destruct (progress_step looking found done failed xp ms s k tr Hk Hp) as (Hor & Hnext).
  cbv zeta in Hor, Hnext. rewrite Hres.
  destruct (step_result s) as [[] | e] eqn:Hs; cbn [first_failure failing_step].
  - rewrite bindX_appends by apply takeScreenshot_appends.
    rewrite (proj1 (shot_facts runnerId stepName shot)).
    destruct (Hrest _ (progress_shot runnerId stepName shot _ _ (Hnext eq_refl)))
      as (final & k' & Hrun & Hk' & Hok & Hfail).
    exists final, k'. auto.
  - eexists. destruct Hor as [Hor | Hor]; [exists k | exists (S k)].
    all: split; [reflexivity | split; [exact Hor | split; [discriminate | ] ] ].
    all: intros e' [= <-]; exists (S k); split; [reflexivity | ].
    all: specialize (Hlast e eq_refl); unfold step_failed_line; rewrite <- Hfailed.
    all: unfold last_action in *; rewrite rev_app_distr.
    all: destruct (rev (snd (Scenario.step looking found done failed xp ms s [])))
           as [| a l] eqn:Hrev; [discriminate Hlast | exact Hlast].
Qed.

Lemma last_action_inv (tr : Scenario.trace) (a : Scenario.action) :
  last_action tr = Some a -> exists before, tr = (before ++ [a])%list.
Proof.
  unfold last_action. intros H.
  destruct (rev tr) as [| b l] eqn:Hrev; [discriminate H | ]. injection H as ->.
  exists (rev l). rewrite <- (rev_involutive tr), Hrev. reflexivity.
Qed.

Lemma execute_run (runnerId : Z) (inp : Scenario.input) (tr : Scenario.trace) :
  let results := [step_result (Scenario.in_step1 inp);
                  step_result (Scenario.in_step2 inp);
                  step_result (Scenario.in_step3 inp);
                  step_result (Scenario.in_step4 inp)] in
  progress 0 tr ->
  exists final k,
    Scenario.execute runnerId inp tr = (first_failure results, final) /\
    progress k final /\
    match first_failure results with
    | Fulfilled _ =>
        k = 4%nat /\
        last_action final
        = Some (Scenario.Logged Info "Scenario execution completed successfully")
    | Thrown e =>
        exists n before,
          failing_step 1 results = Some n /\
          final = (before ++ [step_failed_line n e;
                              Scenario.Logged Error ("Scenario execution failed: " ++ e)])%list
    end.
Proof.
  cbv zeta. intros Hp.
  assert (Hbody : chain_ok 0
            [step_result (Scenario.in_step1 inp); step_result (Scenario.in_step2 inp);
             step_result (Scenario.in_step3 inp); step_result (Scenario.in_step4 inp)]
            (bindX (Scenario.step1 (Scenario.in_step1 inp))
               (fun _ => bindX (Scenario.takeScreenshot runnerId "step1"
                                  (Scenario.in_shot1 inp))
                  (fun _ => bindX (Scenario.step2 (Scenario.in_step2 inp))
                     (fun _ => bindX (Scenario.takeScreenshot runnerId "step2"
                                        (Scenario.in_shot2 inp))
                        (fun _ => bindX (Scenario.step3 (Scenario.in_step3 inp))
                           (fun _ => bindX (Scenario.takeScreenshot runnerId "step3"
                                              (Scenario.in_shot3 inp))
                              (fun _ => bindX (Scenario.step4 (Scenario.in_step4 inp))
                                 (fun _ => bindX (Scenario.takeScreenshot runnerId
                                                    "step4" (Scenario.in_shot4 inp))
                                    (fun _ => Scenario.consoleLogger Info
                                       "Scenario execution completed successfully")))))))))).
  { apply (chain_step runnerId); [reflexivity | reflexivity | ].
    apply (chain_step runnerId); [reflexivity | reflexivity | ].
    apply (chain_step runnerId); [reflexivity | reflexivity | ].
    apply (chain_step runnerId); [reflexivity | reflexivity | ].
    apply chain_done. }
  unfold Scenario.execute. unfold bindX at 1. unfold Scenario.consoleLogger at 1.
  cbv beta iota. unfold try_catch.
  destruct (Hbody (tr ++ [Scenario.Logged Info "Starting scenario execution..."])%list
              (progress_logged _ _ _ _ Hp))
    as (final & k & Hrun & Hk & Hok & Hfail).
  rewrite Hrun.
  destruct (first_failure _) as [[] | e].
  - exists final, k. split; [reflexivity | split; [exact Hk | apply Hok; reflexivity] ].
  - unfold Scenario.consoleLogger, bindX, throwX. eexists. exists k.
    split; [reflexivity | split; [apply progress_logged; exact Hk | ] ].
    destruct (Hfail e eq_refl) as (n & Hn & Hlast).
    destruct (last_action_inv _ _ Hlast) as (before & ->).
    exists n, before. split; [exact Hn | ]. rewrite <- app_assoc. reflexivity.
Qed.

Lemma progress_start : progress 0 [].
Proof. split; reflexivity. Qed.

(** X18. [execute()] settles as its first failing step
    does: a step fails when the iframe is not found or has no frame, or
    when one of its calls rejects, and the screenshots never make the
    scenario fail. When all four steps succeed the last thing done is to
    log "Scenario execution completed successfully"; otherwise the
    error of the failing step is rethrown, and the last two things done
    are to log "Step <n> failed: <error>", where [n] is the number of
    the first step that fails, and "Scenario execution failed:
    <error>". *)
Theorem scenario_fails_with_its_first_failing_step (runnerId : Z)
    (inp : Scenario.input) :
  let results := [step_result (Scenario.in_step1 inp);
                  step_result (Scenario.in_step2 inp);
                  step_result (Scenario.in_step3 inp);
                  step_result (Scenario.in_step4 inp)] in
  let result := resultX (Scenario.execute runnerId inp) [] in
  let final := execX (Scenario.execute runnerId inp) [] in
  result = first_failure results /\
  match result with
  | Fulfilled _ =>
      failing_step 1 results = None /\
      last_action final
      = Some (Scenario.Logged Info "Scenario execution completed successfully")
  | Thrown error =>
      exists n before,
        failing_step 1 results = Some n /\
        final
        = (before
             ++ [Scenario.Logged Error
                   (("Step " ++ Js.show (Z.of_nat n) ++ " failed: ") ++ error);
                 Scenario.Logged Error ("Scenario execution failed: " ++ error)])%list
  end.
Proof.
  cbv zeta. unfold resultX, execX.
  destruct (execute_run runnerId inp [] progress_start) as (final & k & Hrun & _ & H).
  cbv zeta in Hrun, H. rewrite Hrun. cbn [fst snd]. split; [reflexivity | ].
  destruct (first_failure _) as [[] | e] eqn:Hfirst; [ | exact H ].
  split; [ | apply H ].
  revert Hfirst. generalize 1%nat.
  generalize [step_result (Scenario.in_step1 inp); step_result (Scenario.in_step2 inp);
              step_result (Scenario.in_step3 inp); step_result (Scenario.in_step4 inp)].
  intros results. induction results as [| [[] | e] results IH]; intros n Hfirst.
  - reflexivity.
  - cbn [failing_step first_failure] in *. apply IH. exact Hfirst.
  - discriminate Hfirst.
Qed.

(** X19. Whatever the browser does, every click of
    [execute()] comes directly after the wait (10 s, visible) for the
    element it clicks, and the elements clicked are the first [k] of
    the four targets, in order, all four when the scenario is
    fulfilled. *)
Theorem clicks_follow_their_waits (runnerId : Z) (inp : Scenario.input) :
  let made := scenario_calls (execX (Scenario.execute runnerId inp) []) in
  clicks_guarded None made = true /\
  exists k,
    clicks made = firstn k targets /\
    (resultX (Scenario.execute runnerId inp) [] = Fulfilled tt -> k = 4%nat).
Proof.
  cbv zeta. unfold resultX, execX.
  destruct (execute_run runnerId inp [] progress_start)
    as (final & k & Hrun & (Hc & Hg) & H).
  cbv zeta in Hrun, H. rewrite Hrun. cbn [fst snd].
  split; [exact Hg | ]. exists k. split; [exact Hc | ].
  intros Hres. rewrite Hres in H. apply H.
Qed.

(* ----------------------------------------------------------------- *)
(** *** The scenario within a session *)

Lemma scenario_log_In (lvl : level) (message : string) (tr : Scenario.trace) :
  In (Scenario.Logged lvl message) tr -> In (lvl, message) (scenario_log tr).
Proof.
  intros Hin. unfold scenario_log. apply in_flat_map.
  exists (Scenario.Logged lvl message). split; [exact Hin | left; reflexivity].
Qed.

Section ScenarioInRunner.

Context {RT : Js.Runtime}.

(** The lines of the scenario reach the runner's console log. *)
Lemma executeScenario_lines (env : environment) (r : Runner) (line : level * string) :
  page r <> None ->
  In line (scenario_lines (env_scenario env)) ->
  In line (consoleLog (eventHandler (execX (executeScenario env) r))).
Proof.
  intros Hp Hin. unfold executeScenario, execX.
  rewrite bindX_getsX. destruct (page r); [ | contradiction ].
  destruct (scenario_settles (env_scenario env)) as [[] | e] eqn:Hs.
  all: repeat (step_runner; rewrite ?Hs).
  all: cbn [consoleLogger CustomEventHandler_loggers]; rewrite ?exec_modify; fields.
  all: first [ apply in_or_app; right; exact Hin
             | apply in_or_app; left; apply in_or_app; right; exact Hin ].
Qed.

(** X20. A runner whose scenario is the [Scenario] class:
    when the critical check passes and a step of the scenario fails,
    the console log ends up with the error at each level it went
    through ("Step <n> failed" with the number of the first step that
    fails, "Scenario execution failed", "Scenario execution error",
    "Error"), and the error does not leave [run()], which settles as
    its [context.close()] does. *)
Theorem a_failing_step_is_logged_at_every_level (env : environment)
    (inp : Scenario.input) (t0 this_url : string) (this_id : Z) (r1 : Runner)
    (error : string) :
  run_setup env (new_Runner t0 this_url this_id) = (Fulfilled tt, r1) ->
  eval hasCriticalFailure (eventHandler r1) = false ->
  env_scenario env = Scenario_as_collaborator this_id inp ->
  resultX (Scenario.execute this_id inp) [] = Thrown error ->
  let final := execX (run env) (new_Runner t0 this_url this_id) in
  let logged := fun message => In (Error, message) (consoleLog (eventHandler final)) in
  (exists n,
      failing_step 1 [step_result (Scenario.in_step1 inp);
                      step_result (Scenario.in_step2 inp);
                      step_result (Scenario.in_step3 inp);
                      step_result (Scenario.in_step4 inp)] = Some n /\
      logged (("Step " ++ Js.show (Z.of_nat n) ++ " failed: ") ++ error)) /\
  logged ("Scenario execution failed: " ++ error) /\
  logged ("Scenario execution error: " ++ error) /\
  logged ("Error: " ++ error) /\
  resultX (run env) (new_Runner t0 this_url this_id) = settles (env_close env).
Proof.
  intros Hsetup Hfailed Henv Hthrown. cbv zeta.
  set (r0 := new_Runner t0 this_url this_id) in *.
  destruct (run_setup_fulfilled env r0 r1 Hsetup) as (_ & Hpage & Hnc).
  assert (Hp1 : page r1 <> None) by (rewrite Hpage; discriminate).
  assert (Hsettles : scenario_settles (env_scenario env) = Thrown error).
  { rewrite Henv. exact Hthrown. }
  (* the state after the "before" screenshot and after the scenario *)
  set (rb := execX (captureScreenshot (Some "before-scenario") (env_shot_before env)) r1).
  assert (Hpb : page rb <> None).
  { destruct (captureScreenshot_handles (Some "before-scenario") (env_shot_before env) r1)
      as (_ & Hpg). fold rb in Hpg. rewrite Hpg. exact Hp1. }
  set (r3 := execX (executeScenario env) rb).
  assert (Hexec : executeScenario env rb = (Thrown error, r3)).
  { destruct (executeScenario_effect env rb Hpb) as (Hres & _).
    unfold resultX in Hres. unfold r3, execX.
    destruct (executeScenario env rb) as [o r]. cbn [fst snd] in *.
    rewrite Hres, Hsettles. reflexivity. }
  assert (Hbody : try_catch (run_gated env) run_catch r1 = run_catch error r3).
  { unfold try_catch. rewrite run_gated_unfold, Hfailed.
    rewrite (bindX_never_throws _ _ _
               (captureScreenshot_never_throws (Some "before-scenario")
                  (env_shot_before env))).
    fold rb. unfold bindX at 1. rewrite Hexec. reflexivity. }
  set (r4 := execX (run_catch error) r3).
  assert (Hfinal : execX (run env) r0 = execX (run_cleanup env) r4).
  { rewrite run_unfold, execX_try_finally.
    unfold execX at 2. rewrite (run_body_after_setup env r0 r1 Hsetup), Hbody.
    reflexivity. }
  assert (Hgrow4 : on_handler console_log_grows r3 r4).
  { unfold r4, run_catch. apply (lifted_on_eventHandler console_log_grows).
    apply consoleLogger_console_log_grows. }
  assert (Hgrow5 : on_handler console_log_grows r4 (execX (run_cleanup env) r4))
    by apply run_cleanup_effect.
  assert (Hkeep : forall line,
             In line (consoleLog (eventHandler r3)) ->
             In line (consoleLog (eventHandler (execX (run env) r0)))).
  { intros line Hin. rewrite Hfinal.
    eapply grown_In; [exact Hgrow5 | ]. eapply grown_In; [exact Hgrow4 | exact Hin]. }
  (* what the scenario logged *)
  destruct (execute_run this_id inp [] progress_start) as (tr & k & Hrun & _ & Hlog).
  cbv zeta in Hrun, Hlog. unfold resultX in Hthrown. rewrite Hrun in Hthrown.
  cbn [fst] in Hthrown. rewrite Hthrown in Hlog, Hrun.
  destruct Hlog as (n & before & Hn & Hends).
  assert (Htr : execX (Scenario.execute this_id inp) [] = tr)
    by (unfold execX; rewrite Hrun; reflexivity).
  split; [ | split; [ | split; [ | split ] ] ].
  - exists n. split; [exact Hn | ].
    apply Hkeep, executeScenario_lines; [exact Hpb | ].
    rewrite Henv. cbn [scenario_lines Scenario_as_collaborator]. rewrite Htr.
    apply scenario_log_In. rewrite Hends. apply in_or_app. right. left. reflexivity.
  - apply Hkeep, executeScenario_lines; [exact Hpb | ].
    rewrite Henv. cbn [scenario_lines Scenario_as_collaborator]. rewrite Htr.
    apply scenario_log_In. rewrite Hends. apply in_or_app. right. right. left.
    reflexivity.
  - apply Hkeep. apply (executeScenario_effect env rb Hpb). exact Hsettles.
  - rewrite Hfinal. eapply grown_In; [exact Hgrow5 | ].
    apply (logger_effect Error ("Error: " ++ error) r3).
  - rewrite run_settles, run_body_context by reflexivity.
    unfold owns_context. rewrite Hnc. reflexivity.
Qed.

End ScenarioInRunner.

(* ================================================================= *)
(** ** Further properties of the launcher *)

Lemma interleaving_only (i0 : nat) (f : remaining) (merged : list (actor * call)) :
  interleaving f merged ->
  (forall i, i <> i0 -> f i = []) ->
  merged = tagged i0 (f i0).
Proof.
  intros H. induction H as [f Hnone | f i c rest merged Hf Hrest IH]; intros Hother.
  - rewrite Hnone. reflexivity.
  - destruct (Nat.eq_dec i i0) as [-> | Hne].
    + rewrite Hf. cbn [tagged map]. f_equal.
      rewrite IH.
      * unfold advance. rewrite Nat.eqb_refl. reflexivity.
      * intros j Hj. unfold advance.
        destruct (Nat.eqb_spec j i0); [contradiction | apply Hother; exact Hj].
    + rewrite (Hother i Hne) in Hf. discriminate Hf.
Qed.

Section LauncherEdges.

Context {RT : Js.Runtime}.

Lemma runner_promise_no_url (URLS : list string) (i : nat) (input : session_input) :
  no_url URLS input -> runner_promise URLS i input = (Fulfilled tt, []).
Proof.
  unfold no_url, runner_promise.
  destruct (nth_error URLS (pick input)) as [u |]; [ | reflexivity ].
  intros ->. reflexivity.
Qed.

(** X21. When no session gets a URL (the list is empty, or the
    entries drawn are empty), no session makes any call and the
    launcher only closes the browser. *)
Theorem without_urls_only_the_browser_is_closed (count : nat) (URLS : list string)
    (input_of : nat -> session_input) (trace : list (actor * call)) :
  (forall i, (i < count)%nat -> no_url URLS (input_of i)) ->
  launch (runnerPromises count URLS input_of) trace ->
  trace = [(Launcher, BrowserClose)].
Proof.
  intros Hno Hlaunch.
  assert (Hcalls : forall i, calls_of (runnerPromises count URLS input_of) i = []).
  { intros i. unfold calls_of.
    destruct (Nat.lt_ge_cases i count) as [Hlt | Hge].
    - rewrite nth_error_runnerPromises by exact Hlt.
      rewrite (runner_promise_no_url _ _ _ (Hno i Hlt)). reflexivity.
    - replace (nth_error (runnerPromises count URLS input_of) i) with
        (@None (outcome unit * list call)); [reflexivity | ].
      symmetry. apply nth_error_None. unfold runnerPromises.
      rewrite length_map, length_seq. exact Hge. }
  destruct Hlaunch as [merged _ Hmerge | k error made before after cut Hk _ _].
  - rewrite (interleaving_only 0 _ _ Hmerge (fun i _ => Hcalls i)), Hcalls. reflexivity.
  - exfalso.
    assert (Hall : Forall (fun p => fst p = Fulfilled tt)
                     (runnerPromises count URLS input_of)).
    { apply runnerPromises_fulfilled. intros i Hi Hown. exfalso.
      specialize (Hno i Hi). unfold no_url, session_owns_context in *.
      destruct (nth_error URLS (pick (input_of i))) as [u |];
        [subst u; discriminate Hown | discriminate Hown]. }
    apply nth_error_In in Hk. rewrite Forall_forall in Hall.
    specialize (Hall _ Hk). discriminate Hall.
Qed.

(** X22. The program as written starts one session: its run
    is the calls of that session followed by [browser.close()], and when
    the session came to own a context, [context.close()] comes directly
    before it. *)
Theorem a_single_session_runs_before_the_browser_closes (URLS : list string)
    (input_of : nat -> session_input) (trace : list (actor * call)) :
  launch (main_runnerPromises URLS input_of) trace ->
  trace
  = (tagged 0 (snd (runner_promise URLS 0 (input_of 0%nat)))
       ++ [(Launcher, BrowserClose)])%list /\
  (session_owns_context URLS (input_of 0%nat) = true ->
   exists made,
     trace = (tagged 0 made
                ++ [(Session 0, ContextClose); (Launcher, BrowserClose)])%list /\
     Forall own_call made).
Proof.
  intros Hlaunch. unfold main_runnerPromises, RUNNER_COUNT in *.
  assert (Hone : forall merged,
             interleaving (calls_of (runnerPromises 1 URLS input_of)) merged ->
             merged = tagged 0 (snd (runner_promise URLS 0 (input_of 0%nat)))).
  { intros merged Hmerge. rewrite (interleaving_only 0 _ _ Hmerge).
    - unfold calls_of. rewrite nth_error_runnerPromises by lia. reflexivity.
    - intros i Hi. unfold calls_of, runnerPromises. cbn [seq map].
      destruct i as [| i]; [contradiction | ]. destruct i; reflexivity. }
  assert (Htrace : trace
                   = (tagged 0 (snd (runner_promise URLS 0 (input_of 0%nat)))
                        ++ [(Launcher, BrowserClose)])%list).
  { destruct Hlaunch
      as [merged _ Hmerge | k error made before after cut Hk Hmerge Hafter].
    - rewrite (Hone _ Hmerge). reflexivity.
    - assert (k = 0%nat) as ->.
      { assert (Hlt : (k < 1)%nat); [ | lia ].
        replace 1%nat with (List.length (runnerPromises 1 URLS input_of)) by reflexivity.
        apply nth_error_Some. rewrite Hk. discriminate. }
      pose proof (Hone _ Hmerge) as Hboth.
      destruct (after ++ cut)%list as [| a rest] eqn:Hrest.
      + apply app_eq_nil in Hrest. destruct Hrest as (-> & _).
        rewrite app_nil_r in Hboth. rewrite Hboth. reflexivity.
      + exfalso. inversion Hafter as [| ? ? Ha _]. subst.
        assert (Hin : In a (tagged 0 (snd (runner_promise URLS 0 (input_of 0%nat))))).
        { rewrite <- Hboth. apply in_or_app. right. left. reflexivity. }
        unfold tagged in Hin. apply in_map_iff in Hin. destruct Hin as (c & <- & _).
        discriminate Ha. }
  split; [exact Htrace | ].
  intros Howns. unfold session_owns_context in Howns.
  rewrite Htrace. unfold runner_promise.
  destruct (nth_error URLS (pick (input_of 0%nat))) as [u |]; [ | discriminate Howns ].
  destruct (String.eqb u ""); [discriminate Howns | ]. cbn [negb andb] in Howns.
  destruct (run_releases_once (env (input_of 0%nat)) (created (input_of 0%nat)) u
              (Z.of_nat 0)) as (_ & (made & Hmade & Hown) & _).
  unfold execX in Hmade.
  destruct (run (env (input_of 0%nat))
              (new_Runner (created (input_of 0%nat)) u (Z.of_nat 0))) as [o r'].
  cbn [snd] in *. rewrite Hmade, Howns. exists made. split; [ | exact Hown ].
  unfold tagged. rewrite map_app, <- app_assoc. reflexivity.
Qed.

End LauncherEdges.

(* ================================================================= *)
(** ** Concrete runs *)

#[local] Existing Instance sample_runtime.

(** A handler whose two flags are up keeps them through further events. *)
Lemma flags_are_sticky_witness :
  (criticalEndpointFailed failed_handler = true /\
   healthCheckPassed failed_handler = true) /\
  criticalEndpointFailed (exec (deliver_all healthy_events) failed_handler) = true /\
  healthCheckPassed (exec (deliver_all healthy_events) failed_handler) = true.
Proof.
  pose proof (flags_are_sticky "" failed_handler healthy_events) as (_ & Hf & Hp & _).
  assert (A : criticalEndpointFailed failed_handler = true) by reflexivity.
  assert (B : healthCheckPassed failed_handler = true) by reflexivity.
  exact (conj (conj A B) (conj (Hf A) (Hp B))).
Defined.

(** The console-error counter over a run that logs one more error. *)
Lemma counters_never_decrease_witness :
  consoleErrors (eval getStats failed_handler)
  <= consoleErrors (eval getStats (exec (deliver_all healthy_events) failed_handler)).
Proof.
  pose proof (counters_never_decrease failed_handler) as (_ & H & _).
  apply (H healthy_events).
Defined.

(** A 503 from [/health] leaves the stored observations alone. *)
Lemma non_2xx_leaves_endpoint_state_witness :
  (503 < 200 \/ 300 <= 503) /\
  criticalEndpointResponses
    (exec (handleResponse (response_to "https://app.example/health" 503 (Rejected "")))
          failed_handler)
  = criticalEndpointResponses failed_handler.
Proof.
  assert (Hs : 503 < 200 \/ 300 <= 503) by lia.
  split; [exact Hs | ].
  apply (non_2xx_leaves_endpoint_state
           (response_to "https://app.example/health" 503 (Rejected "")) failed_handler).
  - exists "/health". split; [unfold criticalEndpoints; cbn [In]; tauto | reflexivity].
  - exact Hs.
Defined.

(** A 204 from [/health] replaces the stored health observation. *)
Lemma observations_bounded_last_write_wins_witness :
  eval (getEndpointResponse "/health")
       (exec (deliver ("2025-01-01T00:00:09.000Z",
                       ResponseEvent
                         (response_to "https://app.example/health" 204 (Rejected ""))))
             failed_handler)
  = Some (health_observation "2025-01-01T00:00:09.000Z"
            (response_to "https://app.example/health" 204 (Rejected ""))).
Proof.
  pose proof (observations_bounded_last_write_wins "2025-01-01T00:00:00.000Z"
                (sample_load true)) as (_ & H & _).
  apply H.
  - cbn [resp_status response_to]. lia.
  - reflexivity.
Defined.

(** [/getToken] was never answered and [/metrics] is not critical. *)
Lemma unobserved_endpoint_is_undefined_witness :
  (eval (getEndpointResponse "/getToken")
        (exec (deliver_all healthy_events)
              (new_CustomEventHandler "2025-01-01T00:00:00.000Z")) = None) /\
  (eval (getEndpointResponse "/metrics")
        (exec (deliver_all healthy_events)
              (new_CustomEventHandler "2025-01-01T00:00:00.000Z")) = None).
Proof.
  split.
  - apply (unobserved_endpoint_is_undefined "2025-01-01T00:00:00.000Z"
             healthy_events "/getToken").
    right. left. intros t response Hin _.
    unfold healthy_events in Hin. cbn [In] in Hin.
    destruct Hin as [Hin | [Hin | [Hin | [Hin | []]]]];
      inversion Hin; subst; reflexivity.
  - apply (unobserved_endpoint_is_undefined "2025-01-01T00:00:00.000Z"
             healthy_events "/metrics").
    left. unfold criticalEndpoints. cbn [In].
    intros [H | [H | [H | [H | [H | []]]]]]; discriminate H.
Defined.

(** Scenario A with the body of [/getToken] settling first. *)
Lemma scenario_A_witness :
  responses_in scenario_A_events
  = [response_to "https://app.example/getStore" 200 (Parsed (error_body false));
     response_to "https://app.example/getToken" 200 (Parsed (error_body false));
     response_to "https://app.example/health" 200
       (Rejected "SyntaxError: Unexpected token");
     response_to "https://app.example/getOrderTypeData" 200
       (Parsed (error_body true))] /\
  eval hasCriticalFailure
    (exec (deliver_all scenario_A_events)
          (new_CustomEventHandler "2025-01-01T00:00:00.000Z"))
  = true.
Proof.
  split; [reflexivity | ].
  apply (scenario_A "https://app.example/getStore" "https://app.example/getToken"
           "https://app.example/health" "https://app.example/getOrderTypeData"
           (Rejected "SyntaxError: Unexpected token")
           eq_refl eq_refl eq_refl eq_refl
           "2025-01-01T00:00:00.000Z" scenario_A_events).
  - reflexivity.
  - vm_compute. reflexivity.
Defined.

(** A session whose page load reports an error in [/getStore]: the
    diagnostic screenshot is taken and the scenario is not invoked. *)
Lemma critical_failure_short_circuits_witness :
  run_setup (sample_environment (sample_load true) (Fulfilled tt))
            (new_Runner "2025-01-01T00:00:00.000Z" "https://app.example/" 0)
  = (Fulfilled tt,
     execX (run_setup (sample_environment (sample_load true) (Fulfilled tt)))
           (new_Runner "2025-01-01T00:00:00.000Z" "https://app.example/" 0)) /\
  eval hasCriticalFailure
    (eventHandler
       (execX (run_setup (sample_environment (sample_load true) (Fulfilled tt)))
              (new_Runner "2025-01-01T00:00:00.000Z" "https://app.example/" 0)))
  = true /\
  calls (execX (run (sample_environment (sample_load true) (Fulfilled tt)))
               (new_Runner "2025-01-01T00:00:00.000Z" "https://app.example/" 0))
  = (calls (execX (run_setup (sample_environment (sample_load true) (Fulfilled tt)))
                  (new_Runner "2025-01-01T00:00:00.000Z" "https://app.example/" 0))
       ++ [PageQuery "iframe#iframeFE";
           ElementScreenshot "runner-0-2025-01-01T00-00-10-000Z.png";
           ContextClose])%list /\
  ~ In ScenarioExecute
      (calls (execX (run (sample_environment (sample_load true) (Fulfilled tt)))
                    (new_Runner "2025-01-01T00:00:00.000Z" "https://app.example/" 0))) /\
  resultX (run (sample_environment (sample_load true) (Fulfilled tt)))
          (new_Runner "2025-01-01T00:00:00.000Z" "https://app.example/" 0)
  = Fulfilled tt.
Proof.
  assert (H1 : run_setup (sample_environment (sample_load true) (Fulfilled tt))
                 (new_Runner "2025-01-01T00:00:00.000Z" "https://app.example/" 0)
               = (Fulfilled tt,
                  execX (run_setup (sample_environment (sample_load true) (Fulfilled tt)))
                        (new_Runner "2025-01-01T00:00:00.000Z" "https://app.example/" 0)))
    by (vm_compute; reflexivity).
  assert (H2 : eval hasCriticalFailure
                 (eventHandler
                    (execX (run_setup (sample_environment (sample_load true)
                                         (Fulfilled tt)))
                           (new_Runner "2025-01-01T00:00:00.000Z"
                              "https://app.example/" 0))) = true)
    by (vm_compute; reflexivity).
  pose proof (critical_failure_short_circuits
                (sample_environment (sample_load true) (Fulfilled tt))
                "2025-01-01T00:00:00.000Z" "https://app.example/" 0 _ H1)
    as Hthm.
  cbv zeta in Hthm. destruct Hthm as (Habort & _ & Hiff & Hres).
  split; [exact H1 | split; [exact H2 | split; [ | split ] ] ].
  - exact (proj1 (Habort H2)).
  - intros Hin. pose proof (proj1 Hiff Hin) as Hf.
    exact (diff_true_false (eq_trans (eq_sym H2) Hf)).
  - exact Hres.
Defined.

(** A session whose page load reports an error in [/getStore] and whose
    page never shows the iframe: the flag is up at the check, the
    element is queried and not found, and no screenshot is captured. *)
Lemma critical_failure_without_screenshot :
  resultX (run_setup (environment_without_iframe (sample_load true)))
          (new_Runner "2025-01-01T00:00:00.000Z" "https://app.example/" 0)
  = Fulfilled tt /\
  eval hasCriticalFailure
    (eventHandler
       (execX (run_setup (environment_without_iframe (sample_load true)))
              (new_Runner "2025-01-01T00:00:00.000Z" "https://app.example/" 0)))
  = true /\
  calls (execX (run (environment_without_iframe (sample_load true)))
               (new_Runner "2025-01-01T00:00:00.000Z" "https://app.example/" 0))
  = [BrowserNewContext; ContextNewPage; PageOn "console"; PageOn "request";
     PageOn "response"; PageGoto "https://app.example/";
     PageWaitForSelector "iframe#iframeFE" 10000; PageWaitForResponse 30000;
     SetTimeout 100; PageQuery "iframe#iframeFE"; ContextClose] /\
  ~ (exists filename,
        In (ElementScreenshot filename)
           (calls (execX (run (environment_without_iframe (sample_load true)))
                         (new_Runner "2025-01-01T00:00:00.000Z"
                            "https://app.example/" 0)))).
Proof.
  assert (Hcalls :
            calls (execX (run (environment_without_iframe (sample_load true)))
                         (new_Runner "2025-01-01T00:00:00.000Z" "https://app.example/" 0))
            = [BrowserNewContext; ContextNewPage; PageOn "console"; PageOn "request";
               PageOn "response"; PageGoto "https://app.example/";
               PageWaitForSelector "iframe#iframeFE" 10000; PageWaitForResponse 30000;
               SetTimeout 100; PageQuery "iframe#iframeFE"; ContextClose])
    by (vm_compute; reflexivity).
  split; [vm_compute; reflexivity | ].
  split; [vm_compute; reflexivity | ].
  split; [exact Hcalls | ].
  rewrite Hcalls. intros (filename & Hin). cbn [In] in Hin.
  repeat (destruct Hin as [Hin | Hin]; [discriminate Hin | ]). exact Hin.
Qed.


(* ----------------------------------------------------------------- *)
(** *** Runs of the further properties *)


(** The record of [/getStore] after a load in which it answered
    [{error: true}]. *)
Lemma stored_records_are_consistent_witness :
  let o := body_record "https://app.example/getStore" "2025-01-01T00:00:02.000Z"
             200 (error_body true) in
  eval (getEndpointResponse "/getStore") failed_handler = Some o /\
  In "/getStore" criticalEndpoints /\
  Js.endsWith (obs_url o) "/getStore" = true /\
  200 <= obs_status o < 300 /\
  record_shape "/getStore" o.
Proof.
  intros o.
  assert (H : eval (getEndpointResponse "/getStore") failed_handler = Some o)
    by (vm_compute; reflexivity).
  pose proof (stored_records_are_consistent "2025-01-01T00:00:00.000Z"
                (sample_load true) "/getStore" o H)
    as (H1 & H2 & H3 & H4 & _).
  exact (conj H (conj H1 (conj H2 (conj H3 H4)))).
Defined.

(** A browser that cannot create a context, one that cannot create a
    page, and one in which the navigation fails. *)
Lemma run_stops_at_the_first_setup_failure_witness :
  calls (execX (run (broken_environment (Thrown "Error: browser has been closed")
                       (Fulfilled tt) (Fulfilled tt) (Fulfilled tt)))
               (new_Runner "2025-01-01T00:00:00.000Z" "https://app.example/" 0))
  = [BrowserNewContext] /\
  calls (execX (run (broken_environment (Fulfilled tt)
                       (Thrown "Error: browser has been closed") (Fulfilled tt)
                       (Fulfilled tt)))
               (new_Runner "2025-01-01T00:00:00.000Z" "https://app.example/" 0))
  = [BrowserNewContext; ContextNewPage; ContextClose] /\
  calls (execX (run (broken_environment (Fulfilled tt) (Fulfilled tt)
                       (Thrown "Error: net::ERR_CONNECTION_REFUSED") (Fulfilled tt)))
               (new_Runner "2025-01-01T00:00:00.000Z" "https://app.example/" 0))
  = [BrowserNewContext; ContextNewPage; PageOn "console"; PageOn "request";
     PageOn "response"; PageGoto "https://app.example/"; ContextClose].
Proof.
  split; [ | split ].
  - pose proof (run_stops_at_the_first_setup_failure
                  (broken_environment (Thrown "Error: browser has been closed")
                     (Fulfilled tt) (Fulfilled tt) (Fulfilled tt))
                  "2025-01-01T00:00:00.000Z" "https://app.example/" 0
                  "Error: browser has been closed") as (H & _).
    exact (proj1 (H eq_refl)).
  - pose proof (run_stops_at_the_first_setup_failure
                  (broken_environment (Fulfilled tt)
                     (Thrown "Error: browser has been closed") (Fulfilled tt)
                     (Fulfilled tt))
                  "2025-01-01T00:00:00.000Z" "https://app.example/" 0
                  "Error: browser has been closed") as (_ & H & _).
    exact (proj1 (H eq_refl eq_refl)).
  - pose proof (run_stops_at_the_first_setup_failure
                  (broken_environment (Fulfilled tt) (Fulfilled tt)
                     (Thrown "Error: net::ERR_CONNECTION_REFUSED") (Fulfilled tt))
                  "2025-01-01T00:00:00.000Z" "https://app.example/" 0
                  "Error: net::ERR_CONNECTION_REFUSED") as (_ & _ & H).
    exact (proj1 (H eq_refl eq_refl eq_refl)).
Defined.

(** A browser in which every call succeeds. *)
Lemma listeners_precede_navigation_witness :
  env_newContext (sample_environment (sample_load false) (Fulfilled tt)) = Fulfilled tt /\
  env_newPage (sample_environment (sample_load false) (Fulfilled tt)) = Fulfilled tt /\
  exists rest,
    calls (execX (run (sample_environment (sample_load false) (Fulfilled tt)))
                 (new_Runner "2025-01-01T00:00:00.000Z" "https://app.example/" 0))
    = ([BrowserNewContext; ContextNewPage; PageOn "console"; PageOn "request";
        PageOn "response"; PageGoto "https://app.example/"] ++ rest)%list.
Proof.
  split; [reflexivity | split; [reflexivity | ] ].
  exact (listeners_precede_navigation
           (sample_environment (sample_load false) (Fulfilled tt))
           "2025-01-01T00:00:00.000Z" "https://app.example/" 0 eq_refl eq_refl).
Defined.

(** The iframe of a session that has a page. *)
Lemma monitorIframe_goes_step_by_step_witness :
  page sample_session <> None /\
  calls (execX (monitorIframe (sample_environment (sample_load false) (Fulfilled tt)))
               sample_session)
  = (calls sample_session
       ++ [PageWaitForSelector "iframe#iframeFE" 10000; PageQuery "iframe#iframeFE";
           ElementContentFrame; FrameWaitForLoadState "networkidle"])%list /\
  last_line
    (consoleLog
       (eventHandler
          (execX (monitorIframe (sample_environment (sample_load false) (Fulfilled tt)))
                 sample_session)))
  = Some (Info, "iframe#iframeFE loaded and monitored").
Proof.
  assert (H : page sample_session <> None) by (vm_compute; discriminate).
  pose proof (monitorIframe_goes_step_by_step
                (sample_environment (sample_load false) (Fulfilled tt))
                sample_session H) as Hthm.
  cbv zeta in Hthm. destruct Hthm as (Hcalls & Hlast).
  split; [exact H | split ].
  - exact Hcalls.
  - exact (Hlast "https://app.example/frame" eq_refl eq_refl eq_refl).
Defined.

(** The health check of a session whose page load saw [/health]
    answer 200. *)
Lemma readiness_is_read_after_the_delay_witness :
  page sample_session <> None /\
  calls (execX (waitForAppReady (sample_environment (sample_load false) (Fulfilled tt)))
               sample_session)
  = (calls sample_session ++ [PageWaitForResponse 30000; SetTimeout 100])%list /\
  last_line
    (consoleLog
       (eventHandler
          (execX (waitForAppReady (sample_environment (sample_load false) (Fulfilled tt)))
                 sample_session)))
  = Some (Info, "App is ready: Health check passed").
Proof.
  assert (H : page sample_session <> None) by (vm_compute; discriminate).
  split; [exact H | ].
  exact (readiness_is_read_after_the_delay
           (sample_environment (sample_load false) (Fulfilled tt))
           sample_session H).
Defined.

(** The summary of a session that tracked [/getStore] and [/health]. *)
Lemma summary_reports_every_tracked_endpoint_witness :
  eventHandler sample_session
  = with_consoleLog sample_session_lines
      (exec (deliver_all (sample_load false))
            (new_CustomEventHandler "2025-01-01T00:00:00.000Z")) /\
  consoleLog (eventHandler (execX logResponseSummary sample_session))
  = (consoleLog (eventHandler sample_session)
       ++ [(Info, "=== Runner Summary ===");
           (Info, "Total Requests: 0");
           (Info, "Console Errors: 0");
           (Info, "Server Errors: 0");
           (Info, "Critical Endpoints Tracked: 2");
           (Info, "/getStore: SUCCESS");
           (Info, "/health: SUCCESS")])%list /\
  calls (execX logResponseSummary sample_session) = calls sample_session.
Proof.
  assert (H : eventHandler sample_session
              = with_consoleLog sample_session_lines
                  (exec (deliver_all (sample_load false))
                        (new_CustomEventHandler "2025-01-01T00:00:00.000Z")))
    by (vm_compute; reflexivity).
  split; [exact H | ].
  exact (summary_reports_every_tracked_endpoint "2025-01-01T00:00:00.000Z"
           (sample_load false) sample_session_lines sample_session H).
Defined.

(** Two renderings of one line. *)
Lemma log_lines_can_be_told_apart_witness :
  String.length "2025-01-01 00:00:01" = String.length "2025-01-01 00:00:01" /\
  render 0 "2025-01-01 00:00:01" (Info, "Opening: https://app.example/")
  = "[2025-01-01 00:00:01] [Runner 0] [INFO] Opening: https://app.example/" /\
  ("2025-01-01 00:00:01" = "2025-01-01 00:00:01" /\ 0 = 0 /\
   (Info, "Opening: https://app.example/") = (Info, "Opening: https://app.example/")).
Proof.
  split; [reflexivity | split; [reflexivity | ] ].
  exact (log_lines_can_be_told_apart 0 0 "2025-01-01 00:00:01" "2025-01-01 00:00:01"
           (Info, "Opening: https://app.example/")
           (Info, "Opening: https://app.example/") eq_refl eq_refl).
Defined.

(** The screenshot taken before the scenario. *)
Lemma screenshot_names_are_portable_witness :
  page sample_session <> None /\
  plain "before-scenario" = true /\
  exists base,
    calls (execX (captureScreenshot (Some "before-scenario")
                    (sample_capture "2025-01-01T00:00:11.000Z"))
                 sample_session)
    = (calls sample_session
         ++ [PageQuery "iframe#iframeFE"; ElementScreenshot (base ++ ".png")])%list /\
    plain base = true /\
    String.prefix ("runner-" ++ Js.show (id sample_session)) base = true.
Proof.
  assert (H : page sample_session <> None) by (vm_compute; discriminate).
  split; [exact H | split; [reflexivity | ] ].
  apply (screenshot_names_are_portable (Some "before-scenario")
           (sample_capture "2025-01-01T00:00:11.000Z") sample_session H).
  intros l Hl. injection Hl as <-. reflexivity.
Defined.

(** A session whose scenario times out in its second step. *)
Lemma a_failing_step_is_logged_at_every_level_witness :
  let env := scenario_environment (sample_load false) 0 sample_scenario in
  let start := new_Runner "2025-01-01T00:00:00.000Z" "https://app.example/" 0 in
  let error := "TimeoutError: Timeout 10000ms exceeded." in
  let logged := fun message =>
    In (Error, message) (consoleLog (eventHandler (execX (run env) start))) in
  run_setup env start = (Fulfilled tt, sample_session) /\
  eval hasCriticalFailure (eventHandler sample_session) = false /\
  resultX (Scenario.execute 0 sample_scenario) [] = Thrown error /\
  logged ("Step 2 failed: " ++ error) /\
  logged ("Scenario execution failed: " ++ error) /\
  logged ("Scenario execution error: " ++ error) /\
  logged ("Error: " ++ error) /\
  resultX (run env) start = Fulfilled tt.
Proof.
  intros env start error logged.
  assert (H1 : run_setup env start = (Fulfilled tt, sample_session))
    by (vm_compute; reflexivity).
  assert (H2 : eval hasCriticalFailure (eventHandler sample_session) = false)
    by (vm_compute; reflexivity).
  assert (H3 : resultX (Scenario.execute 0 sample_scenario) [] = Thrown error)
    by (vm_compute; reflexivity).
  split; [exact H1 | split; [exact H2 | split; [exact H3 | ] ] ].
  destruct (a_failing_step_is_logged_at_every_level env sample_scenario
              "2025-01-01T00:00:00.000Z" "https://app.example/" 0 sample_session
              error H1 H2 eq_refl H3)
    as ((n & Hn & Hstep) & Hrest).
  assert (Hn2 : n = 2%nat).
  { assert (Hsome : Some n = Some 2%nat) by (rewrite <- Hn; reflexivity).
    injection Hsome as ->. reflexivity. }
  rewrite Hn2 in Hstep. exact (conj Hstep Hrest).
Defined.

(** Three sessions and an empty list of URLs. *)
Lemma without_urls_only_the_browser_is_closed_witness :
  (forall i, (i < 3)%nat -> no_url [] (scenario_C_input i)) /\
  launch (runnerPromises 3 [] scenario_C_input) [(Launcher, BrowserClose)] /\
  [(Launcher, BrowserClose)] = [(Launcher, BrowserClose)].
Proof.
  assert (H1 : forall i, (i < 3)%nat -> no_url [] (scenario_C_input i)).
  { intros i _. exact I. }
  assert (H2 : launch (runnerPromises 3 [] scenario_C_input) [(Launcher, BrowserClose)]).
  { exact (launch_fulfilled (runnerPromises 3 [] scenario_C_input)
             (sequential_from 0 (runnerPromises 3 [] scenario_C_input))
             (runnerPromises_fulfilled 3 [] scenario_C_input (fun i _ _ => eq_refl))
             (interleaving_sequential (runnerPromises 3 [] scenario_C_input))). }
  split; [exact H1 | split; [exact H2 | ] ].
  exact (without_urls_only_the_browser_is_closed 3 [] scenario_C_input
           [(Launcher, BrowserClose)] H1 H2).
Defined.

(** The program's one session, in a browser in which every call
    succeeds. *)
Lemma a_single_session_runs_before_the_browser_closes_witness :
  let trace :=
    (sequential_from 0 (main_runnerPromises ["https://app.example/"] single_input)
       ++ [(Launcher, BrowserClose)])%list in
  launch (main_runnerPromises ["https://app.example/"] single_input) trace /\
  session_owns_context ["https://app.example/"] (single_input 0%nat) = true /\
  trace
  = (tagged 0 (snd (runner_promise ["https://app.example/"] 0 (single_input 0%nat)))
       ++ [(Launcher, BrowserClose)])%list /\
  exists made,
    trace = (tagged 0 made
               ++ [(Session 0, ContextClose); (Launcher, BrowserClose)])%list /\
    Forall own_call made.
Proof.
  intros trace.
  assert (H : launch (main_runnerPromises ["https://app.example/"] single_input) trace).
  { apply launch_fulfilled;
      [apply runnerPromises_fulfilled; intros i _ _; reflexivity
      | apply interleaving_sequential]. }
  pose proof (a_single_session_runs_before_the_browser_closes
                ["https://app.example/"] single_input trace H) as (Ht & Hown).
  split; [exact H | split; [reflexivity | split; [exact Ht | exact (Hown eq_refl)] ] ].
Defined.
